(** * ParkEase: booking / payment reconciliation, checked against the code

    A shallow embedding of
      - [models/booking.model.js]   (schema enums, [isSlotAvailable],
                                     [canBeCancelled]),
      - [models/parking.model.js]   (the [pre('save')] hook,
                                     [calcAvailableSlots], [post('save')]),
      - [controllers/payment.controller.js]
                                    ([createPaymentOrder], [verifyPayment],
                                     [webhook] and its three handlers),
      - [controllers/admin.controller.js] ([updateBooking]).

    Documents are records, collections are lists of documents in natural
    order, dates are milliseconds since the epoch ([Z]).  The [payment]
    sub-document of a stored booking is a finite map from field names to
    values: the database holds whatever was written to it, while a write
    through the model reaches the paths of the schema only (strict mode).
    A query returns the first matching document, an update rewrites it in
    place and, the schemas having [timestamps: true], sets [updatedAt]. *)

From Stdlib Require Import ZArith QArith.
From stdpp Require Import base decidable option strings list gmap.

Local Open Scope string_scope.
Local Open Scope Z_scope.

(** ** Values and identifiers *)

(** An ObjectId, an order id or a payment id: an opaque string. *)
Definition ObjectId := string.

(** What a field of the [payment] sub-document can hold. *)
Inductive Value :=
| VString (s : string)
| VNumber (n : Z)
| VDate (ms : Z).

#[global] Instance Value_eq_dec : EqDecision Value.
Proof. solve_decision. Defined.

(** ** The booking model *)

Module Booking.

Record t := mk {
  _id : ObjectId;
  user : ObjectId;
  parking : ObjectId;
  slot : ObjectId;
  startTime : Z;
  endTime : Z;
  status : string;
  payment : gmap string Value;
  updatedAt : Z;
}.

#[global] Instance eq_dec : EqDecision t.
Proof. solve_decision. Defined.

Definition set_status (s : string) (b : t) : t :=
  mk (_id b) (user b) (parking b) (slot b) (startTime b) (endTime b)
     s (payment b) (updatedAt b).

Definition set_updatedAt (now : Z) (b : t) : t :=
  mk (_id b) (user b) (parking b) (slot b) (startTime b) (endTime b)
     (status b) (payment b) now.

(** The paths the schema declares under [payment].  The schema is strict:
    a document takes no other path, whether it is assigned or sent in an
    update. *)
Definition payment_paths : list string :=
  ["method"; "status"; "transactionId"; "paymentIntentId"; "receiptUrl"].

(** [booking.payment = p]: the nested object is replaced by the paths of
    the schema that [p] has. *)
Definition set_payment (p : gmap string Value) (b : t) : t :=
  mk (_id b) (user b) (parking b) (slot b) (startTime b) (endTime b)
     (status b) (filter (λ kv, kv.1 ∈ payment_paths) p) (updatedAt b).

(** [booking.payment.<field> = v]: an assignment to a path outside the
    schema does not reach the document. *)
Definition set_payment_field (field : string) (v : Value) (b : t) : t :=
  if bool_decide (field ∈ payment_paths)
  then mk (_id b) (user b) (parking b) (slot b) (startTime b) (endTime b)
          (status b) (<[field := v]> (payment b)) (updatedAt b)
  else b.

(** [status: { enum: [...] }] of the schema. *)
Definition status_enum : list string :=
  ["pending"; "confirmed"; "cancelled"; "completed"; "no-show"].

(** [payment.status: { enum: [...] }] of the schema. *)
Definition payment_status_enum : list string :=
  ["pending"; "completed"; "failed"; "refunded"; "partially_refunded"].

(** [payment.method: { enum: [...] }] of the schema. *)
Definition payment_method_enum : list string :=
  ["card"; "upi"; "wallet"; "cash"].

(** The validator of [endTime]: [value > this.startTime]. *)
Definition endTime_validator (b : t) : bool := startTime b <? endTime b.

(** The filter of [isSlotAvailable]:
    [{ slot, status: {$in: ['pending','confirmed']},
       $or: [ {startTime: {$lt: endTime}, endTime: {$gt: startTime}},
              {startTime: {$gte: startTime, $lt: endTime}} ],
       _id: {$ne: bookingId} (only when a bookingId is given) }]. *)
Definition isSlotAvailable_query (slotId : ObjectId) (startTime' endTime' : Z)
    (bookingId : option ObjectId) (b : t) : bool :=
  bool_decide (slot b = slotId)
  && bool_decide (status b ∈ ["pending"; "confirmed"])
  && (((startTime b <? endTime') && (endTime b >? startTime'))
      || ((startTime b >=? startTime') && (startTime b <? endTime')))
  && match bookingId with
     | Some id => negb (bool_decide (_id b = id))
     | None => true
     end.

(** [Booking.find(query)] *)
Definition find (query : t → bool) (coll : list t) : list t :=
  List.filter query coll.

(** [bookingSchema.statics.isSlotAvailable] *)
Definition isSlotAvailable (coll : list t) (slotId : ObjectId)
    (startTime' endTime' : Z) (bookingId : option ObjectId) : bool :=
  let bookings := find (isSlotAvailable_query slotId startTime' endTime' bookingId) coll in
  Nat.eqb (length bookings) 0.

(** [hoursUntilStart = (this.startTime - now) / (1000 * 60 * 60)] *)
Definition hoursUntilStart (now : Z) (b : t) : Q :=
  Qmake (startTime b - now) (1000 * 60 * 60).

(** [bookingSchema.methods.canBeCancelled], with [new Date()] passed in as
    [now]: [this.status === 'confirmed' && hoursUntilStart > 1]. *)
Definition canBeCancelled (now : Z) (b : t) : bool :=
  bool_decide (status b = "confirmed") && negb (Qle_bool (hoursUntilStart now b) 1).

End Booking.

(** ** The parking model *)

Module Slot.

Record t := mk {
  _id : ObjectId;
  slotId : string;
  number : Z;
  status : string;
  pricePerHour : Z;
}.

#[global] Instance eq_dec : EqDecision t.
Proof. solve_decision. Defined.

Definition set_status (s : string) (x : t) : t :=
  mk (_id x) (slotId x) (number x) s (pricePerHour x).

(** [status: { enum: [...] }] of a slot. *)
Definition status_enum : list string :=
  ["available"; "occupied"; "reserved"; "maintenance"].

End Slot.

Module Parking.

Record t := mk {
  _id : ObjectId;
  name : string;
  slug : string;
  totalSlots : Z;
  availableSlots : nat;
  slots : list Slot.t;
  isActive : bool;
  updatedAt : Z;
}.

#[global] Instance eq_dec : EqDecision t.
Proof. solve_decision. Defined.

Definition set_slug (s : string) (p : t) : t :=
  mk (_id p) (name p) s (totalSlots p) (availableSlots p) (slots p) (isActive p)
     (updatedAt p).

Definition set_availableSlots (n : nat) (p : t) : t :=
  mk (_id p) (name p) (slug p) (totalSlots p) n (slots p) (isActive p) (updatedAt p).

Definition set_slots (l : list Slot.t) (p : t) : t :=
  mk (_id p) (name p) (slug p) (totalSlots p) (availableSlots p) l (isActive p)
     (updatedAt p).

Definition set_updatedAt (now : Z) (p : t) : t :=
  mk (_id p) (name p) (slug p) (totalSlots p) (availableSlots p) (slots p) (isActive p) now.

(** [slots.filter((slot) => slot.status === 'available'
                               || slot.status === 'reserved').length] *)
Definition countAvailableOrReserved (l : list Slot.t) : nat :=
  length (List.filter
    (λ slot, bool_decide (Slot.status slot = "available")
             || bool_decide (Slot.status slot = "reserved")) l).

(** [$size: { $filter: { input: '$slots',
                         cond: { $eq: ['$$slot.status', 'available'] } } }] *)
Definition countAvailable (l : list Slot.t) : nat :=
  length (List.filter (λ slot, bool_decide (Slot.status slot = "available")) l).

Section Hooks.

(** [slugify(name, { lower: true })], a function of the slugify package. *)
Variable slugify : string → string.

(** What [Date.now()] returns while the document is written. *)
Variable now : Z.

(** [parkingSchema.pre('save')] *)
Definition pre_save (p : t) : t :=
  let p := set_slug (slugify (name p)) p in
  set_availableSlots (countAvailableOrReserved (slots p)) p.

(** The timestamps of [save()]: [updatedAt] is set when the document is
    new or differs from the stored one. *)
Definition touch (p : t) (coll : list t) : t :=
  match list_find (λ q, _id q = _id p) coll with
  | Some (_, q) => if decide (p = q) then p else set_updatedAt now p
  | None => set_updatedAt now p
  end.

(** The write of [save()]: the stored document with the same [_id] is
    replaced, a new document is appended. *)
Definition write (p : t) (coll : list t) : list t :=
  match list_find (λ q, _id q = _id p) coll with
  | Some (i, _) => <[i := p]> coll
  | None => coll ++ [p]
  end.

(** The aggregation of [calcAvailableSlots], behind the
    [pre('aggregate')] hook that keeps active documents only:
    one projected count per matching document. *)
Definition aggregate_availableSlots (parkingId : ObjectId) (coll : list t) : list nat :=
  (λ p, countAvailable (slots p))
    <$> List.filter (λ p, isActive p && bool_decide (_id p = parkingId)) coll.

(** [this.findByIdAndUpdate(parkingId, { availableSlots })], behind the
    [pre(/^find/)] hook that keeps active documents only; the update also
    sets [updatedAt]. *)
Definition findByIdAndUpdate (parkingId : ObjectId) (f : t → t) (coll : list t) : list t :=
  match list_find (λ p, isActive p ∧ _id p = parkingId) coll with
  | Some (i, p) => <[i := set_updatedAt now (f p)]> coll
  | None => coll
  end.

(** [parkingSchema.statics.calcAvailableSlots] *)
Definition calcAvailableSlots (parkingId : ObjectId) (coll : list t) : list t :=
  match aggregate_availableSlots parkingId coll with
  | n :: _ => findByIdAndUpdate parkingId (set_availableSlots n) coll
  | [] => coll
  end.

(** [parkingSchema.post('save')] *)
Definition post_save (p : t) (coll : list t) : list t :=
  calcAvailableSlots (_id p) coll.

(** [parking.save()] up to the moment the promise resolves: the
    [pre('save')] hook, the timestamps, then the write.  Returns the
    document the caller holds and the collection. *)
Definition save_written (p : t) (coll : list t) : t * list t :=
  let p' := touch (pre_save p) coll in (p', write p' coll).

(** [parking.save()] once the update that [post('save')] starts (and
    nobody awaits) has been applied as well. *)
Definition save (p : t) (coll : list t) : t * list t :=
  let '(p', coll') := save_written p coll in (p', post_save p' coll').

End Hooks.

(** [{ $set: { 'slots.$.status': s } }] on the first slot whose [_id] is
    [slotId]. *)
Definition set_slot_status (slotId : ObjectId) (s : string) (l : list Slot.t) : list Slot.t :=
  match list_find (λ x, Slot._id x = slotId) l with
  | Some (i, x) => <[i := Slot.set_status s x]> l
  | None => l
  end.

(** [Parking.updateOne({ 'slots._id': slotId },
                       { $set: { 'slots.$.status': s } })]
    at time [now]: the first parking that has such a slot; no hook of the
    schema runs on [updateOne], the update sets [updatedAt]. *)
Definition updateOne_slot_status (now : Z) (slotId : ObjectId) (s : string) (coll : list t)
    : list t :=
  match list_find (λ p, Exists (λ x, Slot._id x = slotId) (slots p)) coll with
  | Some (i, p) =>
      <[i := set_updatedAt now (set_slots (set_slot_status slotId s (slots p)) p)]> coll
  | None => coll
  end.

End Parking.

(** ** Requests, responses, errors *)

(** What the handlers throw or pass to [next]. *)
Inductive Exception :=
| AppError (message : string) (statusCode : Z)
| ValidationError (path : string)
| CastError (path : string)
| RedisNotInitialized
| TypeError
| GatewayError.

(** [req.user] *)
Module User.
Record t := mk { id : ObjectId; role : string }.
End User.

(** The order the gateway returns; only its id is read. *)
Module Order.
Record t := mk { id : string }.
End Order.

(** The options of [razorpay.orders.create]. *)
Module OrderOptions.
Record t := mk {
  amount : Z;
  currency : string;
  receipt : string;
  payment_capture : Z;
  notes_bookingId : string;
  notes_userId : string;
}.
End OrderOptions.

(** The body of [POST /payments/create-order]. *)
Module CreateOrderRequest.
Record t := mk {
  bookingId : ObjectId;
  amount : Z;
  currency : option string;
  user : User.t;
}.
End CreateOrderRequest.

(** The body of [POST /payments/verify]. *)
Module VerifyRequest.
Record t := mk {
  orderId : string;
  paymentId : string;
  signature : string;
  bookingId : ObjectId;
  user : User.t;
}.
End VerifyRequest.

(** [payload.payment.entity] *)
Module PaymentEntity.
Record t := mk {
  id : string;
  order_id : string;
  created_at : Z;
  error_description : option string;
}.
End PaymentEntity.

(** [payload.refund.entity] *)
Module RefundEntity.
Record t := mk {
  id : string;
  payment_id : string;
  status : string;
  created_at : Z;
}.
End RefundEntity.

(** The webhook body [{ event, payload }].  [payload], [payload.payment]
    and [payload.refund] may be missing ([None]); so may the [entity] inside
    ([Some None]). *)
Module WebhookBody.
Record payload_t := mk_payload {
  payment : option (option PaymentEntity.t);
  refund : option (option RefundEntity.t);
}.
Record t := mk {
  event : string;
  payload : option payload_t;
}.
End WebhookBody.

(** The JSON a handler answers with. *)
Inductive Body :=
| body_order (order : Order.t)
| body_booking (message : option string) (booking : Booking.t)
| body_status (status : string) (message : option string).

(** [res.status(code).json(body)], or [next(err)] (also what [catchAsync]
    does with a rejected promise). *)
Inductive Response :=
| res_json (status : Z) (body : Body)
| res_next (err : Exception).

(** A line of the logger: level, the literal text, the error if any. *)
Inductive LogEntry :=
| log_info (message : string)
| log_error (message : string) (err : Exception).

(** ** The stores *)

Record State := mkState {
  bookings : list Booking.t;
  parkings : list Parking.t;
  (** the keys held by the cache; [None] while [connectRedis] has not run *)
  redis : option (gset string);
  log : list LogEntry;
}.

Definition set_bookings (l : list Booking.t) (st : State) : State :=
  mkState l (parkings st) (redis st) (log st).

Definition set_parkings (l : list Parking.t) (st : State) : State :=
  mkState (bookings st) l (redis st) (log st).

Definition set_redis (r : option (gset string)) (st : State) : State :=
  mkState (bookings st) (parkings st) r (log st).

(** [logger.info] / [logger.error] *)
Definition logger (e : LogEntry) (st : State) : State :=
  mkState (bookings st) (parkings st) (redis st) (log st ++ [e]).

(** [`parking:${...}:availability`], for the text the template puts
    between the colons. *)
Definition availability_key (parking : string) : string :=
  "parking:" +:+ parking +:+ ":availability".

(** ** Mongoose on the booking collection *)

(** A path of an update document: [status] or [payment.<field>]. *)
Inductive Path :=
| path_status
| path_payment (field : string).

Definition Update := list (Path * Value).

(** The enum validator the schema declares on a path, if any. *)
Definition schema_enum (p : Path) : option (list string) :=
  match p with
  | path_status => Some Booking.status_enum
  | path_payment "status" => Some Booking.payment_status_enum
  | path_payment "method" => Some Booking.payment_method_enum
  | path_payment _ => None
  end.

(** Update validators ([runValidators: true]): each updated path is checked
    against its enum; the answer is the first path that fails. *)
Fixpoint runValidators (u : Update) : option Exception :=
  match u with
  | [] => None
  | (p, v) :: u' =>
      match schema_enum p, v with
      | Some enum, VString s =>
          if bool_decide (s ∈ enum) then runValidators u'
          else Some (ValidationError
                       match p with
                       | path_status => "status"
                       | path_payment f => "payment." +:+ f
                       end)
      | Some _, _ =>
          Some (ValidationError
                  match p with
                  | path_status => "status"
                  | path_payment f => "payment." +:+ f
                  end)
      | None, _ => runValidators u'
      end
  end.

(** Writing one path of an update into a document. *)
Definition apply_path (b : Booking.t) (pv : Path * Value) : Booking.t :=
  match pv with
  | (path_status, VString s) => Booking.set_status s b
  | (path_status, _) => b
  | (path_payment f, v) => Booking.set_payment_field f v b
  end.

Definition apply_update (u : Update) (b : Booking.t) : Booking.t :=
  fold_left apply_path u b.

(** [Booking.findById(id)] *)
Definition findById (id : ObjectId) (coll : list Booking.t) : option Booking.t :=
  snd <$> list_find (λ b, Booking._id b = id) coll.

(** [Booking.findOne(filter)]: the first match in natural order, with its
    position. *)
Definition findOne (filter : Booking.t → bool) (coll : list Booking.t)
    : option (nat * Booking.t) :=
  list_find (λ b, filter b) coll.

(** [Booking.findOneAndUpdate(filter, update, { new: true, runValidators })]
    at time [now]: the validators run first; then the first document that
    matches is rewritten and returned.  The update reaches the paths of the
    schema only, and sets [updatedAt]. *)
Definition findOneAndUpdate (now : Z) (filter : Booking.t → bool) (u : Update)
    (validators : bool) (coll : list Booking.t)
    : Exception + (option Booking.t * list Booking.t) :=
  match (if validators then runValidators u else None) with
  | Some err => inl err
  | None =>
      match findOne filter coll with
      | Some (i, b) =>
          let b' := Booking.set_updatedAt now (apply_update u b) in
          inr (Some b', <[i := b']> coll)
      | None => inr (None, coll)
      end
  end.

(** The filter [{ 'payment.<field>': v }], sent to the database as it is
    written: it matches what the stored document holds. *)
Definition payment_field_is (field : string) (v : string) (b : Booking.t) : bool :=
  bool_decide (Booking.payment b !! field = Some (VString v)).

(** [Parking.findById(id)], behind the [pre(/^find/)] hook that keeps
    active documents only. *)
Definition Parking_findById (id : ObjectId) (coll : list Parking.t) : option Parking.t :=
  snd <$> list_find (λ p, Parking.isActive p ∧ Parking._id p = id) coll.

(** ** The controllers *)

Section Controllers.

(** [crypto.createHmac('sha256', key).update(text).digest('hex')] *)
Variable hmac_sha256_hex : string → string → string.

(** [process.env.RAZORPAY_KEY_SECRET], [process.env.RAZORPAY_WEBHOOK_SECRET] *)
Variable RAZORPAY_KEY_SECRET : string.
Variable RAZORPAY_WEBHOOK_SECRET : string.

(** [JSON.stringify(body)] *)
Variable JSON_stringify : WebhookBody.t → string.

(** [razorpay.orders.create(options)]: an order, or a rejection. *)
Variable razorpay_orders_create : OrderOptions.t → option Order.t.

(** The validators of [save()] on the paths outside this model (the
    required [slotNumber] and [amount], the vehicle, ...), for the booking
    with the given id: no handler writes these paths. *)
Variable validate : ObjectId → bool.

(** Whether the string casts to an ObjectId; a query by an id that does
    not is rejected with a CastError. *)
Variable castObjectId : string → bool.

(** The [pre(/^find/)] hook of the booking schema populates [user]:
    whether the users collection (behind its own [pre(/^find/)] hook, which
    keeps active users) has the user with this id. *)
Variable user_populated : ObjectId → bool.

(** The same hook populates [parking] with [_id], [name], [location] and
    [address] of the facility: the text [toString()] gives for such a
    document (its inspect text), from the two of these paths the record
    has. *)
Variable inspect : ObjectId → string → string.

(** [Booking.findById(id)] as the handlers call it, on the [id] of the
    request. *)
Definition Booking_findById (id : string) (st : State) : Exception + option Booking.t :=
  if castObjectId id then inr (findById id (bookings st)) else inl (CastError "_id").

(** [`${booking.parking}`] on a booking a query returned: the text of the
    populated facility, [null] when populate found none (no such facility,
    or an inactive one). *)
Definition parking_text (b : Booking.t) (st : State) : string :=
  match Parking_findById (Booking.parking b) (parkings st) with
  | Some p => inspect (Parking._id p) (Parking.name p)
  | None => "null"
  end.

(** Whether [v] is a string of the enum. *)
Definition enum_ok (enum : list string) (v : option Value) : bool :=
  match v with
  | Some (VString s) => bool_decide (s ∈ enum)
  | _ => false
  end.

(** The validation of [save()] on a document that was read as [b0] and is
    now [b]: the required [payment.method] has to be there, a path that was
    changed has to pass its enum, and the paths outside the model have to
    pass theirs.  The answer is the first failure. *)
Definition validateSync (b0 b : Booking.t) : option Exception :=
  if negb (bool_decide (Booking.status b = Booking.status b0))
     && negb (bool_decide (Booking.status b ∈ Booking.status_enum))
  then Some (ValidationError "status")
  else if negb (bool_decide (is_Some (Booking.payment b !! "method")))
  then Some (ValidationError "payment.method")
  else if negb (bool_decide (Booking.payment b !! "method" = Booking.payment b0 !! "method"))
          && negb (enum_ok Booking.payment_method_enum (Booking.payment b !! "method"))
  then Some (ValidationError "payment.method")
  else if negb (bool_decide (Booking.payment b !! "status" = Booking.payment b0 !! "status"))
          && negb (enum_ok Booking.payment_status_enum (Booking.payment b !! "status"))
  then Some (ValidationError "payment.status")
  else if validate (Booking._id b) then None
  else Some (ValidationError "").

(** [booking.save()] at time [now] on a document that was read from the
    collection and changed into [b]: the validation, then the write, which
    sets [updatedAt] when the document was changed.  Returns the document
    the caller holds and the collection.  (Every handler saves the document
    it has just read, so the stored one is there; the last case is that of
    a document nobody read.) *)
Definition Booking_save (now : Z) (b : Booking.t) (coll : list Booking.t)
    : Exception + (Booking.t * list Booking.t) :=
  match list_find (λ x, Booking._id x = Booking._id b) coll with
  | Some (i, b0) =>
      match validateSync b0 b with
      | Some err => inl err
      | None =>
          let b' := if decide (b = b0) then b else Booking.set_updatedAt now b in
          inr (b', <[i := b']> coll)
      end
  | None => inr (b, coll)
  end.

(** [booking.user.toString() !== req.user.id && req.user.role !== 'admin'].
    [booking.user] is the populated user document, so [toString()] gives
    the text of a document and never an id: the first comparison holds
    whenever it can be evaluated, and throws when populate found no user
    ([booking.user] is [null]). *)
Definition not_authorized (b : Booking.t) (u : User.t) : Exception + bool :=
  if user_populated (Booking.user b)
  then inr (true && negb (bool_decide (User.role u = "admin")))
  else inl TypeError.

(** [redisClient.del(key)] after [getRedisClient()], which throws while
    the client is missing. *)
Definition redis_del (key : string) (st : State) : Exception + State :=
  match redis st with
  | Some keys => inr (set_redis (Some (keys ∖ {[ key ]})) st)
  | None => inl RedisNotInitialized
  end.

(** [exports.createPaymentOrder]; [now] is the time of the call. *)
Definition createPaymentOrder (now : Z) (req : CreateOrderRequest.t) (st : State)
    : Response * State :=
  let currency := default "INR" (CreateOrderRequest.currency req) in
  let amount := CreateOrderRequest.amount req in
  (* 1) Get booking and verify *)
  match Booking_findById (CreateOrderRequest.bookingId req) st with
  | inl err => (res_next err, st)
  | inr None => (res_next (AppError "No booking found with that ID" 404), st)
  | inr (Some booking) =>
      (* 2) Verify booking belongs to user or user is admin *)
      match not_authorized booking (CreateOrderRequest.user req) with
      | inl err => (res_next err, st)
      | inr true =>
          (res_next (AppError "You are not authorized to pay for this booking" 403), st)
      | inr false =>
          (* 3) Verify booking status *)
          if negb (bool_decide (Booking.status booking = "pending")) then
            (res_next (AppError "This booking has already been paid for or cancelled" 400),
             st)
          else
            (* 4) Create order in Razorpay *)
            let options :=
              OrderOptions.mk (amount * 100) currency
                ("booking_" +:+ Booking._id booking) 1
                (Booking._id booking) (User.id (CreateOrderRequest.user req)) in
            (* the [catch] around steps 4 to 6 *)
            let failed err :=
              (res_next (AppError "Error creating payment order. Please try again." 500),
               logger (log_error "Razorpay order creation error: " err) st) in
            match razorpay_orders_create options with
            | None => failed GatewayError
            | Some order =>
                (* 5) Update booking with payment details *)
                let booking :=
                  Booking.set_payment
                    {[ "orderId" := VString (Order.id order);
                       "status" := VString "pending";
                       "amount" := VNumber amount;
                       "currency" := VString currency ]} booking in
                match Booking_save now booking (bookings st) with
                | inl err => failed err
                (* 6) Send order details to client *)
                | inr (_, coll) => (res_json 200 (body_order order), set_bookings coll st)
                end
            end
      end
  end.

(** [exports.verifyPayment]; [now] is what [Date.now()] returns. *)
Definition verifyPayment (now : Z) (req : VerifyRequest.t) (st : State)
    : Response * State :=
  (* 1) Get booking *)
  match Booking_findById (VerifyRequest.bookingId req) st with
  | inl err => (res_next err, st)
  | inr None => (res_next (AppError "No booking found with that ID" 404), st)
  | inr (Some booking) =>
      (* 2) Verify booking belongs to user or user is admin *)
      match not_authorized booking (VerifyRequest.user req) with
      | inl err => (res_next err, st)
      | inr true =>
          (res_next (AppError "You are not authorized to verify this payment" 403), st)
      | inr false =>
          (* 3) Verify payment with Razorpay *)
          let text := VerifyRequest.orderId req +:+ "|" +:+ VerifyRequest.paymentId req in
          let generatedSignature := hmac_sha256_hex RAZORPAY_KEY_SECRET text in
          if negb (bool_decide (generatedSignature = VerifyRequest.signature req)) then
            (res_next (AppError "Invalid payment signature" 400), st)
          else
            (* the text of the populated facility, for step 6 *)
            let parking := parking_text booking st in
            (* 4) Update booking status *)
            let booking := Booking.set_status "confirmed" booking in
            let booking := Booking.set_payment_field "status" (VString "completed") booking in
            let booking := Booking.set_payment_field "paymentId"
                             (VString (VerifyRequest.paymentId req)) booking in
            let booking := Booking.set_payment_field "paidAt" (VNumber now) booking in
            match Booking_save now booking (bookings st) with
            | inl err => (res_next err, st)
            | inr (booking, coll) =>
                let st := set_bookings coll st in
                (* 5) Update parking slot status *)
                let st := set_parkings
                            (Parking.updateOne_slot_status now (Booking.slot booking)
                               "reserved" (parkings st)) st in
                (* 6) Invalidate cache *)
                match redis_del (availability_key parking) st with
                | inl err => (res_next err, st)
                | inr st =>
                    (res_json 200
                       (body_booking (Some "Payment verified and booking confirmed") booking),
                     st)
                end
            end
      end
  end.

(** The update document of [handleSuccessfulPayment]. *)
Definition captured_update (payment : PaymentEntity.t) : Update :=
  [ (path_payment "status", VString "completed");
    (path_payment "paymentId", VString (PaymentEntity.id payment));
    (path_payment "paidAt", VDate (PaymentEntity.created_at payment * 1000));
    (path_status, VString "confirmed") ].

(** [payment.error_description || 'Payment failed'] *)
Definition error_or_default (d : option string) : string :=
  match d with
  | Some "" | None => "Payment failed"
  | Some s => s
  end.

(** The update document of [handleFailedPayment]. *)
Definition failed_update (payment : PaymentEntity.t) : Update :=
  [ (path_payment "status", VString "failed");
    (path_payment "failedAt", VDate (PaymentEntity.created_at payment * 1000));
    (path_payment "error",
       VString (error_or_default (PaymentEntity.error_description payment)));
    (path_status, VString "cancelled") ].

(** The update document of [handleRefund]. *)
Definition refund_update (refund : RefundEntity.t) : Update :=
  [ (path_payment "refundId", VString (RefundEntity.id refund));
    (path_payment "refundStatus", VString (RefundEntity.status refund));
    (path_payment "refundedAt", VDate (RefundEntity.created_at refund * 1000));
    (path_status, VString "refunded") ].

(** [handleSuccessfulPayment] at time [now]; the argument is
    [payload.payment.entity], [None] when there is no such object. *)
Definition handleSuccessfulPayment (now : Z) (payment : option PaymentEntity.t) (st : State)
    : State :=
  let caught err := logger (log_error "Error handling successful payment: " err) st in
  match payment with
  | None => caught TypeError
  | Some payment =>
      match findOneAndUpdate now
              (payment_field_is "orderId" (PaymentEntity.order_id payment))
              (captured_update payment) true (bookings st) with
      | inl err => caught err
      | inr (None, _) => st
      | inr (Some booking, coll) =>
          let parking := parking_text booking st in
          let st' := set_bookings coll st in
          let st' := set_parkings
                       (Parking.updateOne_slot_status now (Booking.slot booking)
                          "reserved" (parkings st')) st' in
          match redis_del (availability_key parking) st' with
          | inl err => logger (log_error "Error handling successful payment: " err) st'
          | inr st' => st'
          end
      end
  end.

(** [handleFailedPayment] at time [now] *)
Definition handleFailedPayment (now : Z) (payment : option PaymentEntity.t) (st : State)
    : State :=
  match payment with
  | None => logger (log_error "Error handling failed payment: " TypeError) st
  | Some payment =>
      match findOneAndUpdate now
              (payment_field_is "orderId" (PaymentEntity.order_id payment))
              (failed_update payment) false (bookings st) with
      | inl err => logger (log_error "Error handling failed payment: " err) st
      | inr (_, coll) => set_bookings coll st
      end
  end.

(** [handleRefund] at time [now] *)
Definition handleRefund (now : Z) (refund : option RefundEntity.t) (st : State) : State :=
  let caught err := logger (log_error "Error handling refund: " err) st in
  match refund with
  | None => caught TypeError
  | Some refund =>
      match findOneAndUpdate now
              (payment_field_is "paymentId" (RefundEntity.payment_id refund))
              (refund_update refund) true (bookings st) with
      | inl err => caught err
      | inr (None, _) => st
      | inr (Some booking, coll) =>
          let parking := parking_text booking st in
          let st' := set_bookings coll st in
          let st' := set_parkings
                       (Parking.updateOne_slot_status now (Booking.slot booking)
                          "available" (parkings st')) st' in
          match redis_del (availability_key parking) st' with
          | inl err => logger (log_error "Error handling refund: " err) st'
          | inr st' => st'
          end
      end
  end.

(** [exports.webhook] at time [now]; [signature] is the
    [x-razorpay-signature] header. *)
Definition webhook (now : Z) (signature : option string) (body : WebhookBody.t) (st : State)
    : Response * State :=
  (* Verify webhook signature *)
  let text := JSON_stringify body in
  let generatedSignature := hmac_sha256_hex RAZORPAY_WEBHOOK_SECRET text in
  if negb (bool_decide (Some generatedSignature = signature)) then
    (res_json 400 (body_status "error" (Some "Invalid signature")), st)
  else
    let event := WebhookBody.event body in
    let success := res_json 200 (body_status "success" None) in
    (* Handle different webhook events: [switch (event)] *)
    if bool_decide (event = "payment.captured") then
      match WebhookBody.payload body ≫= WebhookBody.payment with
      | None => (res_next TypeError, st)
      | Some entity => (success, handleSuccessfulPayment now entity st)
      end
    else if bool_decide (event = "payment.failed") then
      match WebhookBody.payload body ≫= WebhookBody.payment with
      | None => (res_next TypeError, st)
      | Some entity => (success, handleFailedPayment now entity st)
      end
    else if bool_decide (event = "refund.processed") then
      match WebhookBody.payload body ≫= WebhookBody.refund with
      | None => (res_next TypeError, st)
      | Some entity => (success, handleRefund now entity st)
      end
    else
      (success, logger (log_info ("Unhandled webhook event: " +:+ event)) st).

(** [exports.updateBooking] of the admin controller; [id] is
    [req.params.id], [status] is [req.body.status], [now] is what
    [Date.now()] returns. *)
Definition updateBooking (now : Z) (id : string) (status : string) (st : State)
    : Response * State :=
  match Booking_findById id st with
  | inl err => (res_next err, st)
  | inr None => (res_next (AppError "No booking found with that ID" 404), st)
  | inr (Some booking) =>
      (* Update booking status *)
      let booking := Booking.set_status status booking in
      let booking := Booking.set_updatedAt now booking in
      (* Handle refund if cancelling a paid booking *)
      let booking :=
        if bool_decide (status = "cancelled")
           && bool_decide (Booking.payment booking !! "status" = Some (VString "completed"))
        then
          Booking.set_payment_field "refundRequestedAt" (VNumber now)
            (Booking.set_payment_field "refundStatus" (VString "pending") booking)
        else booking in
      match Booking_save now booking (bookings st) with
      | inl err => (res_next err, st)
      | inr (booking, coll) =>
          (res_json 200 (body_booking None booking), set_bookings coll st)
      end
  end.

End Controllers.

(** * Vocabulary of the properties *)

(** An active booking holds its slot. *)
Definition active (b : Booking.t) : Prop :=
  Booking.status b = "pending" ∨ Booking.status b = "confirmed".

#[global] Instance active_dec (b : Booking.t) : Decision (active b).
Proof. unfold active. apply _. Defined.

(** Two half-open intervals meet. *)
Definition overlaps (s1 e1 s2 e2 : Z) : Prop := s1 < e2 ∧ s2 < e1.

#[global] Instance overlaps_dec s1 e1 s2 e2 : Decision (overlaps s1 e1 s2 e2).
Proof. unfold overlaps. apply _. Defined.

(** The cancellation rule in the words of the specification: pending or
    confirmed, and for a confirmed booking more than the grace window (one
    hour) ahead of [startTime]. *)
Definition cancellation_permitted_spec (now : Z) (b : Booking.t) : Prop :=
  Booking.status b = "pending"
  ∨ (Booking.status b = "confirmed" ∧ now + 1000 * 60 * 60 < Booking.startTime b).

(** The document [verifyPayment] hands to [save()]: the booking read from
    the store after its four assignments. *)
Definition verified (now : Z) (paymentId : string) (b : Booking.t) : Booking.t :=
  Booking.set_payment_field "paidAt" (VNumber now)
    (Booking.set_payment_field "paymentId" (VString paymentId)
       (Booking.set_payment_field "status" (VString "completed")
          (Booking.set_status "confirmed" b))).

(** What the writes of a confirmation or of a [payment.captured] event
    leave of a booking: [status], [payment.status] and [updatedAt]. *)
Definition confirmed_at (now : Z) (b : Booking.t) : Booking.t :=
  Booking.mk (Booking._id b) (Booking.user b) (Booking.parking b) (Booking.slot b)
    (Booking.startTime b) (Booking.endTime b) "confirmed"
    (<["status" := VString "completed"]> (Booking.payment b)) now.

(** What the update of a [payment.failed] event leaves of a booking. *)
Definition failed_at (now : Z) (b : Booking.t) : Booking.t :=
  Booking.mk (Booking._id b) (Booking.user b) (Booking.parking b) (Booking.slot b)
    (Booking.startTime b) (Booking.endTime b) "cancelled"
    (<["status" := VString "failed"]> (Booking.payment b)) now.

(** The invariant of the specification on one booking: a completed payment
    goes with a confirmed or completed booking. *)
Definition paid_implies_confirmed (b : Booking.t) : Prop :=
  Booking.payment b !! "status" = Some (VString "completed") →
  Booking.status b = "confirmed" ∨ Booking.status b = "completed".

#[global] Instance paid_implies_confirmed_dec (b : Booking.t) :
  Decision (paid_implies_confirmed b).
Proof. unfold paid_implies_confirmed. apply _. Defined.

(** ... and on the whole collection. *)
Definition payment_invariant (st : State) : Prop :=
  Forall paid_implies_confirmed (bookings st).

#[global] Instance payment_invariant_dec (st : State) : Decision (payment_invariant st).
Proof. unfold payment_invariant. apply _. Defined.

(** The operations that write bookings, and runs of them. *)
Inductive Operation :=
| op_createPaymentOrder (now : Z) (req : CreateOrderRequest.t)
| op_verifyPayment (now : Z) (req : VerifyRequest.t)
| op_webhook (now : Z) (signature : option string) (body : WebhookBody.t)
| op_updateBooking (now : Z) (id : ObjectId) (status : string).

Section Runs.

Variable hmac_sha256_hex : string → string → string.
Variable RAZORPAY_KEY_SECRET RAZORPAY_WEBHOOK_SECRET : string.
Variable JSON_stringify : WebhookBody.t → string.
Variable razorpay_orders_create : OrderOptions.t → option Order.t.
Variable validate : ObjectId → bool.
Variable castObjectId : string → bool.
Variable user_populated : ObjectId → bool.
Variable inspect : ObjectId → string → string.

(** The state an operation leaves. *)
Definition perform (o : Operation) (st : State) : State :=
  match o with
  | op_createPaymentOrder now req =>
      (createPaymentOrder razorpay_orders_create validate castObjectId user_populated
         now req st).2
  | op_verifyPayment now req =>
      (verifyPayment hmac_sha256_hex RAZORPAY_KEY_SECRET validate castObjectId
         user_populated inspect now req st).2
  | op_webhook now signature body =>
      (webhook hmac_sha256_hex RAZORPAY_WEBHOOK_SECRET JSON_stringify inspect
         now signature body st).2
  | op_updateBooking now id status =>
      (updateBooking validate castObjectId now id status st).2
  end.

(** The state a sequence of operations leaves. *)
Definition perform_all (ops : list Operation) (st : State) : State :=
  fold_left (λ st o, perform o st) ops st.

End Runs.

(** An admin update that writes [confirmed] or [completed]; every other
    operation. *)
Definition writes_confirmed (o : Operation) : Prop :=
  match o with
  | op_updateBooking _ _ status => status = "confirmed" ∨ status = "completed"
  | _ => True
  end.

(** An operation leaves the collection alone or rewrites one document, into
    one that satisfies [P]. *)
Definition rewrites_one (P : Booking.t → Prop) (coll coll' : list Booking.t) : Prop :=
  coll' = coll ∨ ∃ i b', P b' ∧ coll' = <[i := b']> coll.

(** The three stores of a state, without the log. *)
Definition stores (st : State)
    : list Booking.t * list Parking.t * option (gset string) :=
  (bookings st, parkings st, redis st).





(** * Sample documents *)

Definition hour : Z := 1000 * 60 * 60.

(** A document the schema does not accept ([endTime] is not after
    [startTime]): an empty booking of slot [slot-1] at 11:00. *)
Definition booking_empty : Booking.t :=
  Booking.mk "booking-e" "user-1" "parking-1" "slot-1" (11 * hour) (11 * hour)
    "pending" {[ "method" := VString "card"; "status" := VString "pending" ]} 0.

(** A paid booking of slot [slot-1] for 10:00-11:00.  The stored document
    carries [payment.orderId] and [payment.paymentId], the paths the
    webhook handlers query: they are outside the schema, so the database
    got them from another writer than this model. *)
Definition booking_A : Booking.t :=
  Booking.mk "booking-a" "user-1" "parking-1" "slot-1" (10 * hour) (11 * hour)
    "confirmed"
    {[ "method" := VString "card"; "status" := VString "completed";
       "orderId" := VString "order_1"; "paymentId" := VString "pay_1" ]} 0.

(** An unpaid booking of slot [slot-2] for 14:00-15:00, stored with the
    [payment.orderId] of its order. *)
Definition booking_P : Booking.t :=
  Booking.mk "booking-p" "user-1" "parking-1" "slot-2" (14 * hour) (15 * hour)
    "pending"
    {[ "method" := VString "card"; "status" := VString "pending";
       "orderId" := VString "order_2" ]} 0.

(** A facility with one reserved and one available slot. *)
Definition parking_1 : Parking.t :=
  Parking.mk "parking-1" "Test Parking" "test-parking" 2 2
    [ Slot.mk "slot-1" "A1" 1 "reserved" 50;
      Slot.mk "slot-2" "A2" 2 "available" 50 ] true 0.

(** Both bookings stored, the facility stored, the cache connected. *)
Definition state_0 : State :=
  mkState [booking_A; booking_P] [parking_1]
    (Some {[ availability_key "parking-1" ]}) [].

(** Every booking passes the validators of the paths outside the model. *)
Definition no_validation : ObjectId → bool := λ _, true.

(** Every id of the examples casts to an ObjectId; every user exists. *)
Definition sample_castObjectId : string → bool := λ _, true.

Definition sample_user_populated : ObjectId → bool := λ _, true.

(** The text of a populated facility, to run the examples with. *)
Definition sample_inspect (id : ObjectId) (name : string) : string :=
  "{ _id: " +:+ id +:+ ", name: '" +:+ name +:+ "' }".

(** The owner of both bookings, and an admin. *)
Definition owner_1 : User.t := User.mk "user-1" "user".

Definition admin_1 : User.t := User.mk "admin-1" "admin".

(** A keyed digest to run the examples with. *)
Definition sample_hmac (key text : string) : string := key +:+ "#" +:+ text.

(** A serialisation to run the examples with: the event name. *)
Definition sample_stringify (body : WebhookBody.t) : string := WebhookBody.event body.

(** A gateway that answers every request with the same order. *)
Definition sample_gateway : OrderOptions.t → option Order.t :=
  λ _, Some (Order.mk "order_9").

(** An admin's request for an order for the pending booking. *)
Definition create_order_request_P : CreateOrderRequest.t :=
  CreateOrderRequest.mk "booking-p" 50 None admin_1.

(** The confirmation of the payment of the pending booking, sent by an
    admin, and the same sent by the owner of the booking. *)
Definition verify_request_P : VerifyRequest.t :=
  VerifyRequest.mk "order_2" "pay_2" (sample_hmac "key-secret" "order_2|pay_2")
    "booking-p" admin_1.

Definition verify_request_owner : VerifyRequest.t :=
  VerifyRequest.mk "order_2" "pay_2" (sample_hmac "key-secret" "order_2|pay_2")
    "booking-p" owner_1.

(** [verifyPayment] with the parameters of the examples. *)
Definition sample_verifyPayment : Z → VerifyRequest.t → State → Response * State :=
  verifyPayment sample_hmac "key-secret" no_validation sample_castObjectId
    sample_user_populated sample_inspect.

(** The state after the admin's confirmation at time 1000. *)
Definition state_1 : State := (sample_verifyPayment 1000 verify_request_P state_0).2.


Definition failed_order_2 : PaymentEntity.t :=
  PaymentEntity.mk "pay_2" "order_2" 1700000000 None.

(** The [payment.captured] event for the order of the pending booking. *)
Definition captured_order_2 : WebhookBody.t :=
  WebhookBody.mk "payment.captured"
    (Some (WebhookBody.mk_payload
             (Some (Some (PaymentEntity.mk "pay_2" "order_2" 1700000000 None))) None)).

(** * More of the code

    The rest of the booking model ([calculateDuration]), the admin
    controller's [filterObj], the password hooks and [changedPasswordAfter]
    of [models/user.model.js], the parking controller ([getParkingSlots],
    [deleteParking], [getParkingAvailability]), the cache client of
    [config/redis.js], and the alert and auth slices of the front end. *)

From Stdlib Require Import Qround.

(** ** The rest of the booking model *)

(** [bookingSchema.methods.calculateDuration]:
    [Math.ceil((this.endTime - this.startTime) / (1000 * 60 * 60))], with
    the difference and the quotient taken exactly.  This is what the
    arithmetic of the code (on doubles) gives as long as the two dates are
    at most [2^53] milliseconds apart, the bound under which the
    properties below are stated; beyond it the subtraction rounds. *)
Definition calculateDuration (b : Booking.t) : Z :=
  let durationMs := Booking.endTime b - Booking.startTime b in
  Qceiling (Qmake durationMs (1000 * 60 * 60)).

(** ** Reading the stores *)

(** [(await Parking.findOne({ 'slots._id': slotId })).slots.id(slotId).status],
    without the [pre(/^find/)] filter: the status [updateOne_slot_status]
    is about to overwrite. *)
Definition slot_status (slotId : ObjectId) (coll : list Parking.t) : option string :=
  '(_, p) ← list_find (λ p, Exists (λ x, Slot._id x = slotId) (Parking.slots p)) coll;
  '(_, x) ← list_find (λ x, Slot._id x = slotId) (Parking.slots p);
  Some (Slot.status x).

(** The paths of a booking that no handler of the payment controller and
    no admin update assigns. *)
Definition booking_identity (b : Booking.t)
    : ObjectId * ObjectId * ObjectId * ObjectId * Z * Z :=
  (Booking._id b, Booking.user b, Booking.parking b, Booking.slot b,
   Booking.startTime b, Booking.endTime b).

(** A slot without its status, a facility without the statuses of its
    slots. *)
Definition slot_identity (x : Slot.t) : ObjectId * string * Z * Z :=
  (Slot._id x, Slot.slotId x, Slot.number x, Slot.pricePerHour x).

Definition parking_identity (p : Parking.t)
    : ObjectId * string * string * Z * nat * bool * list (ObjectId * string * Z * Z) :=
  (Parking._id p, Parking.name p, Parking.slug p, Parking.totalSlots p,
   Parking.availableSlots p, Parking.isActive p, slot_identity <$> Parking.slots p).

(** A cache that lost keys at most: [del] is the only command the
    controllers send. *)
Definition cache_shrinks (r r' : option (gset string)) : Prop :=
  match r, r' with
  | Some keys, Some keys' => keys' ⊆ keys
  | None, None => True
  | _, _ => False
  end.

(** What no operation changes: which bookings and facilities there are,
    where they are stored, and every path outside the booking's [status],
    [payment] and [updatedAt] and the slots' [status]. *)
Definition same_documents (st st' : State) : Prop :=
  booking_identity <$> bookings st' = booking_identity <$> bookings st
  ∧ parking_identity <$> parkings st' = parking_identity <$> parkings st
  ∧ cache_shrinks (redis st) (redis st').

(** ** The admin controller: [filterObj] *)

(** [filterObj(obj, ...allowedFields)]: a new object with the own keys of
    [obj] that are allowed, visited by [Object.keys(obj).forEach]. *)
Definition filterObj {V : Type} (obj : gmap string V) (allowedFields : list string)
    : gmap string V :=
  map_fold
    (λ el v newObj, if bool_decide (el ∈ allowedFields) then <[el := v]> newObj else newObj)
    ∅ obj.

(** Step 1 of [exports.updateUser]: the update document handed to
    [User.findByIdAndUpdate]. *)
Definition updateUser_filteredBody {V : Type} (body : gmap string V) : gmap string V :=
  filterObj body ["name"; "email"; "phone"; "role"; "active"].

(** ** The user model *)

Module UserModel.

(** The paths the password hooks read and write; dates are milliseconds. *)
Record t := mk {
  password : string;
  passwordConfirm : option string;
  passwordChangedAt : option Z;
}.

Section Hooks.

(** [bcrypt.hash(password, 12)] *)
Variable bcrypt_hash : string → string.

(** The first [userSchema.pre('save')]; [isModified_password] is
    [this.isModified('password')]. *)
Definition pre_save_password (isModified_password : bool) (u : t) : t :=
  if negb isModified_password then u
  else mk (bcrypt_hash (password u)) None (passwordChangedAt u).

(** The second [userSchema.pre('save')]; [now] is what [Date.now()]
    returns. *)
Definition pre_save_passwordChangedAt (now : Z) (isModified_password isNew : bool) (u : t) : t :=
  if negb isModified_password || isNew then u
  else mk (password u) (passwordConfirm u) (Some (now - 1000)).

(** Both hooks, in the order they are registered. *)
Definition pre_save (now : Z) (isModified_password isNew : bool) (u : t) : t :=
  pre_save_passwordChangedAt now isModified_password isNew
    (pre_save_password isModified_password u).

End Hooks.

(** [userSchema.methods.changedPasswordAfter]; [parseInt(ms / 1000, 10)]
    drops the fraction. *)
Definition changedPasswordAfter (JWTTimestamp : Z) (u : t) : bool :=
  match passwordChangedAt u with
  | Some ms =>
      let changedTimestamp := Z.quot ms 1000 in
      JWTTimestamp <? changedTimestamp
  | None => false
  end.

End UserModel.

(** ** The front end: the alert and auth slices *)

Module AlertSlice.

Record alert := mk { msg : string; alertType : string; id : string }.

(** [initialState] *)
Definition initialState : list alert := [].

(** [setAlert]: [state.push(action.payload)] *)
Definition setAlert (payload : alert) (state : list alert) : list alert :=
  (state ++ [payload])%list.

(** [removeAlert]: [state.filter((alert) => alert.id !== action.payload)] *)
Definition removeAlert (payload : string) (state : list alert) : list alert :=
  List.filter (λ a, negb (bool_decide (id a = payload))) state.

End AlertSlice.

Module AuthSlice.

Section Slice.

(** The user object of a response, [action.payload.data.user]. *)
Context {U : Type}.

Record state := mk {
  token : option string;
  isAuthenticated : option bool;
  loading : bool;
  user : option U;
}.

(** The actions the slice handles; a [token] is [action.payload.token],
    [None] when the response has none ([undefined]). *)
Inductive action :=
| logout
| loadUser_pending
| loadUser_fulfilled (user : U)
| loadUser_rejected
| register_fulfilled (token : option string)
| register_rejected
| login_fulfilled (token : option string)
| login_rejected.

(** [initialState]; the argument is [localStorage.getItem('token')]. *)
Definition initialState (localStorage_token : option string) : state :=
  mk localStorage_token None true None.

(** [localStorage.setItem('token', v)]: the item holds a string, so
    [undefined] is stored as the string [undefined]. *)
Definition setItem (v : option string) : option string :=
  Some (default "undefined" v).

(** The reducer, on the slice and the [token] item of [localStorage]. *)
Definition reducer (a : action) (s : state * option string) : state * option string :=
  let '(st, localStorage_token) := s in
  match a with
  | logout => (mk None (Some false) false None, None)
  | loadUser_pending =>
      (mk (token st) (isAuthenticated st) true (user st), localStorage_token)
  | loadUser_fulfilled u =>
      (mk (token st) (Some true) false (Some u), localStorage_token)
  | loadUser_rejected => (mk None (Some false) false None, None)
  | register_fulfilled t => (mk t (Some true) false (user st), setItem t)
  | register_rejected => (mk None (Some false) false (user st), None)
  | login_fulfilled t => (mk t (Some true) false (user st), setItem t)
  | login_rejected => (mk None (Some false) false (user st), None)
  end.

(** A page load followed by a sequence of actions. *)
Definition run (localStorage_token : option string) (actions : list action)
    : state * option string :=
  fold_left (λ s a, reducer a s) actions (initialState localStorage_token, localStorage_token).

(** The response of a fulfilled request carries a token. *)
Definition carries_token (a : action) : Prop :=
  match a with
  | register_fulfilled None | login_fulfilled None => False
  | _ => True
  end.

End Slice.

Arguments state : clear implicits.
Arguments action : clear implicits.

End AuthSlice.

(** ** The parking controller *)

(** [parking.isActive = a] *)
Definition Parking_set_isActive (a : bool) (p : Parking.t) : Parking.t :=
  Parking.mk (Parking._id p) (Parking.name p) (Parking.slug p) (Parking.totalSlots p)
    (Parking.availableSlots p) (Parking.slots p) a (Parking.updatedAt p).

(** [slots.filter((slot) => slot.status === 'available'
                          || slot.status === 'reserved')] *)
Definition availableOrReserved (l : list Slot.t) : list Slot.t :=
  List.filter
    (λ slot, bool_decide (Slot.status slot = "available")
             || bool_decide (Slot.status slot = "reserved")) l.

(** What [getParkingAvailability] answers with 200: [isOpen: false], or
    [isOpen: true] with [availableSlots], [slots] and [totalSlots]. *)
Inductive Availability :=
| availability_closed
| availability_open (availableSlots : nat) (slots : list Slot.t) (totalSlots : nat).

Section ParkingController.

(** [slugify(name, { lower: true })], used by the hook of [save]. *)
Variable slugify : string → string.

(** [parking.owner.toString()], a path of the schema outside the record. *)
Variable owner : Parking.t → ObjectId.

(** The opening-hours test of [getParkingAvailability] on a facility, the
    requested time and the duration (minutes): [true] when the handler
    answers [isOpen: false].  It reads [is24x7] and [openingHours] in local
    time. *)
Variable closed : Parking.t → Z → Z → bool.

(** [exports.getParkingSlots]: the error for [next], or [results] and
    [data.slots]. *)
Definition getParkingSlots (id : ObjectId) (st : State) : Exception + (nat * list Slot.t) :=
  match Parking_findById id (parkings st) with
  | None => inl (AppError "No parking found with that ID" 404)
  | Some parking =>
      let availableSlots := availableOrReserved (Parking.slots parking) in
      inr (length availableSlots, availableSlots)
  end.

(** [exports.deleteParking] at time [now] *)
Definition deleteParking (now : Z) (id : ObjectId) (user : User.t) (st : State)
    : Response * State :=
  (* 1) Check if parking exists and user has permission *)
  match Parking_findById id (parkings st) with
  | None => (res_next (AppError "No parking found with that ID" 404), st)
  | Some parking =>
      (* 2) Check if user is the owner or admin *)
      if negb (bool_decide (User.role user = "admin"))
         && negb (bool_decide (owner parking = User.id user))
      then (res_next (AppError "You do not have permission to delete this parking" 403), st)
      else
        (* 3) Soft delete (set isActive to false) *)
        let parking := Parking_set_isActive false parking in
        let st := set_parkings (Parking.save slugify now parking (parkings st)).2 st in
        (* 4) Invalidate cache *)
        match redis_del (availability_key id) st with
        | inl err => (res_next err, st)
        | inr st => (res_json 204 (body_status "success" None), st)
        end
  end.

(** [exports.getParkingAvailability]; [requestedDate] is [new Date(date)]
    or the current time, [duration] is in minutes. *)
Definition getParkingAvailability (id : ObjectId) (requestedDate duration : Z) (st : State)
    : Exception + Availability :=
  match Parking_findById id (parkings st) with
  | None => inl (AppError "No parking found with that ID" 404)
  | Some parking =>
      (* Check if parking is open at the requested time *)
      if closed parking requestedDate duration then inr availability_closed
      else
        (* Get available slots *)
        let availableSlots := availableOrReserved (Parking.slots parking) in
        (* Check for overlapping bookings *)
        let overlappingBookings :=
          Booking.find
            (λ b, bool_decide (Booking.parking b = id)
                  && bool_decide (Booking.status b ∈ ["confirmed"; "pending"])
                  && ((Booking.startTime b <? requestedDate + duration * 60000)
                      && (Booking.endTime b >? requestedDate)))
            (bookings st) in
        (* Get booked slot IDs *)
        let bookedSlotIds := Booking.slot <$> overlappingBookings in
        (* Filter out booked slots *)
        let trulyAvailableSlots :=
          List.filter (λ slot, negb (bool_decide (Slot._id slot ∈ bookedSlotIds)))
            availableSlots in
        inr (availability_open (length trulyAvailableSlots) trulyAvailableSlots
               (length (Parking.slots parking)))
  end.

End ParkingController.

(** ** The cache client of [config/redis.js] *)

Module Redis.

(** A client as [createClient] returns it: open after [connect()]
    resolved, until [quit()]. *)
Record client := mk_client { isOpen : bool }.

(** How far a call of [connectRedis] gets. *)
Inductive Attempt :=
| createClient_throws
| connect_rejects
| connect_resolves.

#[global] Instance Attempt_eq_dec : EqDecision Attempt.
Proof. solve_decision. Defined.

(** [connectRedis]: what it returns ([None] for [null]) and the module
    variable [redisClient] afterwards.  The variable is assigned before
    [connect()] is awaited. *)
Definition connectRedis (a : Attempt) (redisClient : option client)
    : option client * option client :=
  match a with
  | createClient_throws => (None, redisClient)
  | connect_rejects => (None, Some (mk_client false))
  | connect_resolves => (Some (mk_client true), Some (mk_client true))
  end.

(** [getRedisClient] *)
Definition getRedisClient (redisClient : option client) : Exception + client :=
  match redisClient with
  | None => inl RedisNotInitialized
  | Some c => inr c
  end.

(** [closeRedis]: [quit()] on the client, if there is one; the variable
    keeps it. *)
Definition closeRedis (redisClient : option client) : option client :=
  match redisClient with
  | Some _ => Some (mk_client false)
  | None => None
  end.

(** The calls that write the module variable, and a sequence of them from
    the start of the process. *)
Inductive Call :=
| call_connectRedis (a : Attempt)
| call_closeRedis.

Definition call (c : Call) (redisClient : option client) : option client :=
  match c with
  | call_connectRedis a => (connectRedis a redisClient).2
  | call_closeRedis => closeRedis redisClient
  end.

Definition run (calls : list Call) : option client :=
  fold_left (λ redisClient c, call c redisClient) calls None.

End Redis.

(** * Properties *)

(** ** Slot availability ([isSlotAvailable]) *)

Section SlotAvailability.

Import Booking.

Lemma active_elem_of b : status b ∈ ["pending"; "confirmed"] ↔ active b.
Proof.
  unfold active. rewrite !elem_of_cons, elem_of_nil. tauto.
Qed.

(** What the filter selects, as a proposition. *)
Lemma isSlotAvailable_query_true slotId s e bookingId b :
  isSlotAvailable_query slotId s e bookingId b = true ↔
    slot b = slotId ∧ active b
    ∧ (overlaps (startTime b) (endTime b) s e ∨ (s ≤ startTime b ∧ startTime b < e))
    ∧ bookingId ≠ Some (_id b).
Proof.
  unfold isSlotAvailable_query, overlaps.
  rewrite !andb_true_iff, orb_true_iff, !andb_true_iff.
  rewrite !bool_decide_eq_true, active_elem_of.
  rewrite !Z.ltb_lt, Z.gtb_gt, Z.geb_ge.
  assert (match bookingId with
          | Some id => negb (bool_decide (_id b = id))
          | None => true
          end = true ↔ bookingId ≠ Some (_id b)) as ->.
  { destruct bookingId as [id|]; [|done].
    rewrite negb_true_iff, bool_decide_eq_false. split; congruence. }
  intuition lia.
Qed.

(** The check answers [true] exactly when the filter selects nothing. *)
Lemma isSlotAvailable_no_match coll slotId s e bookingId :
  isSlotAvailable coll slotId s e bookingId = true ↔
    ∀ b, b ∈ coll → isSlotAvailable_query slotId s e bookingId b = false.
Proof.
  unfold isSlotAvailable, find. rewrite Nat.eqb_eq.
  induction coll as [|x coll IH]; simpl.
  - split; [intros _ b Hb; by apply elem_of_nil in Hb | done].
  - destruct (isSlotAvailable_query slotId s e bookingId x) eqn:Hx; simpl.
    + split; [done|]. intros H. specialize (H x (list_elem_of_here _ _)). congruence.
    + rewrite IH. split.
      * intros H b [->|Hb]%elem_of_cons; auto.
      * intros H b Hb. apply H. by apply list_elem_of_further.
Qed.

(** With an excluded booking the booking itself is skipped. *)
Lemma isSlotAvailable_excluding coll slotId s e bookingId :
  Forall (λ b, startTime b < endTime b) coll →
  isSlotAvailable coll slotId s e bookingId = true ↔
    ∀ b, b ∈ coll → slot b = slotId → active b → bookingId ≠ Some (_id b) →
      ¬ overlaps (startTime b) (endTime b) s e.
Proof.
  intros Hwf. rewrite isSlotAvailable_no_match. rewrite Forall_forall in Hwf.
  split.
  - intros H b Hb Hslot Hact Hid Hov.
    specialize (H b Hb). apply not_true_iff_false in H. apply H.
    apply isSlotAvailable_query_true. tauto.
  - intros H b Hb. apply not_true_iff_false.
    intros (Hslot & Hact & Hov & Hid)%isSlotAvailable_query_true.
    apply (H b Hb Hslot Hact Hid). specialize (Hwf b Hb). unfold overlaps in *.
    simpl in Hwf. lia.
Qed.

End SlotAvailability.

(** C1. On a collection whose bookings satisfy the schema's validator
    [endTime > startTime], the availability check for the window [s, e) on a
    slot answers [true] exactly when no pending or confirmed booking of that
    slot has [startTime < e] and [s < endTime]; in particular bookings that
    end exactly at [s] or start exactly at [e] never make it answer
    [false]. *)
Theorem isSlotAvailable_half_open (coll : list Booking.t) (slotId : ObjectId) (s e : Z) :
  Forall (λ b, Booking.startTime b < Booking.endTime b) coll →
  (Booking.isSlotAvailable coll slotId s e None = true ↔
     ∀ b, b ∈ coll → Booking.slot b = slotId → active b →
       ¬ (Booking.startTime b < e ∧ s < Booking.endTime b))
  ∧ ((∀ b, b ∈ coll → Booking.slot b = slotId → active b →
        Booking.endTime b = s ∨ Booking.startTime b = e) →
     Booking.isSlotAvailable coll slotId s e None = true).
Proof.
  intros Hwf.
  assert (Booking.isSlotAvailable coll slotId s e None = true ↔
     ∀ b, b ∈ coll → Booking.slot b = slotId → active b →
       ¬ (Booking.startTime b < e ∧ s < Booking.endTime b)) as Hiff.
  { rewrite (isSlotAvailable_excluding _ _ _ _ _ Hwf). unfold overlaps.
    split; intros H b Hb Hslot Hact; [by apply H | intros _; by apply H]. }
  split; [exact Hiff|].
  intros Htouch. apply Hiff. intros b Hb Hslot Hact [H1 H2].
  rewrite Forall_forall in Hwf. specialize (Hwf b Hb). simpl in Hwf.
  destruct (Htouch b Hb Hslot Hact); lia.
Qed.

(** The theorem on the two sample bookings: 11:00-12:00 on [slot-1] is free
    although booking A ends at 11:00 on that slot. *)
Lemma isSlotAvailable_half_open_witness :
  Forall (λ b, Booking.startTime b < Booking.endTime b) [booking_A; booking_P]
  ∧ Booking.isSlotAvailable [booking_A; booking_P] "slot-1" (11 * hour) (12 * hour) None = true.
Proof.
  assert (Forall (λ b, Booking.startTime b < Booking.endTime b) [booking_A; booking_P]) as Hwf.
  { repeat constructor; vm_compute; reflexivity. }
  split; [exact Hwf|].
  apply (isSlotAvailable_half_open [booking_A; booking_P] "slot-1" (11 * hour) (12 * hour) Hwf).
  intros b Hb Hslot _.
  apply elem_of_cons in Hb as [->|Hb]; [left; reflexivity|].
  apply elem_of_cons in Hb as [->|Hb]; [discriminate Hslot|].
  by apply elem_of_nil in Hb.
Defined.

(** The three bookings of the specification's example: with A = 10:00-11:00
    on the slot, 10:30-11:30 is refused and 11:00-12:00 is accepted. *)
Example isSlotAvailable_example :
  Booking.isSlotAvailable [booking_A] "slot-1" (10 * hour + hour / 2) (11 * hour + hour / 2) None = false
  ∧ Booking.isSlotAvailable [booking_A] "slot-1" (11 * hour) (12 * hour) None = true.
Proof. split; vm_compute; reflexivity. Qed.

(** Why the validator matters: the second branch of the filter's [$or]
    selects a stored booking that starts inside the window even when its
    interval is empty, which the two inequalities alone would not. *)
Example isSlotAvailable_empty_booking :
  Booking.endTime_validator booking_empty = false
  ∧ ¬ overlaps (Booking.startTime booking_empty) (Booking.endTime booking_empty)
        (11 * hour) (12 * hour)
  ∧ Booking.isSlotAvailable [booking_empty] "slot-1" (11 * hour) (12 * hour) None = false.
Proof.
  split_and!; [vm_compute; reflexivity | | vm_compute; reflexivity].
  unfold overlaps. vm_compute. intros [_ H]. discriminate H.
Qed.

(** ** Cancellation ([canBeCancelled]) *)

Lemma hoursUntilStart_gt_1 now b :
  Qle_bool (Booking.hoursUntilStart now b) 1 = false ↔ now + 3600000 < Booking.startTime b.
Proof.
  rewrite <- not_true_iff_false, Qle_bool_iff.
  unfold Booking.hoursUntilStart, Qle. simpl. lia.
Qed.

(** C7, as the code has it.  [canBeCancelled] answers [true] exactly when
    the booking is confirmed and [now] is more than one hour before
    [startTime]; a pending booking is never cancellable; a confirmed booking
    that starts in 30 minutes is not, one that starts in 2 hours is. *)
Theorem canBeCancelled_confirmed_only (now : Z) (b : Booking.t) :
  (Booking.canBeCancelled now b = true ↔
     Booking.status b = "confirmed" ∧ now + 1000 * 60 * 60 < Booking.startTime b)
  ∧ Booking.canBeCancelled now (Booking.set_status "pending" b) = false
  ∧ Booking.canBeCancelled now
      (Booking.mk (Booking._id b) (Booking.user b) (Booking.parking b) (Booking.slot b)
         (now + 30 * 60 * 1000) (Booking.endTime b) "confirmed"
         (Booking.payment b) (Booking.updatedAt b)) = false
  ∧ Booking.canBeCancelled now
      (Booking.mk (Booking._id b) (Booking.user b) (Booking.parking b) (Booking.slot b)
         (now + 2 * 60 * 60 * 1000) (Booking.endTime b) "confirmed"
         (Booking.payment b) (Booking.updatedAt b)) = true.
Proof.
  assert (∀ b', Booking.canBeCancelled now b' = true ↔
     Booking.status b' = "confirmed" ∧ now + 1000 * 60 * 60 < Booking.startTime b') as Hiff.
  { intros b'. unfold Booking.canBeCancelled.
    rewrite andb_true_iff, bool_decide_eq_true, negb_true_iff, hoursUntilStart_gt_1.
    split; intros [? ?]; split; auto; lia. }
  split; [apply Hiff|]. split; [|split].
  - apply not_true_iff_false. intros [H _]%Hiff. discriminate H.
  - apply not_true_iff_false. intros [_ H]%Hiff. simpl in H. lia.
  - apply Hiff. simpl. split; [reflexivity | lia].
Qed.

(** The bound is strict: exactly one hour ahead is too late. *)
Example canBeCancelled_one_hour_ahead :
  Booking.canBeCancelled (9 * hour) booking_A = false
  ∧ Booking.canBeCancelled (9 * hour - 1) booking_A = true.
Proof. split; vm_compute; reflexivity. Qed.

(** C7 as stated fails: a pending booking that starts in 14 hours is
    cancellable by the stated rule and not by [canBeCancelled]. *)
Lemma canBeCancelled_pending_counterexample :
  cancellation_permitted_spec 0 booking_P
  ∧ Booking.canBeCancelled 0 booking_P = false.
Proof. split; [left; reflexivity | vm_compute; reflexivity]. Qed.

(** ** Lists of documents *)

Section FirstMatch.

Context {A : Type} (P : A → Prop) `{!∀ x, Decision (P x)}.

(** Rewriting the first match by a document that still matches keeps it the
    first match. *)
Lemma list_find_insert_same (l : list A) i x y :
  list_find P l = Some (i, x) → P y → list_find P (<[i := y]> l) = Some (i, y).
Proof.
  intros (Hi & _ & Hleast)%list_find_Some Hy.
  apply list_find_Some. split_and!.
  - apply list_lookup_insert_eq. by eapply lookup_lt_Some.
  - done.
  - intros j z Hj Hlt. rewrite list_lookup_insert_ne in Hj by lia. eauto.
Qed.

(** A write behind the first match does not move it. *)
Lemma list_find_insert_later (l : list A) i j x y :
  list_find P l = Some (i, x) → (i < j)%nat → list_find P (<[j := y]> l) = Some (i, x).
Proof.
  intros (Hi & HP & Hleast)%list_find_Some Hlt. apply list_find_Some. split_and!.
  - rewrite list_lookup_insert_ne by lia. done.
  - done.
  - intros k z Hk Hki. rewrite list_lookup_insert_ne in Hk by lia. by eapply Hleast.
Qed.

(** Rewriting a document into one that matches exactly when it did keeps
    the position of the first match. *)
Lemma list_find_insert_iff (l : list A) i x y :
  l !! i = Some x → (P x ↔ P y) →
  list_find P (<[i := y]> l)
  = (λ jz, (jz.1, if decide (jz.1 = i) then y else jz.2)) <$> list_find P l.
Proof.
  intros Hi Hiff.
  destruct (list_find P l) as [[j z]|] eqn:Hfind; simpl.
  - pose proof Hfind as (Hj & HP & Hleast)%list_find_Some.
    apply list_find_Some. destruct (decide (j = i)) as [->|Hne].
    + split_and!.
      * apply list_lookup_insert_eq. by eapply lookup_lt_Some.
      * apply Hiff. congruence.
      * intros k w Hk Hki. rewrite list_lookup_insert_ne in Hk by lia. by eapply Hleast.
    + split_and!.
      * by rewrite list_lookup_insert_ne.
      * done.
      * intros k w Hk Hkj. destruct (decide (k = i)) as [->|Hki].
        -- rewrite list_lookup_insert_eq in Hk by (by eapply lookup_lt_Some).
           injection Hk as <-. intros Hy. apply Hiff in Hy. by eapply (Hleast i x).
        -- rewrite list_lookup_insert_ne in Hk by done. by eapply Hleast.
  - apply list_find_None. apply list_find_None in Hfind.
    rewrite Forall_forall in Hfind. apply Forall_forall. intros w Hw.
    apply list_elem_of_lookup in Hw as [k Hk].
    destruct (decide (k = i)) as [->|Hki].
    + rewrite list_lookup_insert_eq in Hk by (by eapply lookup_lt_Some).
      injection Hk as <-. intros Hy. apply Hiff in Hy.
      apply (Hfind x); [by eapply list_elem_of_lookup_2|done].
    + rewrite list_lookup_insert_ne in Hk by done.
      apply Hfind. by eapply list_elem_of_lookup_2.
Qed.

End FirstMatch.

(** ** The counter [availableSlots] *)

(** The [pre('save')] hook computes the counter of the specification. *)
Lemma pre_save_availableSlots slugify p :
  Parking.availableSlots (Parking.pre_save slugify p)
  = Parking.countAvailableOrReserved (Parking.slots (Parking.pre_save slugify p)).
Proof. reflexivity. Qed.

(** The recount of [calcAvailableSlots] never exceeds it, and is smaller as
    soon as one slot is reserved. *)
Lemma countAvailable_le l :
  (Parking.countAvailable l ≤ Parking.countAvailableOrReserved l)%nat.
Proof.
  unfold Parking.countAvailable, Parking.countAvailableOrReserved.
  induction l as [|x l IH]; simpl; [lia|].
  destruct (bool_decide (Slot.status x = "available")); simpl; [lia|].
  destruct (bool_decide (Slot.status x = "reserved")); simpl; lia.
Qed.

(** The timestamps of [save] change [updatedAt] at most. *)
Lemma touch_cases now p coll :
  Parking.touch now p coll = p ∨ Parking.touch now p coll = Parking.set_updatedAt now p.
Proof.
  unfold Parking.touch. destruct (list_find _ coll) as [[i q]|]; [|by right].
  destruct (decide (p = q)); [by left|by right].
Qed.

Lemma touch_frame now p coll :
  Parking.set_updatedAt 0 (Parking.touch now p coll) = Parking.set_updatedAt 0 p.
Proof. by destruct (touch_cases now p coll) as [-> | ->]. Qed.

(** Where [save] wrote a document, a query by its id finds it. *)
Lemma write_finds p coll :
  ∃ i, list_find (λ q, Parking._id q = Parking._id p) (Parking.write p coll) = Some (i, p).
Proof.
  unfold Parking.write.
  destruct (list_find _ coll) as [[i q]|] eqn:Hfind.
  - exists i. by eapply list_find_insert_same.
  - eexists. rewrite list_find_app_r by done. simpl.
    rewrite decide_True by done. reflexivity.
Qed.

Lemma active_first id coll i p :
  Parking.isActive p = true →
  list_find (λ q, Parking._id q = id) coll = Some (i, p) →
  list_find (λ q, Parking.isActive q ∧ Parking._id q = id) coll = Some (i, p).
Proof.
  intros Hactive (Hi & Hid & Hleast)%list_find_Some.
  apply list_find_Some. split_and!; [done|by rewrite Hactive|done|].
  intros j q Hj Hlt [_ Hq]. by eapply Hleast.
Qed.

(** The first projected count of the aggregation is that of the document
    the update is applied to. *)
Lemma aggregate_first id coll i p :
  list_find (λ q, Parking.isActive q ∧ Parking._id q = id) coll = Some (i, p) →
  ∃ rest, Parking.aggregate_availableSlots id coll
          = Parking.countAvailable (Parking.slots p) :: rest.
Proof.
  unfold Parking.aggregate_availableSlots.
  revert i. induction coll as [|x coll IH]; intros i; [done|].
  simpl. destruct (decide (Parking.isActive x ∧ Parking._id x = id)) as [[Ha Hx]|Hno].
  - intros [= <- <-]. apply Is_true_true in Ha.
    rewrite Ha, bool_decide_eq_true_2 by done. simpl. eauto.
  - destruct (list_find _ coll) as [[j q]|] eqn:Hfind; [|done].
    simpl. intros [= <- <-].
    assert (Parking.isActive x && bool_decide (Parking._id x = id) = false) as ->.
    { apply not_true_iff_false. rewrite andb_true_iff, bool_decide_eq_true.
      intros [Ha Hx]. apply Hno. split; [by apply Is_true_true|done]. }
    by apply (IH j).
Qed.

(** What [save] leaves in the store once the recount has run: for an active
    facility, the counter of the stored document is the number of its
    available slots, whatever the [pre('save')] hook wrote. *)
Lemma save_stores_available_only slugify now p coll :
  Parking.isActive p = true →
  ∃ i, list_find (λ q, Parking._id q = Parking._id p) (Parking.save slugify now p coll).2
       = Some (i, Parking.set_updatedAt now
                    (Parking.set_availableSlots (Parking.countAvailable (Parking.slots p))
                       (Parking.touch now (Parking.pre_save slugify p) coll))).
Proof.
  intros Hactive. unfold Parking.save, Parking.save_written, Parking.post_save,
    Parking.calcAvailableSlots.
  set (p' := Parking.touch now (Parking.pre_save slugify p) coll).
  assert (Parking._id p' = Parking._id p ∧ Parking.isActive p' = true
          ∧ Parking.slots p' = Parking.slots p) as (Hid & Hact' & Hslots).
  { unfold p'. by destruct (touch_cases now (Parking.pre_save slugify p) coll) as [-> | ->]. }
  destruct (write_finds p' coll) as [i Hi]. exists i.
  rewrite Hid in *.
  pose proof (active_first _ _ _ _ Hact' Hi) as Hact.
  destruct (aggregate_first _ _ _ _ Hact) as [rest Hagg].
  cbn [snd]. rewrite Hagg. unfold Parking.findByIdAndUpdate. rewrite Hact, Hslots.
  by eapply list_find_insert_same.
Qed.

(** [updateOne], the way the payment controller changes a slot's status,
    runs no hook: the counter of every facility stays what it was. *)
Lemma updateOne_slot_status_availableSlots now slotId s coll :
  Parking.availableSlots <$> Parking.updateOne_slot_status now slotId s coll
  = Parking.availableSlots <$> coll.
Proof.
  unfold Parking.updateOne_slot_status.
  destruct (list_find _ coll) as [[i p]|] eqn:Hfind; [|done].
  apply list_find_Some in Hfind as (Hi & _).
  rewrite list_fmap_insert. apply list_insert_id.
  by rewrite list_lookup_fmap, Hi.
Qed.

(** C8 on a facility with one reserved and one available slot: the
    [pre('save')] hook writes 2, the number of available or reserved slots;
    the update started by [post('save')] then overwrites the stored counter
    with 1, the number of available slots alone. *)
Theorem save_availableSlots_overwritten (slugify : string → string) (now : Z) :
  Parking.countAvailableOrReserved (Parking.slots parking_1) = 2%nat
  ∧ Parking.availableSlots <$> (Parking.save_written slugify now parking_1 [parking_1]).2
    = [2%nat]
  ∧ Parking.availableSlots <$> (Parking.save slugify now parking_1 [parking_1]).2 = [1%nat].
Proof.
  split; [reflexivity|].
  unfold Parking.save, Parking.save_written.
  destruct (touch_cases now (Parking.pre_save slugify parking_1) [parking_1]) as [-> | ->];
    by split.
Qed.

(** ** What a write through the model reaches *)

(** Decides membership of a field name in a list of names. *)
Ltac field_name :=
  let H := fresh in
  first [ by (apply (bool_decide_unpack _); vm_compute)
        | by (intros H; apply (bool_decide_pack _) in H; vm_compute in H) ].

Lemma set_payment_field_schema field v b :
  field ∈ Booking.payment_paths →
  Booking.set_payment_field field v b
  = Booking.mk (Booking._id b) (Booking.user b) (Booking.parking b) (Booking.slot b)
      (Booking.startTime b) (Booking.endTime b) (Booking.status b)
      (<[field := v]> (Booking.payment b)) (Booking.updatedAt b).
Proof. intros H. unfold Booking.set_payment_field. by rewrite bool_decide_eq_true_2. Qed.

Lemma set_payment_field_dropped field v b :
  field ∉ Booking.payment_paths → Booking.set_payment_field field v b = b.
Proof. intros H. unfold Booking.set_payment_field. by rewrite bool_decide_eq_false_2. Qed.

(** Of the four assignments of [verifyPayment] two reach the document. *)
Lemma verified_eq now paymentId b :
  verified now paymentId b
  = Booking.mk (Booking._id b) (Booking.user b) (Booking.parking b) (Booking.slot b)
      (Booking.startTime b) (Booking.endTime b) "confirmed"
      (<["status" := VString "completed"]> (Booking.payment b)) (Booking.updatedAt b).
Proof.
  unfold verified.
  rewrite (set_payment_field_dropped "paidAt") by field_name.
  rewrite (set_payment_field_dropped "paymentId") by field_name.
  by rewrite (set_payment_field_schema "status") by field_name.
Qed.

(** Of the four paths of the [payment.captured] update two reach it. *)
Lemma captured_update_apply payment b :
  apply_update (captured_update payment) b
  = Booking.mk (Booking._id b) (Booking.user b) (Booking.parking b) (Booking.slot b)
      (Booking.startTime b) (Booking.endTime b) "confirmed"
      (<["status" := VString "completed"]> (Booking.payment b)) (Booking.updatedAt b).
Proof.
  unfold apply_update, captured_update. cbn [fold_left apply_path].
  rewrite (set_payment_field_schema "status") by field_name.
  rewrite (set_payment_field_dropped "paymentId") by field_name.
  by rewrite (set_payment_field_dropped "paidAt") by field_name.
Qed.

(** ... and so do two of the four paths of the [payment.failed] update. *)
Lemma failed_update_apply payment b :
  apply_update (failed_update payment) b
  = Booking.mk (Booking._id b) (Booking.user b) (Booking.parking b) (Booking.slot b)
      (Booking.startTime b) (Booking.endTime b) "cancelled"
      (<["status" := VString "failed"]> (Booking.payment b)) (Booking.updatedAt b).
Proof.
  unfold apply_update, failed_update. cbn [fold_left apply_path].
  rewrite (set_payment_field_schema "status") by field_name.
  rewrite (set_payment_field_dropped "failedAt") by field_name.
  by rewrite (set_payment_field_dropped "error") by field_name.
Qed.

Lemma captured_update_valid payment : runValidators (captured_update payment) = None.
Proof. reflexivity. Qed.

(** ** The webhook endpoint *)

Section WebhookProperties.

Variable hmac_sha256_hex : string → string → string.
Variable RAZORPAY_WEBHOOK_SECRET : string.
Variable JSON_stringify : WebhookBody.t → string.
Variable inspect : ObjectId → string → string.

Local Abbreviation webhook' :=
  (webhook hmac_sha256_hex RAZORPAY_WEBHOOK_SECRET JSON_stringify inspect).

(** A signature that does not match is answered with 400, nothing changes. *)
Lemma webhook_signature_mismatch now signature body st :
  signature ≠ Some (hmac_sha256_hex RAZORPAY_WEBHOOK_SECRET (JSON_stringify body)) →
  webhook' now signature body st
  = (res_json 400 (body_status "error" (Some "Invalid signature")), st).
Proof.
  intros Hne. unfold webhook.
  rewrite bool_decide_eq_false_2; [reflexivity | congruence].
Qed.

(** An event outside the three handled ones is answered with 200; it only
    adds a line to the log. *)
Lemma webhook_unhandled_event now body st :
  WebhookBody.event body ∉ ["payment.captured"; "payment.failed"; "refund.processed"] →
  webhook' now (Some (hmac_sha256_hex RAZORPAY_WEBHOOK_SECRET (JSON_stringify body))) body st
  = (res_json 200 (body_status "success" None),
     logger (log_info ("Unhandled webhook event: " +:+ WebhookBody.event body)) st).
Proof.
  intros Hev. unfold webhook.
  rewrite bool_decide_eq_true_2 by reflexivity. simpl.
  rewrite !not_elem_of_cons in Hev. destruct Hev as (H1 & H2 & H3 & _).
  by rewrite !bool_decide_eq_false_2.
Qed.

(** C9 at a request without the [x-razorpay-signature] header: the
    endpoint answers 400 (the test of the payment API expects 401) and
    leaves the state alone. *)
Theorem webhook_missing_signature_400 (now : Z) (body : WebhookBody.t) (st : State) :
  webhook' now None body st
  = (res_json 400 (body_status "error" (Some "Invalid signature")), st).
Proof. by apply webhook_signature_mismatch. Qed.

(** No request at all is answered with 401. *)
Lemma webhook_never_401 now signature body st data :
  (webhook' now signature body st).1 ≠ res_json 401 data.
Proof.
  unfold webhook. destruct (negb _); [done|].
  repeat case_bool_decide; try destruct (_ ≫= _); done.
Qed.

(** With a good signature the answer is 200, unless the payload lacks the
    object the switch reads. *)
Lemma webhook_signed_response now body st :
  (webhook' now (Some (hmac_sha256_hex RAZORPAY_WEBHOOK_SECRET (JSON_stringify body)))
     body st).1
  = res_json 200 (body_status "success" None)
  ∨ webhook' now (Some (hmac_sha256_hex RAZORPAY_WEBHOOK_SECRET (JSON_stringify body)))
      body st
    = (res_next TypeError, st).
Proof.
  unfold webhook. rewrite bool_decide_eq_true_2 by done. cbn [negb].
  repeat case_bool_decide; try destruct (_ ≫= _); auto.
Qed.

(** A handled event whose payload lacks the object the switch reads is not
    answered with 200: the property access throws before any handler runs. *)
Lemma webhook_missing_payload now st :
  webhook' now
    (Some (hmac_sha256_hex RAZORPAY_WEBHOOK_SECRET
             (JSON_stringify (WebhookBody.mk "payment.captured" None))))
    (WebhookBody.mk "payment.captured" None) st
  = (res_next TypeError, st).
Proof.
  unfold webhook. by rewrite bool_decide_eq_true_2.
Qed.

End WebhookProperties.

(** ** The refund handler *)

(** The update document of [handleRefund] does not pass the validators:
    [refunded] is not in the enum of [status]. *)
Lemma refund_update_rejected refund :
  runValidators (refund_update refund) = Some (ValidationError "status").
Proof. reflexivity. Qed.

(** C5 on every state and every refund entity: [handleRefund] changes no
    booking and no slot; the validation error is caught and logged. *)
Theorem handleRefund_rejected (inspect : ObjectId → string → string) (now : Z)
    (refund : RefundEntity.t) (st : State) :
  handleRefund inspect now (Some refund) st
  = logger (log_error "Error handling refund: " (ValidationError "status")) st
  ∧ bookings (handleRefund inspect now (Some refund) st) = bookings st
  ∧ parkings (handleRefund inspect now (Some refund) st) = parkings st
  ∧ redis (handleRefund inspect now (Some refund) st) = redis st.
Proof.
  unfold handleRefund, findOneAndUpdate.
  rewrite (refund_update_rejected refund). by split_and!.
Qed.

(** In particular a confirmed, paid booking stays confirmed and paid, and
    its slot stays reserved. *)
Example handleRefund_booking_A :
  let st := handleRefund sample_inspect 5000
              (Some (RefundEntity.mk "rfnd_1" "pay_1" "processed" 1700000000)) state_0 in
  bookings st = bookings state_0 ∧ parkings st = parkings state_0
  ∧ Booking.status <$> findById "booking-a" (bookings st) = Some "confirmed"
  ∧ (findById "booking-a" (bookings st) ≫= λ b, Booking.payment b !! "status")
    = Some (VString "completed").
Proof. repeat split. Qed.

(** ** The [payment.failed] handler *)

(** What the handler does to the state when a booking carries the order. *)
Lemma handleFailedPayment_found now payment st i b :
  findOne (payment_field_is "orderId" (PaymentEntity.order_id payment)) (bookings st)
    = Some (i, b) →
  handleFailedPayment now (Some payment) st
  = set_bookings (<[i := failed_at now b]> (bookings st)) st.
Proof.
  intros Hfind. unfold handleFailedPayment, findOneAndUpdate. cbv iota.
  rewrite Hfind. by rewrite failed_update_apply.
Qed.



(** When no booking carries the order nothing changes. *)
Lemma handleFailedPayment_no_match now (payment : PaymentEntity.t) (st : State) :
  findOne (payment_field_is "orderId" (PaymentEntity.order_id payment)) (bookings st) = None →
  handleFailedPayment now (Some payment) st = st.
Proof.
  intros Hfind. unfold handleFailedPayment, findOneAndUpdate. simpl.
  rewrite Hfind. by destruct st.
Qed.

(** The handler never touches a slot. *)
Lemma handleFailedPayment_parkings now payment st :
  parkings (handleFailedPayment now payment st) = parkings st.
Proof.
  unfold handleFailedPayment, findOneAndUpdate. destruct payment as [payment|]; simpl; [|done].
  by destruct (findOne _ _) as [[??]|].
Qed.

(** ** Reading and saving bookings *)

Lemma findById_Some id coll b :
  findById id coll = Some b ↔ ∃ i, list_find (λ x, Booking._id x = id) coll = Some (i, b).
Proof.
  unfold findById. destruct (list_find _ coll) as [[i x]|]; simpl.
  - split; [intros [= ->]; eauto | intros [j [= _ ->]]; done].
  - split; [done | intros [? ?]; done].
Qed.

Lemma findById_id id coll b : findById id coll = Some b → Booking._id b = id.
Proof. intros [i (_ & H & _)%list_find_Some]%findById_Some. exact H. Qed.

Lemma findById_elem_of id coll b : findById id coll = Some b → b ∈ coll.
Proof.
  intros [i (H & _ & _)%list_find_Some]%findById_Some.
  by eapply list_elem_of_lookup_2.
Qed.

(** The document [save()] stores and hands back: the one it was given,
    with [updatedAt] set when it differs from the stored one. *)
Lemma Booking_save_read validate now id coll b b' :
  findById id coll = Some b → Booking._id b' = id → validateSync validate b b' = None →
  ∃ i, coll !! i = Some b
       ∧ Booking_save validate now b' coll
         = inr (if decide (b' = b) then b' else Booking.set_updatedAt now b',
                <[i := if decide (b' = b) then b' else Booking.set_updatedAt now b']> coll)
       ∧ findById id (<[i := if decide (b' = b) then b' else Booking.set_updatedAt now b']> coll)
         = Some (if decide (b' = b) then b' else Booking.set_updatedAt now b').
Proof.
  intros [i Hfind]%findById_Some Hid Hval. exists i. split_and!.
  - by apply list_find_Some in Hfind as (? & _).
  - unfold Booking_save. rewrite Hid, Hfind, Hval. reflexivity.
  - apply findById_Some. exists i. eapply list_find_insert_same; [exact Hfind|].
    by destruct (decide _).
Qed.

Lemma Booking_save_rejected validate now id coll b b' err :
  findById id coll = Some b → Booking._id b' = id → validateSync validate b b' = Some err →
  Booking_save validate now b' coll = inl err.
Proof.
  intros [i Hfind]%findById_Some Hid Hval.
  unfold Booking_save. by rewrite Hid, Hfind, Hval.
Qed.

(** A document without [payment.method] does not pass the validation of
    [save()], unless a changed [status] outside the enum fails before. *)
Lemma validateSync_required_method validate b0 b :
  Booking.payment b !! "method" = None → Booking.status b = Booking.status b0 →
  validateSync validate b0 b = Some (ValidationError "payment.method").
Proof.
  intros Hmethod Hstatus. unfold validateSync.
  rewrite (bool_decide_eq_true_2 _ Hstatus). cbn [negb andb].
  rewrite bool_decide_eq_false_2; [done|].
  rewrite Hmethod. by intros [? ?].
Qed.



(** ** The authorization test *)

Lemma not_authorized_admin user_populated b u :
  user_populated (Booking.user b) = true → User.role u = "admin" →
  not_authorized user_populated b u = inr false.
Proof.
  intros Hp Hr. unfold not_authorized. rewrite Hp.
  by rewrite (bool_decide_eq_true_2 _ Hr).
Qed.

(** Whoever is not an admin is refused, the user of the booking included. *)
Lemma not_authorized_other user_populated b u :
  user_populated (Booking.user b) = true → User.role u ≠ "admin" →
  not_authorized user_populated b u = inr true.
Proof.
  intros Hp Hr. unfold not_authorized. rewrite Hp.
  by rewrite (bool_decide_eq_false_2 _ Hr).
Qed.

Lemma not_authorized_passed user_populated b u :
  not_authorized user_populated b u = inr false →
  user_populated (Booking.user b) = true ∧ User.role u = "admin".
Proof.
  unfold not_authorized. destruct (user_populated _); [|done].
  case_bool_decide; [done|]. simpl. discriminate.
Qed.

(** ** [verifyPayment] *)

Section VerifyProperties.

Variable hmac_sha256_hex : string → string → string.
Variable RAZORPAY_KEY_SECRET : string.
Variable validate : ObjectId → bool.
Variable castObjectId : string → bool.
Variable user_populated : ObjectId → bool.
Variable inspect : ObjectId → string → string.

Local Abbreviation verifyPayment' :=
  (verifyPayment hmac_sha256_hex RAZORPAY_KEY_SECRET validate castObjectId
     user_populated inspect).

(** The signature the server computes for a request. *)
Local Abbreviation expected req :=
  (hmac_sha256_hex RAZORPAY_KEY_SECRET
     (VerifyRequest.orderId req +:+ "|" +:+ VerifyRequest.paymentId req)).

(** The document [save()] hands back to [verifyPayment]. *)
Local Abbreviation saved now req booking :=
  (if decide (verified now (VerifyRequest.paymentId req) booking = booking)
   then verified now (VerifyRequest.paymentId req) booking
   else Booking.set_updatedAt now (verified now (VerifyRequest.paymentId req) booking)).

(** A caller who is not an admin is refused as soon as the booking is
    found, before the signature is looked at. *)
Lemma verifyPayment_refused now req st booking :
  castObjectId (VerifyRequest.bookingId req) = true →
  findById (VerifyRequest.bookingId req) (bookings st) = Some booking →
  user_populated (Booking.user booking) = true →
  User.role (VerifyRequest.user req) ≠ "admin" →
  verifyPayment' now req st
  = (res_next (AppError "You are not authorized to verify this payment" 403), st).
Proof.
  intros Hcast Hfind Hpop Hrole. unfold verifyPayment, Booking_findById.
  by rewrite Hcast, Hfind, (not_authorized_other _ _ _ Hpop Hrole).
Qed.

Lemma verifyPayment_mismatch now req st booking :
  castObjectId (VerifyRequest.bookingId req) = true →
  findById (VerifyRequest.bookingId req) (bookings st) = Some booking →
  not_authorized user_populated booking (VerifyRequest.user req) = inr false →
  expected req ≠ VerifyRequest.signature req →
  verifyPayment' now req st = (res_next (AppError "Invalid payment signature" 400), st).
Proof.
  intros Hcast Hfind Hauth Hsig. unfold verifyPayment, Booking_findById.
  rewrite Hcast, Hfind, Hauth. by rewrite bool_decide_eq_false_2.
Qed.

(** What a request with a good signature does, step by step. *)
Lemma verifyPayment_match now req st booking :
  castObjectId (VerifyRequest.bookingId req) = true →
  findById (VerifyRequest.bookingId req) (bookings st) = Some booking →
  not_authorized user_populated booking (VerifyRequest.user req) = inr false →
  expected req = VerifyRequest.signature req →
  validateSync validate booking (verified now (VerifyRequest.paymentId req) booking) = None →
  ∃ i, bookings st !! i = Some booking ∧
    let b' := saved now req booking in
    let st' :=
      set_parkings
        (Parking.updateOne_slot_status now (Booking.slot booking) "reserved" (parkings st))
        (set_bookings (<[i := b']> (bookings st)) st) in
    findById (VerifyRequest.bookingId req) (<[i := b']> (bookings st)) = Some b'
    ∧ verifyPayment' now req st
      = match redis st with
        | Some keys =>
            (res_json 200 (body_booking (Some "Payment verified and booking confirmed") b'),
             set_redis
               (Some (keys ∖ {[ availability_key (parking_text inspect booking st) ]})) st')
        | None => (res_next RedisNotInitialized, st')
        end.
Proof.
  intros Hcast Hfind Hauth Hsig Hval.
  destruct (Booking_save_read validate now _ _ _ _ Hfind
              (findById_id _ _ _ Hfind
                 : Booking._id (verified now (VerifyRequest.paymentId req) booking) = _)
              Hval) as (i & Hi & Hsave & Hread).
  exists i. split; [done|]. cbv zeta. split; [done|].
  unfold verifyPayment, Booking_findById. rewrite Hcast, Hfind, Hauth.
  rewrite bool_decide_eq_true_2 by done. cbn [negb].
  unfold verified in Hsave. rewrite Hsave.
  unfold redis_del. cbn [redis set_parkings set_bookings].
  assert (Booking.slot (saved now req booking) = Booking.slot booking) as Hslot
    by (by destruct (decide _)).
  unfold verified in Hslot. rewrite Hslot.
  by destruct (redis st).
Qed.

Lemma verifyPayment_not_saved now req st booking err :
  castObjectId (VerifyRequest.bookingId req) = true →
  findById (VerifyRequest.bookingId req) (bookings st) = Some booking →
  not_authorized user_populated booking (VerifyRequest.user req) = inr false →
  expected req = VerifyRequest.signature req →
  validateSync validate booking (verified now (VerifyRequest.paymentId req) booking)
    = Some err →
  verifyPayment' now req st = (res_next err, st).
Proof.
  intros Hcast Hfind Hauth Hsig Hval. unfold verifyPayment, Booking_findById.
  rewrite Hcast, Hfind, Hauth.
  rewrite bool_decide_eq_true_2 by done. cbn [negb].
  pose proof (Booking_save_rejected validate now _ _ _ _ _ Hfind
                (findById_id _ _ _ Hfind
                   : Booking._id (verified now (VerifyRequest.paymentId req) booking) = _)
                Hval) as Hsave.
  unfold verified in Hsave. by rewrite Hsave.
Qed.

(** The validation of [save()] answers with a validation error or not at
    all. *)
Lemma validateSync_error b0 b err :
  validateSync validate b0 b = Some err → ∃ path, err = ValidationError path.
Proof. unfold validateSync. repeat case_match; intros [= <-]; eauto. Qed.

(** C3.  For a booking that is found with its user, [verifyPayment] does
    what the claim says once the caller has passed the authorization test,
    which an admin does and nobody else: it fails with the
    invalid-signature error exactly when the HMAC it computes over
    [orderId|paymentId] differs from the signature of the request, and then
    nothing is written; when they agree (and the save goes through) the
    stored booking has [status = confirmed] and [payment.status =
    completed].  A caller who is not an admin, the user of the booking
    included, is answered 403 whatever the signature, and nothing is
    written. *)
Theorem verifyPayment_signature (now : Z) (req : VerifyRequest.t) (st : State)
    (booking : Booking.t) :
  castObjectId (VerifyRequest.bookingId req) = true →
  findById (VerifyRequest.bookingId req) (bookings st) = Some booking →
  user_populated (Booking.user booking) = true →
  (User.role (VerifyRequest.user req) ≠ "admin" →
     verifyPayment' now req st
     = (res_next (AppError "You are not authorized to verify this payment" 403), st))
  ∧ (User.role (VerifyRequest.user req) = "admin" →
     ((verifyPayment' now req st).1 = res_next (AppError "Invalid payment signature" 400)
        ↔ expected req ≠ VerifyRequest.signature req)
     ∧ (expected req ≠ VerifyRequest.signature req → (verifyPayment' now req st).2 = st)
     ∧ (expected req = VerifyRequest.signature req →
        validateSync validate booking (verified now (VerifyRequest.paymentId req) booking)
          = None →
        ∃ b', findById (VerifyRequest.bookingId req)
                (bookings (verifyPayment' now req st).2) = Some b'
              ∧ Booking.status b' = "confirmed"
              ∧ Booking.payment b' !! "status" = Some (VString "completed"))).
Proof.
  intros Hcast Hfind Hpop. split; [by apply (verifyPayment_refused now req st booking)|].
  intros Hadmin.
  pose proof (not_authorized_admin user_populated booking _ Hpop Hadmin) as Hauth.
  split_and!.
  - split.
    + intros Hres Hsig.
      destruct (validateSync validate booking
                  (verified now (VerifyRequest.paymentId req) booking)) as [err|] eqn:Hval.
      * rewrite (verifyPayment_not_saved now req st booking err Hcast Hfind Hauth Hsig Hval)
          in Hres.
        apply validateSync_error in Hval as [path ->]. discriminate Hres.
      * destruct (verifyPayment_match now req st booking Hcast Hfind Hauth Hsig Hval)
          as (i & _ & _ & Heq).
        rewrite Heq in Hres. by destruct (redis st).
    + intros Hsig. by rewrite (verifyPayment_mismatch now req st booking).
  - intros Hsig. by rewrite (verifyPayment_mismatch now req st booking).
  - intros Hsig Hval.
    destruct (verifyPayment_match now req st booking Hcast Hfind Hauth Hsig Hval)
      as (i & _ & Hread & Heq).
    exists (saved now req booking).
    split; [|split].
    + rewrite Heq. by destruct (redis st).
    + rewrite verified_eq. by destruct (decide _).
    + rewrite verified_eq. destruct (decide _); cbn [Booking.payment Booking.set_updatedAt];
        by rewrite lookup_insert_eq.
Qed.

End VerifyProperties.

(** The theorem on the sample state.  The user of the pending booking
    sends the well-signed confirmation and is answered 403, the booking
    still pending; an admin sends the same and the booking is confirmed. *)
Lemma verifyPayment_signature_witness :
  (sample_verifyPayment 1000 verify_request_owner state_0
   = (res_next (AppError "You are not authorized to verify this payment" 403), state_0))
  ∧ ∃ b',
      findById "booking-p" (bookings (sample_verifyPayment 1000 verify_request_P state_0).2)
        = Some b'
      ∧ Booking.status b' = "confirmed"
      ∧ Booking.payment b' !! "status" = Some (VString "completed").
Proof.
  assert (findById "booking-p" (bookings state_0) = Some booking_P) as Hfind
    by (vm_compute; reflexivity).
  split.
  - apply (proj1 (verifyPayment_signature sample_hmac "key-secret" no_validation
                    sample_castObjectId sample_user_populated sample_inspect
                    1000 verify_request_owner state_0 booking_P eq_refl Hfind eq_refl)).
    intros H; vm_compute in H; discriminate H.
  - apply (proj2 (proj2 (proj2 (verifyPayment_signature sample_hmac "key-secret"
                    no_validation sample_castObjectId sample_user_populated sample_inspect
                    1000 verify_request_P state_0 booking_P eq_refl Hfind eq_refl)
                    eq_refl))); vm_compute; reflexivity.
Defined.

(** The user of the booking is refused with a wrong signature as well: the
    answer is the 403, not the invalid-signature error. *)
Example verifyPayment_owner_wrong_signature :
  sample_verifyPayment 1000
    (VerifyRequest.mk "order_2" "pay_2" "forged" "booking-p" owner_1) state_0
  = (res_next (AppError "You are not authorized to verify this payment" 403), state_0).
Proof. vm_compute; reflexivity. Qed.
(** ** [createPaymentOrder] *)

Section CreateOrderProperties.

Variable razorpay_orders_create : OrderOptions.t → option Order.t.
Variable validate : ObjectId → bool.
Variable castObjectId : string → bool.
Variable user_populated : ObjectId → bool.

Local Abbreviation createPaymentOrder' :=
  (createPaymentOrder razorpay_orders_create validate castObjectId user_populated).

(** The options object of step 4. *)
Local Abbreviation options req booking :=
  (OrderOptions.mk (CreateOrderRequest.amount req * 100)
     (default "INR" (CreateOrderRequest.currency req))
     ("booking_" +:+ Booking._id booking) 1
     (Booking._id booking) (User.id (CreateOrderRequest.user req))).

(** The object step 5 assigns to [booking.payment]. *)
Local Abbreviation order_payment req order :=
  ({[ "orderId" := VString (Order.id order);
      "status" := VString "pending";
      "amount" := VNumber (CreateOrderRequest.amount req);
      "currency" := VString (default "INR" (CreateOrderRequest.currency req)) ]}
   : gmap string Value).

(** Of the four fields of that object one is a path of the schema: the
    document keeps [payment.status] and nothing else, so the required
    [payment.method] is gone. *)
Lemma set_payment_order req order b :
  Booking.payment (Booking.set_payment (order_payment req order) b)
  = {[ "status" := VString "pending" ]}.
Proof.
  cbn [Booking.set_payment Booking.payment].
  apply map_eq. intros k. apply option_eq. intros v.
  rewrite map_lookup_filter_Some. cbn [fst].
  destruct (decide (k = "status")) as [->|Hne].
  - rewrite lookup_singleton_eq. split.
    + intros [H _]. by simplify_map_eq.
    + intros [= <-]. split; [by simplify_map_eq | field_name].
  - rewrite lookup_singleton_ne by done. split; [|done].
    intros [Hk Hin]. exfalso.
    unfold Booking.payment_paths in Hin. rewrite !elem_of_cons in Hin.
    destruct Hin as [->|[->|[->|[->|[->|Hin]]]]];
      [by simplify_map_eq|done|by simplify_map_eq..|by apply elem_of_nil in Hin].
Qed.

(** ... and [save()] rejects it. *)
Lemma createPaymentOrder_save_rejected now req order booking coll :
  findById (Booking._id booking) coll = Some booking →
  Booking_save validate now (Booking.set_payment (order_payment req order) booking) coll
  = inl (ValidationError "payment.method").
Proof.
  intros Hfind.
  eapply Booking_save_rejected; [exact Hfind|reflexivity|].
  apply validateSync_required_method; [|reflexivity].
  rewrite set_payment_order. by rewrite lookup_singleton_ne.
Qed.

(** Every answer is an error handed to [next]. *)
Lemma createPaymentOrder_error now req st :
  ∃ err, (createPaymentOrder' now req st).1 = res_next err.
Proof.
  unfold createPaymentOrder, Booking_findById.
  destruct (castObjectId _); [|eauto].
  destruct (findById _ (bookings st)) as [booking|] eqn:Hfind; [|eauto].
  destruct (not_authorized _ _ _) as [err|[|]]; [eauto..|].
  destruct (negb _); [eauto|].
  destruct (razorpay_orders_create _) as [order|]; [|eauto].
  pose proof (findById_id _ _ _ Hfind) as Hid. rewrite <- Hid in Hfind.
  rewrite (createPaymentOrder_save_rejected now req order booking _ Hfind). eauto.
Qed.

(** No call writes a booking, a slot or the cache. *)
Lemma createPaymentOrder_stores now req st :
  stores (createPaymentOrder' now req st).2 = stores st.
Proof.
  unfold createPaymentOrder, Booking_findById.
  destruct (castObjectId _); [|done].
  destruct (findById _ (bookings st)) as [booking|] eqn:Hfind; [|done].
  destruct (not_authorized _ _ _) as [err|[|]]; [done..|].
  destruct (negb _); [done|].
  destruct (razorpay_orders_create _) as [order|]; [|done].
  pose proof (findById_id _ _ _ Hfind) as Hid. rewrite <- Hid in Hfind.
  by rewrite (createPaymentOrder_save_rejected now req order booking _ Hfind).
Qed.

(** A call that passes the three checks and gets its order from the
    gateway ends in the [catch]. *)
Lemma createPaymentOrder_caught now req st booking order :
  castObjectId (CreateOrderRequest.bookingId req) = true →
  findById (CreateOrderRequest.bookingId req) (bookings st) = Some booking →
  not_authorized user_populated booking (CreateOrderRequest.user req) = inr false →
  Booking.status booking = "pending" →
  razorpay_orders_create (options req booking) = Some order →
  createPaymentOrder' now req st
  = (res_next (AppError "Error creating payment order. Please try again." 500),
     logger (log_error "Razorpay order creation error: " (ValidationError "payment.method"))
       st).
Proof.
  intros Hcast Hfind Hauth Hstatus Horder. unfold createPaymentOrder, Booking_findById.
  rewrite Hcast, Hfind, Hauth. rewrite (bool_decide_eq_true_2 _ Hstatus). cbn [negb].
  rewrite Horder.
  pose proof (findById_id _ _ _ Hfind) as Hid. rewrite <- Hid in Hfind.
  by rewrite (createPaymentOrder_save_rejected now req order booking _ Hfind).
Qed.

(** C10 on the code.  No call of [createPaymentOrder] is a successful one:
    every call ends in an error handed to [next], and none writes a
    booking, a slot or the cache.  A call that passes the three checks and
    gets its order from the gateway assigns the object of the claim to
    [booking.payment]; the document keeps [status: 'pending'] of it and
    nothing else ([orderId], [amount] and [currency] are no paths of the
    schema), [save()] rejects the document for its missing
    [payment.method], and the [catch] answers 500. *)
Theorem createPaymentOrder_never_saved (now : Z) (req : CreateOrderRequest.t) (st : State) :
  (∃ err, (createPaymentOrder' now req st).1 = res_next err)
  ∧ stores (createPaymentOrder' now req st).2 = stores st
  ∧ (∀ booking order,
       castObjectId (CreateOrderRequest.bookingId req) = true →
       findById (CreateOrderRequest.bookingId req) (bookings st) = Some booking →
       not_authorized user_populated booking (CreateOrderRequest.user req) = inr false →
       Booking.status booking = "pending" →
       razorpay_orders_create (options req booking) = Some order →
       Booking.payment (Booking.set_payment (order_payment req order) booking)
         = {[ "status" := VString "pending" ]}
       ∧ createPaymentOrder' now req st
         = (res_next (AppError "Error creating payment order. Please try again." 500),
            logger (log_error "Razorpay order creation error: "
                      (ValidationError "payment.method")) st)).
Proof.
  split_and!.
  - apply createPaymentOrder_error.
  - apply createPaymentOrder_stores.
  - intros booking order Hcast Hfind Hauth Hstatus Horder. split.
    + apply set_payment_order.
    + by apply (createPaymentOrder_caught now req st booking order).
Qed.

End CreateOrderProperties.

(** The theorem on the sample state: an admin asks for an order for the
    pending booking, whose [payment] holds [method: 'card']; the gateway
    answers with an order; the call is answered 500 and the booking is as it
    was. *)
Lemma createPaymentOrder_never_saved_witness :
  createPaymentOrder sample_gateway no_validation sample_castObjectId sample_user_populated
    1000 create_order_request_P state_0
  = (res_next (AppError "Error creating payment order. Please try again." 500),
     logger (log_error "Razorpay order creation error: " (ValidationError "payment.method"))
       state_0)
  ∧ findById "booking-p" (bookings state_0) = Some booking_P
  ∧ Booking.payment booking_P !! "method" = Some (VString "card").
Proof.
  assert (findById "booking-p" (bookings state_0) = Some booking_P) as Hfind
    by (vm_compute; reflexivity).
  split; [|split; [exact Hfind | vm_compute; reflexivity]].
  exact (proj2 (proj2 (proj2 (createPaymentOrder_never_saved sample_gateway no_validation
                  sample_castObjectId sample_user_populated 1000 create_order_request_P
                  state_0))
                  booking_P (Order.mk "order_9") eq_refl Hfind eq_refl eq_refl eq_refl)).
Defined.

(** The user of the booking, the caller the handler is written for, does
    not get that far: the authorization test refuses the request. *)
Example createPaymentOrder_owner :
  createPaymentOrder sample_gateway no_validation sample_castObjectId sample_user_populated
    1000 (CreateOrderRequest.mk "booking-p" 50 None owner_1) state_0
  = (res_next (AppError "You are not authorized to pay for this booking" 403), state_0).
Proof. vm_compute; reflexivity. Qed.

(** ** What each operation writes to the booking collection *)

Lemma rewrites_one_Forall (P Q : Booking.t → Prop) coll coll' :
  rewrites_one P coll coll' → (∀ b, P b → Q b) → Forall Q coll → Forall Q coll'.
Proof.
  intros [->|(i & b' & Hb' & ->)] HPQ Hall; [done|].
  apply Forall_insert; auto.
Qed.

Lemma Booking_save_rewrites validate now (P : Booking.t → Prop) b b' coll coll' :
  P b → P (Booking.set_updatedAt now b) →
  Booking_save validate now b coll = inr (b', coll') → rewrites_one P coll coll'.
Proof.
  intros HP HP'. unfold Booking_save.
  destruct (list_find _ coll) as [[i b0]|]; [|intros [= _ <-]; by left].
  destruct (validateSync _ _ _); [done|].
  intros [= _ <-]. right. exists i. eexists. split; [|reflexivity].
  by destruct (decide _).
Qed.

Lemma findOneAndUpdate_rewrites now (P : Booking.t → Prop) filter u validators coll r coll' :
  (∀ b, P (Booking.set_updatedAt now (apply_update u b))) →
  findOneAndUpdate now filter u validators coll = inr (r, coll') → rewrites_one P coll coll'.
Proof.
  intros HP. unfold findOneAndUpdate.
  destruct (if validators then runValidators u else None); [done|].
  destruct (findOne filter coll) as [[i b]|]; intros [= <- <-]; [right; eauto | by left].
Qed.

Lemma verifyPayment_rewrites hmac key validate cast populated inspect now req st :
  rewrites_one (λ b, Booking.status b = "confirmed")
    (bookings st)
    (bookings (verifyPayment hmac key validate cast populated inspect now req st).2).
Proof.
  unfold verifyPayment, Booking_findById.
  destruct (cast _); [|by left].
  destruct (findById _ _) as [booking|]; [|by left].
  destruct (not_authorized _ _ _) as [err|[|]]; [by left..|].
  destruct (negb _); [by left|].
  destruct (Booking_save _ _ _ _) as [err|[b' coll]] eqn:Hsave; [by left|].
  eapply (Booking_save_rewrites _ _ (λ b, Booking.status b = "confirmed")) in Hsave.
  - unfold redis_del. cbn [redis set_parkings set_bookings]. by destruct (redis st).
  - rewrite <- (verified_eq now (VerifyRequest.paymentId req) booking) at 1.
    unfold verified. reflexivity.
  - cbn [Booking.set_updatedAt Booking.status].
    change (Booking.status (verified now (VerifyRequest.paymentId req) booking) = "confirmed").
    by rewrite verified_eq.
Qed.

Lemma handleSuccessfulPayment_rewrites inspect now payment st :
  rewrites_one (λ b, Booking.status b = "confirmed")
    (bookings st) (bookings (handleSuccessfulPayment inspect now payment st)).
Proof.
  unfold handleSuccessfulPayment. destruct payment as [payment|]; [|by left].
  destruct (findOneAndUpdate _ _ _ _ _) as [err|[[b|] coll]] eqn:Hupd; [by left| |by left].
  eapply (findOneAndUpdate_rewrites _ (λ b, Booking.status b = "confirmed")) in Hupd;
    [|intros b0; by rewrite captured_update_apply].
  unfold redis_del. cbn [redis set_parkings set_bookings].
  by destruct (redis st).
Qed.

Lemma handleFailedPayment_rewrites now payment st :
  rewrites_one (λ b, Booking.payment b !! "status" = Some (VString "failed"))
    (bookings st) (bookings (handleFailedPayment now payment st)).
Proof.
  unfold handleFailedPayment. destruct payment as [payment|]; [|by left].
  destruct (findOneAndUpdate _ _ _ _ _) as [err|[r coll]] eqn:Hupd; [by left|].
  eapply (findOneAndUpdate_rewrites _
            (λ b, Booking.payment b !! "status" = Some (VString "failed"))) in Hupd;
    [exact Hupd|].
  intros b0. rewrite failed_update_apply. cbn [Booking.set_updatedAt Booking.payment].
  by rewrite lookup_insert_eq.
Qed.

Lemma handleRefund_bookings inspect now refund st :
  bookings (handleRefund inspect now refund st) = bookings st.
Proof. by destruct refund. Qed.

Lemma set_payment_field_status field v b :
  Booking.status (Booking.set_payment_field field v b) = Booking.status b.
Proof. unfold Booking.set_payment_field. by case_bool_decide. Qed.

Lemma updateBooking_rewrites validate cast now id status st :
  rewrites_one (λ b, Booking.status b = status)
    (bookings st) (bookings (updateBooking validate cast now id status st).2).
Proof.
  unfold updateBooking, Booking_findById.
  destruct (cast _); [|by left].
  destruct (findById _ _) as [booking|]; [|by left].
  destruct (Booking_save _ _ _ _) as [err|[b' coll]] eqn:Hsave; [by left|].
  eapply (Booking_save_rewrites _ _ (λ b, Booking.status b = status)) in Hsave;
    [exact Hsave| |].
  - destruct (_ && _); [|done]. by rewrite !set_payment_field_status.
  - cbn [Booking.set_updatedAt Booking.status].
    destruct (_ && _); [|done]. by rewrite !set_payment_field_status.
Qed.

(** ** The payment invariant *)

Section InvariantProperties.

Variable hmac_sha256_hex : string → string → string.
Variable RAZORPAY_KEY_SECRET RAZORPAY_WEBHOOK_SECRET : string.
Variable JSON_stringify : WebhookBody.t → string.
Variable razorpay_orders_create : OrderOptions.t → option Order.t.
Variable validate : ObjectId → bool.
Variable castObjectId : string → bool.
Variable user_populated : ObjectId → bool.
Variable inspect : ObjectId → string → string.

Local Abbreviation perform' :=
  (perform hmac_sha256_hex RAZORPAY_KEY_SECRET RAZORPAY_WEBHOOK_SECRET JSON_stringify
     razorpay_orders_create validate castObjectId user_populated inspect).
Local Abbreviation perform_all' :=
  (perform_all hmac_sha256_hex RAZORPAY_KEY_SECRET RAZORPAY_WEBHOOK_SECRET JSON_stringify
     razorpay_orders_create validate castObjectId user_populated inspect).

Lemma webhook_payment_invariant now signature body st :
  payment_invariant st →
  payment_invariant
    (webhook hmac_sha256_hex RAZORPAY_WEBHOOK_SECRET JSON_stringify inspect
       now signature body st).2.
Proof.
  unfold payment_invariant, webhook. intros Hinv.
  destruct (negb _); [done|].
  repeat case_bool_decide; try destruct (_ ≫= _) as [entity|]; simpl; try done.
  - eapply rewrites_one_Forall; [apply handleSuccessfulPayment_rewrites| |done].
    intros b Hb _. by left.
  - eapply rewrites_one_Forall; [apply handleFailedPayment_rewrites| |done].
    intros b Hb Hc. congruence.
  - by rewrite handleRefund_bookings.
Qed.

(** One operation: order creation, [verifyPayment] and the webhook with each
    of its handlers keep the invariant; the admin update keeps it when the
    status it writes is [confirmed] or [completed]. *)
Lemma payment_invariant_step o st :
  writes_confirmed o → payment_invariant st → payment_invariant (perform' o st).
Proof.
  intros Ho Hinv. destruct o as [now req|now req|now signature body|now id status];
    cbn [perform].
  - unfold payment_invariant.
    pose proof (createPaymentOrder_stores razorpay_orders_create validate castObjectId
                  user_populated now req st) as Hst.
    unfold stores in Hst. injection Hst as -> _ _. exact Hinv.
  - eapply rewrites_one_Forall; [apply verifyPayment_rewrites| |exact Hinv].
    intros b Hb _. by left.
  - by apply webhook_payment_invariant.
  - eapply rewrites_one_Forall; [apply updateBooking_rewrites| |exact Hinv].
    intros b Hb _. simpl in Ho. by rewrite Hb.
Qed.

(** C4, as the code has it.  From a state in which every booking with a
    completed payment is confirmed or completed, every state reached by
    order creations, [verifyPayment], webhook deliveries (whatever the
    event) and admin updates that write [confirmed] or [completed] is such a
    state again.  (An admin update that writes another status is outside
    this: it leaves [payment.status] as it is.) *)
Theorem payment_invariant_reachable (ops : list Operation) (st : State) :
  payment_invariant st →
  Forall writes_confirmed ops →
  payment_invariant (perform_all' ops st).
Proof.
  intros Hinv Hops. revert st Hinv.
  induction Hops as [|o ops Ho Hops IH]; intros st Hinv; [done|].
  simpl. apply IH. by apply payment_invariant_step.
Qed.

End InvariantProperties.

Lemma state_0_payment_invariant : payment_invariant state_0.
Proof.
  unfold payment_invariant, state_0; simpl.
  apply Forall_cons; split; [|apply Forall_cons; split; [|apply Forall_nil_2]].
  - intros _. by left.
  - intros H. vm_compute in H. discriminate H.
Qed.

(** The theorem on the sample state, which satisfies the invariant: an
    order, its confirmation, the webhook for it and an admin update that
    completes the other booking. *)
Lemma payment_invariant_reachable_witness :
  payment_invariant state_0
  ∧ Forall writes_confirmed
      [ op_createPaymentOrder 500 create_order_request_P;
        op_verifyPayment 1000 verify_request_P;
        op_webhook 1500 (Some (sample_hmac "webhook-secret" "payment.captured"))
          captured_order_2;
        op_updateBooking 2000 "booking-a" "completed" ]
  ∧ payment_invariant
      (perform_all sample_hmac "key-secret" "webhook-secret" sample_stringify
         sample_gateway no_validation sample_castObjectId sample_user_populated
         sample_inspect
         [ op_createPaymentOrder 500 create_order_request_P;
           op_verifyPayment 1000 verify_request_P;
           op_webhook 1500 (Some (sample_hmac "webhook-secret" "payment.captured"))
             captured_order_2;
           op_updateBooking 2000 "booking-a" "completed" ]
         state_0).
Proof.
  pose proof state_0_payment_invariant as Hinv.
  assert (Forall writes_confirmed
            [ op_createPaymentOrder 500 create_order_request_P;
              op_verifyPayment 1000 verify_request_P;
              op_webhook 1500 (Some (sample_hmac "webhook-secret" "payment.captured"))
                captured_order_2;
              op_updateBooking 2000 "booking-a" "completed" ]) as Hops.
  { repeat apply Forall_cons_2; try exact I; [by right | apply Forall_nil_2]. }
  split; [exact Hinv|]. split; [exact Hops|].
  exact (payment_invariant_reachable sample_hmac "key-secret" "webhook-secret"
           sample_stringify sample_gateway no_validation sample_castObjectId
           sample_user_populated sample_inspect _ state_0 Hinv Hops).
Defined.

(** C4 as stated fails: the admin update that cancels the paid booking A
    leaves its payment completed, so a state in which the invariant does not
    hold is reached from one in which it holds. *)
Lemma updateBooking_cancel_paid_counterexample :
  payment_invariant state_0
  ∧ (let st' := perform_all sample_hmac "key-secret" "webhook-secret" sample_stringify
                  sample_gateway no_validation sample_castObjectId sample_user_populated
                  sample_inspect
                  [ op_updateBooking 1000 "booking-a" "cancelled" ] state_0 in
     (∃ b, findById "booking-a" (bookings st') = Some b
           ∧ Booking.payment b !! "status" = Some (VString "completed")
           ∧ Booking.status b = "cancelled")
     ∧ ¬ payment_invariant st').
Proof.
  split; [apply state_0_payment_invariant|]. split.
  - eexists. split; [vm_compute; reflexivity|]. split; vm_compute; reflexivity.
  - intros Hinv. apply Forall_cons in Hinv as [Ha _].
    destruct Ha as [H|H]; [vm_compute; reflexivity| |]; discriminate H.
Qed.
(** ** Writing the same thing twice *)

Lemma set_slot_status_ids slotId s l :
  Slot._id <$> Parking.set_slot_status slotId s l = Slot._id <$> l.
Proof.
  unfold Parking.set_slot_status.
  destruct (list_find _ l) as [[j x]|] eqn:Hfind; [|done].
  apply list_find_Some in Hfind as (Hj & _ & _).
  rewrite list_fmap_insert. simpl. apply list_insert_id.
  by rewrite list_lookup_fmap, Hj.
Qed.

Lemma has_slot_ids slotId (l : list Slot.t) :
  Exists (λ x, Slot._id x = slotId) l ↔ slotId ∈ Slot._id <$> l.
Proof.
  rewrite Exists_exists, list_elem_of_fmap. split.
  - intros (x & Hx & <-). eauto.
  - intros (x & -> & Hx). eauto.
Qed.








Lemma captured_update_orderId now orderId b :
  payment_field_is "orderId" orderId (confirmed_at now b)
  = payment_field_is "orderId" orderId b.
Proof.
  unfold payment_field_is, confirmed_at. simpl. by rewrite lookup_insert_ne.
Qed.




(** ** Replaying a confirmation *)

Section ReplayProperties.

Variable hmac_sha256_hex : string → string → string.
Variable RAZORPAY_KEY_SECRET RAZORPAY_WEBHOOK_SECRET : string.
Variable JSON_stringify : WebhookBody.t → string.
Variable validate : ObjectId → bool.
Variable castObjectId : string → bool.
Variable user_populated : ObjectId → bool.
Variable inspect : ObjectId → string → string.

Local Abbreviation verifyPayment' :=
  (verifyPayment hmac_sha256_hex RAZORPAY_KEY_SECRET validate castObjectId
     user_populated inspect).
Local Abbreviation webhook' :=
  (webhook hmac_sha256_hex RAZORPAY_WEBHOOK_SECRET JSON_stringify inspect).
Local Abbreviation handleSuccessfulPayment' := (handleSuccessfulPayment inspect).
Local Abbreviation signed body :=
  (Some (hmac_sha256_hex RAZORPAY_WEBHOOK_SECRET (JSON_stringify body))).
Local Abbreviation captured_body payment refund :=
  (WebhookBody.mk "payment.captured"
     (Some (WebhookBody.mk_payload (Some (Some payment)) refund))).
Local Abbreviation confirmed_message := (Some "Payment verified and booking confirmed").




(** What the handler does to the three stores when a booking carries the
    order. *)
Lemma handleSuccessfulPayment_found now payment st i b :
  findOne (payment_field_is "orderId" (PaymentEntity.order_id payment)) (bookings st)
    = Some (i, b) →
  bookings (handleSuccessfulPayment' now (Some payment) st)
    = <[i := confirmed_at now b]> (bookings st)
  ∧ parkings (handleSuccessfulPayment' now (Some payment) st)
    = Parking.updateOne_slot_status now (Booking.slot b) "reserved" (parkings st)
  ∧ redis (handleSuccessfulPayment' now (Some payment) st)
    = (λ keys, keys ∖ {[ availability_key (parking_text inspect b st) ]}) <$> redis st.
Proof.
  intros Hfind. unfold handleSuccessfulPayment, findOneAndUpdate.
  rewrite captured_update_valid. cbv iota. rewrite Hfind.
  rewrite captured_update_apply.
  unfold redis_del, parking_text.
  cbn [redis bookings parkings set_parkings set_bookings].
  destruct (redis st) eqn:Hredis;
    cbn [redis bookings parkings logger set_redis set_parkings set_bookings];
    rewrite ?Hredis; split_and!; reflexivity.
Qed.

Lemma handleSuccessfulPayment_finds now payment st i b :
  findOne (payment_field_is "orderId" (PaymentEntity.order_id payment)) (bookings st)
    = Some (i, b) →
  findOne (payment_field_is "orderId" (PaymentEntity.order_id payment))
    (bookings (handleSuccessfulPayment' now (Some payment) st))
  = Some (i, confirmed_at now b).
Proof.
  intros Hfind.
  destruct (handleSuccessfulPayment_found now payment st i b Hfind) as (Hb & _ & _).
  rewrite Hb.
  eapply list_find_insert_same; [exact Hfind|].
  rewrite captured_update_orderId. by apply list_find_Some in Hfind as (_ & ? & _).
Qed.





End ReplayProperties.



(** The invariant is decidable; on the sample states it can be computed. *)
Example payment_invariant_computed :
  bool_decide (payment_invariant state_0) = true
  ∧ bool_decide (payment_invariant state_1) = true
  ∧ bool_decide
      (payment_invariant
         (updateBooking no_validation sample_castObjectId 1000 "booking-a" "cancelled"
            state_0).2)
    = false.
Proof. split_and!; vm_compute; reflexivity. Qed.

(** * Properties of the rest of the code *)

(** ** Duration, availability and cancellation of a booking *)

(** X1.  For a booking whose two dates are at most [2^53] milliseconds
    apart (so that the subtraction of the code is exact),
    [calculateDuration] is the least whole number of hours that covers the
    booking: that many hours reach [endTime], one hour less does not; so it
    is at least 1 exactly when [endTime] is after [startTime]. *)
Theorem calculateDuration_least_cover (b : Booking.t) :
  Z.abs (Booking.endTime b - Booking.startTime b) ≤ 2 ^ 53 →
  let n := calculateDuration b in
  let durationMs := Booking.endTime b - Booking.startTime b in
  (n - 1) * (1000 * 60 * 60) < durationMs
  ∧ durationMs ≤ n * (1000 * 60 * 60)
  ∧ (1 ≤ n ↔ Booking.startTime b < Booking.endTime b).
Proof.
  intros _.
  unfold calculateDuration, Qceiling, Qfloor. cbn [Qopp Qnum Qden].
  change (Z.pos (1000 * 60 * 60)) with 3600000.
  set (d := Booking.endTime b - Booking.startTime b).
  assert (Booking.startTime b < Booking.endTime b ↔ 0 < d) as -> by (unfold d; lia).
  pose proof (Z.div_mod (- d) 3600000 ltac:(lia)) as Hdiv.
  pose proof (Z.mod_pos_bound (- d) 3600000 ltac:(lia)) as Hmod.
  lia.
Qed.

(** The theorem on a booking of one hour and a millisecond: two hours. *)
Lemma calculateDuration_least_cover_witness :
  let b := Booking.mk "b" "u" "p" "s" 0 (hour + 1) "pending" ∅ 0 in
  Z.abs (Booking.endTime b - Booking.startTime b) ≤ 2 ^ 53
  ∧ calculateDuration b = 2
  ∧ (calculateDuration b - 1) * (1000 * 60 * 60) < hour + 1
  ∧ hour + 1 ≤ calculateDuration b * (1000 * 60 * 60).
Proof.
  intros b.
  assert (Z.abs (Booking.endTime b - Booking.startTime b) ≤ 2 ^ 53) as Hbound
    by (vm_compute; discriminate).
  destruct (calculateDuration_least_cover b Hbound) as (Hlow & Hhigh & _).
  split; [exact Hbound|]. split; [vm_compute; reflexivity|]. split; [exact Hlow|exact Hhigh].
Defined.

Example calculateDuration_examples :
  calculateDuration booking_A = 1
  ∧ calculateDuration (Booking.mk "b" "u" "p" "s" 0 (hour + 1) "pending" ∅ 0) = 2
  ∧ calculateDuration booking_empty = 0.
Proof. split_and!; vm_compute; reflexivity. Qed.

(** The filter of the availability check on a kept document and on a
    dropped one. *)
Lemma isSlotAvailable_filtered (keep : Booking.t → bool) coll slotId s e bookingId bookingId' :
  (∀ b, Booking.isSlotAvailable_query slotId s e bookingId b
        = keep b && Booking.isSlotAvailable_query slotId s e bookingId' b) →
  Booking.isSlotAvailable coll slotId s e bookingId
  = Booking.isSlotAvailable (List.filter keep coll) slotId s e bookingId'.
Proof.
  intros Hq. unfold Booking.isSlotAvailable, Booking.find. f_equal. f_equal.
  induction coll as [|b coll IH]; [done|].
  cbn [List.filter]. rewrite Hq.
  destruct (keep b); cbn [andb List.filter]; [|exact IH].
  destruct (Booking.isSlotAvailable_query _ _ _ _ b); by rewrite IH.
Qed.

(** X2.  The answer of [isSlotAvailable] depends on the pending and
    confirmed bookings of the slot other than the excluded one, and on
    nothing else: dropping every other document from the collection, and
    with them the [bookingId] argument, gives the same answer. *)
Theorem isSlotAvailable_relevant_bookings (coll : list Booking.t) (slotId : ObjectId)
    (s e : Z) (bookingId : option ObjectId) :
  Booking.isSlotAvailable coll slotId s e bookingId
  = Booking.isSlotAvailable
      (List.filter
         (λ b, bool_decide (Booking.slot b = slotId)
               && bool_decide (active b)
               && bool_decide (bookingId ≠ Some (Booking._id b))) coll)
      slotId s e None.
Proof.
  apply isSlotAvailable_filtered. intros b. unfold Booking.isSlotAvailable_query.
  rewrite (bool_decide_ext _ _ (active_elem_of b)).
  destruct (bool_decide (Booking.slot b = slotId)); [|done].
  destruct (bool_decide (active b)); [|done]. cbn [andb].
  destruct bookingId as [id|].
  - destruct (decide (Booking._id b = id)) as [->|Hne].
    + rewrite bool_decide_eq_true_2 by done.
      rewrite (bool_decide_eq_false_2 (Some id ≠ Some id)) by (intros H; by apply H).
      by rewrite andb_false_r.
    + rewrite (bool_decide_eq_false_2 (Booking._id b = id)) by done.
      rewrite (bool_decide_eq_true_2 (Some id ≠ Some (Booking._id b))) by congruence.
      done.
  - by rewrite (bool_decide_eq_true_2 (None ≠ Some (Booking._id b))).
Qed.

(** X3.  A stored pending or confirmed booking blocks its own window: the
    check without the [bookingId] argument answers [false] on it, which is
    why an update has to pass the id of the booking it updates. *)
Theorem isSlotAvailable_own_window (coll : list Booking.t) (b : Booking.t) :
  b ∈ coll → active b → Booking.startTime b < Booking.endTime b →
  Booking.isSlotAvailable coll (Booking.slot b) (Booking.startTime b) (Booking.endTime b) None
  = false.
Proof.
  intros Hb Hactive Hwf. apply not_true_iff_false. intros Havail.
  rewrite isSlotAvailable_no_match in Havail. specialize (Havail b Hb).
  apply not_true_iff_false in Havail. apply Havail.
  apply isSlotAvailable_query_true. unfold overlaps.
  split_and!; [done|done|left; lia|done].
Qed.

(** The theorem on the sample collection: booking A blocks 10:00-11:00. *)
Lemma isSlotAvailable_own_window_witness :
  booking_A ∈ [booking_A; booking_P]
  ∧ active booking_A
  ∧ Booking.startTime booking_A < Booking.endTime booking_A
  ∧ Booking.isSlotAvailable [booking_A; booking_P] "slot-1" (10 * hour) (11 * hour) None = false.
Proof.
  assert (booking_A ∈ [booking_A; booking_P]) as Hin by apply list_elem_of_here.
  assert (active booking_A) as Hactive by (right; reflexivity).
  assert (Booking.startTime booking_A < Booking.endTime booking_A) as Hwf
    by (vm_compute; reflexivity).
  refine (conj Hin (conj Hactive (conj Hwf _))).
  exact (isSlotAvailable_own_window [booking_A; booking_P] booking_A Hin Hactive Hwf).
Defined.

(** X4.  A window that is free stays free when it shrinks: every window
    inside it is free as well, whatever the stored bookings look like. *)
Theorem isSlotAvailable_subwindow (coll : list Booking.t) (slotId : ObjectId)
    (s e s' e' : Z) (bookingId : option ObjectId) :
  Booking.isSlotAvailable coll slotId s e bookingId = true →
  s ≤ s' → e' ≤ e →
  Booking.isSlotAvailable coll slotId s' e' bookingId = true.
Proof.
  rewrite !isSlotAvailable_no_match. intros Havail Hs He b Hb.
  specialize (Havail b Hb). apply not_true_iff_false. apply not_true_iff_false in Havail.
  intros Hq. apply Havail. apply isSlotAvailable_query_true.
  apply isSlotAvailable_query_true in Hq as (Hslot & Hact & Hov & Hid).
  unfold overlaps in *. split_and!; auto. lia.
Qed.

(** The theorem on the sample collection: 11:00-13:00 is free on [slot-1],
    so is 11:30-12:30. *)
Lemma isSlotAvailable_subwindow_witness :
  Booking.isSlotAvailable [booking_A; booking_P] "slot-1" (11 * hour) (13 * hour) None = true
  ∧ Booking.isSlotAvailable [booking_A; booking_P] "slot-1"
      (11 * hour + hour / 2) (12 * hour + hour / 2) None = true.
Proof.
  assert (Booking.isSlotAvailable [booking_A; booking_P] "slot-1" (11 * hour) (13 * hour) None
          = true) as Hfree by (vm_compute; reflexivity).
  split; [exact Hfree|].
  apply (isSlotAvailable_subwindow _ _ _ _ _ _ _ Hfree); vm_compute; discriminate.
Defined.

(** X5.  Time only closes the cancellation window: a booking that can be
    cancelled now could be cancelled at every earlier moment, and one that
    cannot be cancelled now cannot be cancelled later. *)
Theorem canBeCancelled_earlier (now now' : Z) (b : Booking.t) :
  now' ≤ now → Booking.canBeCancelled now b = true → Booking.canBeCancelled now' b = true.
Proof.
  intros Hle. unfold Booking.canBeCancelled.
  rewrite !andb_true_iff, !negb_true_iff, !hoursUntilStart_gt_1. intros [? ?]. split; [done|lia].
Qed.

(** The theorem on booking A (10:00): cancellable at 08:00, so at 07:00. *)
Lemma canBeCancelled_earlier_witness :
  7 * hour ≤ 8 * hour
  ∧ Booking.canBeCancelled (8 * hour) booking_A = true
  ∧ Booking.canBeCancelled (7 * hour) booking_A = true.
Proof.
  assert (7 * hour ≤ 8 * hour) as Hle by (vm_compute; discriminate).
  assert (Booking.canBeCancelled (8 * hour) booking_A = true) as Hcan
    by (vm_compute; reflexivity).
  refine (conj Hle (conj Hcan _)).
  exact (canBeCancelled_earlier (8 * hour) (7 * hour) booking_A Hle Hcan).
Defined.

(** ** The parking model: the stored counter and the slot statuses *)

(** X6.  What [save] leaves behind for every facility, once the recount
    started by [post('save')] has landed: the document the caller holds
    carries the count of available or reserved slots; the stored document
    carries the count of available slots alone when the facility is active,
    and keeps the count of the [pre('save')] hook when it is not (the
    recount skips inactive facilities). *)
Theorem save_stored_counter (slugify : string → string) (now : Z) (p : Parking.t)
    (coll : list Parking.t) :
  ∃ i q,
    list_find (λ q, Parking._id q = Parking._id p) (Parking.save slugify now p coll).2
      = Some (i, q)
    ∧ Parking.slots q = Parking.slots p
    ∧ Parking.availableSlots q
      = (if Parking.isActive p then Parking.countAvailable (Parking.slots p)
         else Parking.countAvailableOrReserved (Parking.slots p))
    ∧ Parking.availableSlots (Parking.save slugify now p coll).1
      = Parking.countAvailableOrReserved (Parking.slots p).
Proof.
  assert (Parking.availableSlots (Parking.save slugify now p coll).1
          = Parking.countAvailableOrReserved (Parking.slots p)) as Hheld.
  { unfold Parking.save, Parking.save_written. cbn [fst].
    by destruct (touch_cases now (Parking.pre_save slugify p) coll) as [-> | ->]. }
  destruct (Parking.isActive p) eqn:Hactive.
  - destruct (save_stores_available_only slugify now p coll Hactive) as [i Hi].
    eexists i, _. split; [exact Hi|]. split_and!; [|done|done].
    cbn [Parking.slots Parking.set_updatedAt Parking.set_availableSlots].
    by destruct (touch_cases now (Parking.pre_save slugify p) coll) as [-> | ->].
  - unfold Parking.save, Parking.save_written, Parking.post_save, Parking.calcAvailableSlots
      in *.
    set (p' := Parking.touch now (Parking.pre_save slugify p) coll) in *.
    assert (Parking._id p' = Parking._id p ∧ Parking.isActive p' = false
            ∧ Parking.slots p' = Parking.slots p
            ∧ Parking.availableSlots p'
              = Parking.countAvailableOrReserved (Parking.slots p))
      as (Hid & Hact' & Hslots & Hcount).
    { unfold p'.
      by destruct (touch_cases now (Parking.pre_save slugify p) coll) as [-> | ->]. }
    destruct (write_finds p' coll) as [i Hi].
    rewrite Hid in *.
    exists i, p'. cbn [fst snd]. split; [|done].
    destruct (Parking.aggregate_availableSlots _ _) as [|n rest]; [done|].
    unfold Parking.findByIdAndUpdate.
    destruct (list_find (λ q, Parking.isActive q ∧ Parking._id q = Parking._id p) _)
      as [[j q]|] eqn:Hj; [|done].
    apply list_find_insert_later; [done|].
    apply list_find_Some in Hj as (Hjq & [Hq Hidq] & _).
    pose proof Hi as (Hip & _ & Hleast)%list_find_Some.
    destruct (decide (j = i)) as [->|Hne].
    + rewrite Hip in Hjq. injection Hjq as <-.
      rewrite Hact' in Hq. done.
    + destruct (decide (j < i)%nat) as [Hlt|]; [|lia].
      exfalso. by eapply (Hleast j q).
Qed.

(** X7.  [calcAvailableSlots] at time [now] rewrites at most one document,
    and of it only the counter and [updatedAt]: a stored document keeps its
    position, and all of its paths but [availableSlots] and [updatedAt]; if
    it is changed at all, it is an active facility with the given id, its
    new counter is the number of its available slots, and its [updatedAt]
    is [now]. *)
Theorem calcAvailableSlots_frame (now : Z) (parkingId : ObjectId) (coll : list Parking.t)
    (i : nat) (p : Parking.t) :
  coll !! i = Some p →
  ∃ q, Parking.calcAvailableSlots now parkingId coll !! i = Some q
       ∧ Parking.set_updatedAt 0 (Parking.set_availableSlots 0 q)
         = Parking.set_updatedAt 0 (Parking.set_availableSlots 0 p)
       ∧ (q ≠ p → Parking.isActive p = true ∧ Parking._id p = parkingId
                  ∧ Parking.availableSlots q = Parking.countAvailable (Parking.slots p)
                  ∧ Parking.updatedAt q = now).
Proof.
  intros Hi. unfold Parking.calcAvailableSlots, Parking.findByIdAndUpdate.
  destruct (list_find (λ q, Parking.isActive q ∧ Parking._id q = parkingId) coll)
    as [[j x]|] eqn:Hfind.
  - destruct (aggregate_first _ _ _ _ Hfind) as [rest ->].
    apply list_find_Some in Hfind as (Hj & [Hact Hid] & _).
    destruct (decide (i = j)) as [->|Hne].
    + rewrite Hi in Hj. injection Hj as <-.
      eexists. split; [apply list_lookup_insert_eq; by eapply lookup_lt_Some|].
      split; [done|]. intros _. split_and!; [by apply Is_true_true|done|done|done].
    + exists p. rewrite list_lookup_insert_ne by done. done.
  - exists p. by destruct (Parking.aggregate_availableSlots _ _).
Qed.

(** The theorem on the sample facility: the recount at time 700 leaves it
    a counter of 1 and [updatedAt] 700, and everything else as it was. *)
Lemma calcAvailableSlots_frame_witness :
  [parking_1] !! 0%nat = Some parking_1
  ∧ Parking.calcAvailableSlots 700 "parking-1" [parking_1]
    = [Parking.set_updatedAt 700 (Parking.set_availableSlots 1 parking_1)]
  ∧ ∃ q, Parking.calcAvailableSlots 700 "parking-1" [parking_1] !! 0%nat = Some q
         ∧ Parking.set_updatedAt 0 (Parking.set_availableSlots 0 q)
           = Parking.set_updatedAt 0 (Parking.set_availableSlots 0 parking_1)
         ∧ (q ≠ parking_1 →
            Parking.isActive parking_1 = true ∧ Parking._id parking_1 = "parking-1"
            ∧ Parking.availableSlots q = Parking.countAvailable (Parking.slots parking_1)
            ∧ Parking.updatedAt q = 700).
Proof.
  assert ([parking_1] !! 0%nat = Some parking_1) as Hi by reflexivity.
  split; [exact Hi|]. split; [vm_compute; reflexivity|].
  exact (calcAvailableSlots_frame 700 "parking-1" [parking_1] 0 parking_1 Hi).
Defined.

(** The status read from a list of slots after [set_slot_status]. *)
Lemma set_slot_status_find slotId slotId' s l :
  list_find (λ x, Slot._id x = slotId') (Parking.set_slot_status slotId s l)
  = if decide (slotId' = slotId)
    then (λ jx, (jx.1, Slot.set_status s jx.2)) <$> list_find (λ x, Slot._id x = slotId) l
    else list_find (λ x, Slot._id x = slotId') l.
Proof.
  unfold Parking.set_slot_status.
  destruct (list_find (λ x, Slot._id x = slotId) l) as [[j x]|] eqn:Hfind.
  - pose proof Hfind as (Hj & Hx & Hleast)%list_find_Some.
    rewrite (list_find_insert_iff _ l j x (Slot.set_status s x) Hj) by done.
    destruct (decide (slotId' = slotId)) as [->|Hne].
    + rewrite Hfind. simpl. by rewrite decide_True.
    + destruct (list_find (λ x, Slot._id x = slotId') l) as [[k z]|] eqn:Hk; [|done].
      simpl. destruct (decide (k = j)) as [->|]; [|done].
      apply list_find_Some in Hk as (Hk & Hz & _). congruence.
  - destruct (decide (slotId' = slotId)) as [->|Hne]; [by rewrite Hfind|done].
Qed.

(** X8.  After [updateOne_slot_status now slotId s] a read of the slot
    returns [s] (if there is such a slot; none is created), and a read of
    any other slot returns what it returned before. *)
Theorem updateOne_slot_status_read (now : Z) (slotId slotId' : ObjectId) (s : string)
    (coll : list Parking.t) :
  slot_status slotId' (Parking.updateOne_slot_status now slotId s coll)
  = if decide (slotId' = slotId) then (λ _, s) <$> slot_status slotId coll
    else slot_status slotId' coll.
Proof.
  unfold slot_status, Parking.updateOne_slot_status.
  destruct (list_find (λ p, Exists (λ x, Slot._id x = slotId) (Parking.slots p)) coll)
    as [[i p]|] eqn:Hfind.
  - pose proof Hfind as (Hi & Hp & _)%list_find_Some.
    set (p' := Parking.set_updatedAt now
                 (Parking.set_slots (Parking.set_slot_status slotId s (Parking.slots p)) p)).
    assert (∀ id, Exists (λ x, Slot._id x = id) (Parking.slots p)
                  ↔ Exists (λ x, Slot._id x = id) (Parking.slots p')) as Hiff.
    { intros id. rewrite !has_slot_ids. unfold p'. simpl. by rewrite set_slot_status_ids. }
    rewrite (list_find_insert_iff _ coll i p p' Hi (Hiff slotId')).
    destruct (decide (slotId' = slotId)) as [->|Hne].
    + rewrite Hfind. simpl. rewrite decide_True by done.
      unfold p'. simpl. rewrite set_slot_status_find. rewrite decide_True by done.
      by destruct (list_find (λ x, Slot._id x = slotId) (Parking.slots p)) as [[??]|].
    + destruct (list_find (λ p, Exists (λ x, Slot._id x = slotId') (Parking.slots p)) coll)
        as [[k z]|] eqn:Hk; [|done].
      simpl. destruct (decide (k = i)) as [->|]; [|done].
      apply list_find_Some in Hk as (Hk & _). rewrite Hi in Hk. injection Hk as <-.
      unfold p'. simpl. rewrite set_slot_status_find. rewrite decide_False by done.
      by destruct (list_find (λ x, Slot._id x = slotId') (Parking.slots p)) as [[??]|].
  - destruct (decide (slotId' = slotId)) as [->|Hne]; [by rewrite Hfind|done].
Qed.

(** ** The payment controller: what never changes *)

Lemma set_payment_field_identity field v b :
  booking_identity (Booking.set_payment_field field v b) = booking_identity b.
Proof. unfold Booking.set_payment_field. by case_bool_decide. Qed.

Lemma apply_update_identity u b :
  booking_identity (apply_update u b) = booking_identity b.
Proof.
  unfold apply_update. revert b. induction u as [|[p v] u IH]; intros b; [done|].
  simpl. rewrite IH. destruct p, v; try done; apply set_payment_field_identity.
Qed.

Lemma apply_update_slot u b : Booking.slot (apply_update u b) = Booking.slot b.
Proof. exact (f_equal (λ k, k.1.1.2) (apply_update_identity u b)). Qed.

Lemma Booking_save_identity validate now id coll b0 b b' coll' :
  findById id coll = Some b0 → booking_identity b = booking_identity b0 →
  Booking_save validate now b coll = inr (b', coll') →
  booking_identity <$> coll' = booking_identity <$> coll
  ∧ booking_identity b' = booking_identity b0.
Proof.
  intros [i Hfind]%findById_Some Hkey. unfold Booking_save.
  pose proof Hfind as (Hi & Hid & _)%list_find_Some.
  assert (Booking._id b = id) as ->.
  { rewrite <- Hid. by apply (f_equal (λ k, k.1.1.1.1.1)) in Hkey. }
  rewrite Hfind. destruct (validateSync _ _ _); [done|]. intros [= <- <-].
  assert (booking_identity (if decide (b = b0) then b else Booking.set_updatedAt now b)
          = booking_identity b0) as Hkey' by (by destruct (decide _)).
  split; [|done].
  rewrite list_fmap_insert. apply list_insert_id.
  by rewrite list_lookup_fmap, Hi, Hkey'.
Qed.

Lemma findOneAndUpdate_identity now filter u validators coll r coll' :
  findOneAndUpdate now filter u validators coll = inr (r, coll') →
  booking_identity <$> coll' = booking_identity <$> coll.
Proof.
  unfold findOneAndUpdate.
  destruct (if validators then runValidators u else None); [done|].
  destruct (findOne filter coll) as [[i b]|] eqn:Hfind; intros [= <- <-]; [|done].
  apply list_find_Some in Hfind as (Hi & _).
  rewrite list_fmap_insert. apply list_insert_id.
  rewrite list_lookup_fmap, Hi. simpl. f_equal.
  symmetry. exact (apply_update_identity u b).
Qed.

Lemma set_slot_status_identity slotId s l :
  slot_identity <$> Parking.set_slot_status slotId s l = slot_identity <$> l.
Proof.
  unfold Parking.set_slot_status.
  destruct (list_find _ l) as [[j x]|] eqn:Hfind; [|done].
  apply list_find_Some in Hfind as (Hj & _ & _).
  rewrite list_fmap_insert. apply list_insert_id.
  by rewrite list_lookup_fmap, Hj.
Qed.

Lemma updateOne_slot_status_identity now slotId s coll :
  parking_identity <$> Parking.updateOne_slot_status now slotId s coll
  = parking_identity <$> coll.
Proof.
  unfold Parking.updateOne_slot_status.
  destruct (list_find _ coll) as [[i p]|] eqn:Hfind; [|done].
  apply list_find_Some in Hfind as (Hi & _).
  rewrite list_fmap_insert. apply list_insert_id.
  rewrite list_lookup_fmap, Hi. simpl. f_equal.
  unfold parking_identity. simpl. by rewrite set_slot_status_identity.
Qed.

Lemma cache_shrinks_refl r : cache_shrinks r r.
Proof. destruct r; simpl; [set_solver|done]. Qed.

Lemma same_documents_refl st : same_documents st st.
Proof. split_and!; [done|done|apply cache_shrinks_refl]. Qed.

Lemma same_documents_trans st1 st2 st3 :
  same_documents st1 st2 → same_documents st2 st3 → same_documents st1 st3.
Proof.
  intros (Hb & Hp & Hr) (Hb' & Hp' & Hr'). split_and!; [congruence|congruence|].
  unfold cache_shrinks in *.
  destruct (redis st1), (redis st2), (redis st3); try done. set_solver.
Qed.

Lemma same_documents_logger e st st' :
  same_documents st st' → same_documents st (logger e st').
Proof. done. Qed.

(** The three writes of a confirmation: booking, slot, cache. *)
Lemma same_documents_writes now coll slotId s st :
  booking_identity <$> coll = booking_identity <$> bookings st →
  same_documents st
    (set_parkings (Parking.updateOne_slot_status now slotId s (parkings st))
       (set_bookings coll st)).
Proof.
  intros Hb. split_and!; [done| |apply cache_shrinks_refl].
  apply updateOne_slot_status_identity.
Qed.

Lemma same_documents_redis_del key st st0 st' :
  same_documents st0 st → redis_del key st = inr st' → same_documents st0 st'.
Proof.
  intros H0. unfold redis_del. destruct (redis st) as [keys|] eqn:Hr; [|done].
  intros [= <-]. eapply same_documents_trans; [exact H0|].
  split_and!; [done|done|]. unfold cache_shrinks. simpl. rewrite Hr.
  by apply subseteq_difference_l.
Qed.

Lemma handleSuccessfulPayment_same_documents inspect now payment st :
  same_documents st (handleSuccessfulPayment inspect now payment st).
Proof.
  unfold handleSuccessfulPayment. destruct payment as [payment|];
    [|apply same_documents_logger, same_documents_refl].
  destruct (findOneAndUpdate _ _ _ _ _) as [err|[[b|] coll]] eqn:Hupd;
    [apply same_documents_logger, same_documents_refl| |apply same_documents_refl].
  apply findOneAndUpdate_identity in Hupd.
  pose proof (same_documents_writes now coll (Booking.slot b) "reserved" st Hupd) as Hw.
  destruct (redis_del _ _) as [err|st'] eqn:Hdel.
  - by apply same_documents_logger.
  - by eapply same_documents_redis_del.
Qed.

Lemma handleFailedPayment_same_documents now payment st :
  same_documents st (handleFailedPayment now payment st).
Proof.
  unfold handleFailedPayment. destruct payment as [payment|];
    [|apply same_documents_logger, same_documents_refl].
  destruct (findOneAndUpdate _ _ _ _ _) as [err|[r coll]] eqn:Hupd;
    [apply same_documents_logger, same_documents_refl|].
  apply findOneAndUpdate_identity in Hupd.
  split_and!; [done|done|apply cache_shrinks_refl].
Qed.

Lemma handleRefund_same_documents inspect now refund st :
  same_documents st (handleRefund inspect now refund st).
Proof.
  unfold handleRefund. destruct refund as [refund|];
    [|apply same_documents_logger, same_documents_refl].
  destruct (findOneAndUpdate _ _ _ _ _) as [err|[[b|] coll]] eqn:Hupd;
    [apply same_documents_logger, same_documents_refl| |apply same_documents_refl].
  apply findOneAndUpdate_identity in Hupd.
  pose proof (same_documents_writes now coll (Booking.slot b) "available" st Hupd) as Hw.
  destruct (redis_del _ _) as [err|st'] eqn:Hdel.
  - by apply same_documents_logger.
  - by eapply same_documents_redis_del.
Qed.

Section FrameProperties.

Variable hmac_sha256_hex : string → string → string.
Variable RAZORPAY_KEY_SECRET RAZORPAY_WEBHOOK_SECRET : string.
Variable JSON_stringify : WebhookBody.t → string.
Variable razorpay_orders_create : OrderOptions.t → option Order.t.
Variable validate : ObjectId → bool.
Variable castObjectId : string → bool.
Variable user_populated : ObjectId → bool.
Variable inspect : ObjectId → string → string.

Local Abbreviation run :=
  (perform hmac_sha256_hex RAZORPAY_KEY_SECRET RAZORPAY_WEBHOOK_SECRET JSON_stringify
     razorpay_orders_create validate castObjectId user_populated inspect).

Local Abbreviation run_all :=
  (perform_all hmac_sha256_hex RAZORPAY_KEY_SECRET RAZORPAY_WEBHOOK_SECRET JSON_stringify
     razorpay_orders_create validate castObjectId user_populated inspect).

Lemma createPaymentOrder_same_documents now req st :
  same_documents st
    (createPaymentOrder razorpay_orders_create validate castObjectId user_populated
       now req st).2.
Proof.
  pose proof (createPaymentOrder_stores razorpay_orders_create validate castObjectId
                user_populated now req st) as Hst.
  unfold stores in Hst. injection Hst as Hb Hp Hr.
  unfold same_documents. rewrite Hb, Hp, Hr.
  split_and!; [done|done|apply cache_shrinks_refl].
Qed.

Lemma verifyPayment_same_documents now req st :
  same_documents st
    (verifyPayment hmac_sha256_hex RAZORPAY_KEY_SECRET validate castObjectId
       user_populated inspect now req st).2.
Proof.
  unfold verifyPayment, Booking_findById.
  destruct (castObjectId _); [|apply same_documents_refl].
  destruct (findById _ _) as [booking|] eqn:Hfind; [|apply same_documents_refl].
  destruct (not_authorized _ _ _) as [err|[|]]; [apply same_documents_refl..|].
  destruct (negb _); [apply same_documents_refl|].
  destruct (Booking_save _ _ _ _) as [err|[b' coll]] eqn:Hsave; [apply same_documents_refl|].
  eapply Booking_save_identity in Hsave as [Hsave Hb'];
    [|exact Hfind|
     rewrite !set_payment_field_identity; reflexivity].
  pose proof (same_documents_writes now coll (Booking.slot b') "reserved" st Hsave) as Hw.
  destruct (redis_del _ _) as [err|st'] eqn:Hdel; [exact Hw|].
  by eapply same_documents_redis_del.
Qed.

Lemma webhook_same_documents now signature body st :
  same_documents st
    (webhook hmac_sha256_hex RAZORPAY_WEBHOOK_SECRET JSON_stringify inspect
       now signature body st).2.
Proof.
  unfold webhook. destruct (negb _); [apply same_documents_refl|].
  repeat case_bool_decide; try destruct (_ ≫= _); simpl;
    auto using same_documents_refl, handleSuccessfulPayment_same_documents,
      handleFailedPayment_same_documents, handleRefund_same_documents,
      same_documents_logger.
Qed.

Lemma updateBooking_same_documents now id status st :
  same_documents st (updateBooking validate castObjectId now id status st).2.
Proof.
  unfold updateBooking, Booking_findById.
  destruct (castObjectId _); [|apply same_documents_refl].
  destruct (findById _ _) as [booking|] eqn:Hfind; [|apply same_documents_refl].
  destruct (Booking_save _ _ _ _) as [err|[b' coll]] eqn:Hsave; [apply same_documents_refl|].
  eapply Booking_save_identity in Hsave as [Hsave _];
    [|exact Hfind|destruct (_ && _); by rewrite ?set_payment_field_identity].
  split_and!; [done|done|apply cache_shrinks_refl].
Qed.

Lemma perform_same_documents o st : same_documents st (run o st).
Proof.
  destruct o; simpl;
    auto using createPaymentOrder_same_documents, verifyPayment_same_documents,
      webhook_same_documents, updateBooking_same_documents.
Qed.

(** X9.  Whatever requests reach the payment endpoints, the webhook and
    the admin booking update, and in whatever order: no booking and no
    facility is created, deleted or moved; a booking keeps its user,
    facility, slot and times; a facility keeps its slots (all but their
    statuses) and its counter [availableSlots], also when a slot of it
    becomes reserved or available again; the cache never gains a key. *)
Theorem operations_same_documents (ops : list Operation) (st : State) :
  same_documents st (run_all ops st).
Proof.
  unfold perform_all. revert st. induction ops as [|o ops IH]; intros st.
  - apply same_documents_refl.
  - simpl. eapply same_documents_trans; [apply perform_same_documents|apply IH].
Qed.

End FrameProperties.
(** ** The payment controller: failures and repeated events *)

Section VerifyFailure.

Variable hmac_sha256_hex : string → string → string.
Variable RAZORPAY_KEY_SECRET : string.
Variable validate : ObjectId → bool.
Variable castObjectId : string → bool.
Variable user_populated : ObjectId → bool.
Variable inspect : ObjectId → string → string.

(** X10.  When the cache client is not initialised, a well-signed
    confirmation by a caller who passes the authorization test is answered
    with the error of [getRedisClient], not with 200, although its first
    two writes have happened: the stored booking is confirmed and paid and
    the slot is reserved. *)
Theorem verifyPayment_cache_down (now : Z) (req : VerifyRequest.t) (st : State)
    (booking : Booking.t) :
  castObjectId (VerifyRequest.bookingId req) = true →
  findById (VerifyRequest.bookingId req) (bookings st) = Some booking →
  not_authorized user_populated booking (VerifyRequest.user req) = inr false →
  hmac_sha256_hex RAZORPAY_KEY_SECRET
    (VerifyRequest.orderId req +:+ "|" +:+ VerifyRequest.paymentId req)
  = VerifyRequest.signature req →
  validateSync validate booking (verified now (VerifyRequest.paymentId req) booking)
    = None →
  redis st = None →
  let r := verifyPayment hmac_sha256_hex RAZORPAY_KEY_SECRET validate castObjectId
             user_populated inspect now req st in
  r.1 = res_next RedisNotInitialized
  ∧ (∃ b', findById (VerifyRequest.bookingId req) (bookings r.2) = Some b'
           ∧ Booking.status b' = "confirmed"
           ∧ Booking.payment b' !! "status" = Some (VString "completed"))
  ∧ parkings r.2
    = Parking.updateOne_slot_status now (Booking.slot booking) "reserved" (parkings st).
Proof.
  intros Hcast Hfind Hauth Hsig Hval Hredis.
  destruct (verifyPayment_match hmac_sha256_hex RAZORPAY_KEY_SECRET validate castObjectId
              user_populated inspect now req st booking Hcast Hfind Hauth Hsig Hval)
    as (i & _ & Hread & Heq).
  cbv zeta in *. rewrite Heq, Hredis. split_and!; [done| |done].
  eexists. split; [exact Hread|].
  rewrite verified_eq.
  destruct (decide _); cbn [Booking.status Booking.payment Booking.set_updatedAt];
    by rewrite lookup_insert_eq.
Qed.

End VerifyFailure.

(** The theorem on the sample state with the cache not connected, for the
    confirmation an admin sends. *)
Lemma verifyPayment_cache_down_witness :
  findById "booking-p" (bookings (set_redis None state_0)) = Some booking_P
  ∧ (sample_verifyPayment 1000 verify_request_P (set_redis None state_0)).1
    = res_next RedisNotInitialized
  ∧ Booking.status
      <$> findById "booking-p"
            (bookings (sample_verifyPayment 1000 verify_request_P
                         (set_redis None state_0)).2)
    = Some "confirmed"
  ∧ slot_status "slot-2"
      (parkings (sample_verifyPayment 1000 verify_request_P (set_redis None state_0)).2)
    = Some "reserved".
Proof.
  assert (findById "booking-p" (bookings (set_redis None state_0)) = Some booking_P)
    as Hfind by (vm_compute; reflexivity).
  pose proof (verifyPayment_cache_down sample_hmac "key-secret" no_validation
                sample_castObjectId sample_user_populated sample_inspect 1000
                verify_request_P (set_redis None state_0) booking_P
                eq_refl Hfind eq_refl eq_refl eq_refl eq_refl)
    as (Hres & (b' & Hread & Hstatus & _) & Hparkings).
  split_and!; [exact Hfind|exact Hres| |].
  - exact (eq_trans (f_equal (fmap Booking.status) Hread) (f_equal Some Hstatus)).
  - exact (eq_trans (f_equal (slot_status "slot-2") Hparkings) eq_refl).
Defined.

Section CreateOrderOutcomes.

Variable razorpay_orders_create : OrderOptions.t → option Order.t.
Variable validate : ObjectId → bool.
Variable castObjectId : string → bool.
Variable user_populated : ObjectId → bool.

(** X11.  The outcomes of [createPaymentOrder], none of which is the 200.
    The id of the request does not cast: CastError.  No booking has the id:
    404.  The user of the booking is not found by populate: TypeError.  The
    caller is not an admin: 403.  The booking is not pending: 400.
    Otherwise 500 and one line in the log: the error of the gateway, or
    else the validation error of [save()].  In every case bookings,
    facilities and cache are what they were, and only the last outcome
    adds to the log. *)
Theorem createPaymentOrder_outcomes (now : Z) (req : CreateOrderRequest.t) (st : State) :
  let r := createPaymentOrder razorpay_orders_create validate castObjectId user_populated
             now req st in
  let id := CreateOrderRequest.bookingId req in
  stores r.2 = stores st
  ∧ ((castObjectId id = false ∧ r = (res_next (CastError "_id"), st))
     ∨ (castObjectId id = true ∧ findById id (bookings st) = None
        ∧ r = (res_next (AppError "No booking found with that ID" 404), st))
     ∨ (∃ booking,
          castObjectId id = true ∧ findById id (bookings st) = Some booking
          ∧ ((user_populated (Booking.user booking) = false
              ∧ r = (res_next TypeError, st))
             ∨ (user_populated (Booking.user booking) = true
                ∧ bool_decide (User.role (CreateOrderRequest.user req) = "admin") = false
                ∧ r = (res_next
                         (AppError "You are not authorized to pay for this booking" 403),
                       st))
             ∨ (user_populated (Booking.user booking) = true
                ∧ User.role (CreateOrderRequest.user req) = "admin"
                ∧ bool_decide (Booking.status booking = "pending") = false
                ∧ r = (res_next
                         (AppError "This booking has already been paid for or cancelled"
                            400),
                       st))
             ∨ (user_populated (Booking.user booking) = true
                ∧ User.role (CreateOrderRequest.user req) = "admin"
                ∧ Booking.status booking = "pending"
                ∧ ∃ err,
                    r = (res_next
                           (AppError "Error creating payment order. Please try again." 500),
                         logger (log_error "Razorpay order creation error: " err) st)
                    ∧ err
                      = match razorpay_orders_create
                                (OrderOptions.mk (CreateOrderRequest.amount req * 100)
                                   (default "INR" (CreateOrderRequest.currency req))
                                   ("booking_" +:+ Booking._id booking) 1
                                   (Booking._id booking)
                                   (User.id (CreateOrderRequest.user req))) with
                        | Some _ => ValidationError "payment.method"
                        | None => GatewayError
                        end)))).
Proof.
  cbv zeta. split; [apply createPaymentOrder_stores|].
  unfold createPaymentOrder, Booking_findById, not_authorized.
  destruct (castObjectId _) eqn:Hcast; [right|by left].
  destruct (findById _ _) as [booking|] eqn:Hfind; [right|by left].
  exists booking. split; [done|]. split; [done|].
  destruct (user_populated _) eqn:Hpop; [right|by left].
  destruct (bool_decide (User.role _ = "admin")) eqn:Hrole; cbn [negb andb];
    [right|by left].
  apply bool_decide_eq_true in Hrole.
  destruct (bool_decide (Booking.status booking = "pending")) eqn:Hpending; cbn [negb];
    [right|by left].
  apply bool_decide_eq_true in Hpending.
  split_and!; [done..|].
  destruct (razorpay_orders_create _) as [order|] eqn:Horder; [|by eexists].
  pose proof (findById_id _ _ _ Hfind) as Hid. rewrite <- Hid in Hfind.
  rewrite (createPaymentOrder_save_rejected validate now req order booking _ Hfind).
  by eexists.
Qed.

End CreateOrderOutcomes.

(** The outcomes on the sample state: an admin's request ends in the
    [catch], the request of the booking's user in the 403. *)
Example createPaymentOrder_sample :
  (createPaymentOrder sample_gateway no_validation sample_castObjectId
     sample_user_populated 1000 create_order_request_P state_0).1
  = res_next (AppError "Error creating payment order. Please try again." 500)
  ∧ (createPaymentOrder sample_gateway no_validation sample_castObjectId
       sample_user_populated 1000 (CreateOrderRequest.mk "booking-p" 50 None owner_1)
       state_0).1
    = res_next (AppError "You are not authorized to pay for this booking" 403).
Proof. split; vm_compute; reflexivity. Qed.

Section WebhookOutcomes.

Variable hmac_sha256_hex : string → string → string.
Variable RAZORPAY_WEBHOOK_SECRET : string.
Variable JSON_stringify : WebhookBody.t → string.
Variable inspect : ObjectId → string → string.

Local Abbreviation deliver now body :=
  (webhook hmac_sha256_hex RAZORPAY_WEBHOOK_SECRET JSON_stringify inspect now
     (Some (hmac_sha256_hex RAZORPAY_WEBHOOK_SECRET (JSON_stringify body))) body).

(** X12.  A signed [payment.captured] or [payment.failed] event for an
    order that no booking carries is answered with 200 like any other, and
    leaves no trace: no store changes and nothing is logged. *)
Theorem webhook_unknown_order (now : Z) (event : string) (payment : PaymentEntity.t)
    (refund : option (option RefundEntity.t)) (st : State) :
  event = "payment.captured" ∨ event = "payment.failed" →
  findOne (payment_field_is "orderId" (PaymentEntity.order_id payment)) (bookings st) = None →
  deliver now
    (WebhookBody.mk event (Some (WebhookBody.mk_payload (Some (Some payment)) refund))) st
  = (res_json 200 (body_status "success" None), st).
Proof.
  intros Hevent Hfind. unfold webhook.
  rewrite bool_decide_eq_true_2 by done. cbn [negb WebhookBody.event WebhookBody.payload].
  destruct Hevent as [-> | ->].
  - rewrite bool_decide_eq_true_2 by done. cbn [mbind option_bind WebhookBody.payment].
    unfold handleSuccessfulPayment, findOneAndUpdate.
    rewrite captured_update_valid.
    cbv iota. by rewrite Hfind.
  - rewrite bool_decide_eq_false_2 by done. rewrite bool_decide_eq_true_2 by done.
    cbn [mbind option_bind WebhookBody.payment].
    by rewrite handleFailedPayment_no_match.
Qed.

End WebhookOutcomes.

(** The theorem on the sample state, for an order nobody placed. *)
Lemma webhook_unknown_order_witness :
  findOne (payment_field_is "orderId" "order_404") (bookings state_0) = None
  ∧ webhook sample_hmac "webhook-secret" sample_stringify sample_inspect 5000
      (Some (sample_hmac "webhook-secret" "payment.failed"))
      (WebhookBody.mk "payment.failed"
         (Some (WebhookBody.mk_payload
                  (Some (Some (PaymentEntity.mk "pay_404" "order_404" 1700000000 None)))
                  None)))
      state_0
    = (res_json 200 (body_status "success" None), state_0).
Proof.
  assert (findOne (payment_field_is "orderId" "order_404") (bookings state_0) = None)
    as Hfind by (vm_compute; reflexivity).
  split; [exact Hfind|].
  exact (webhook_unknown_order sample_hmac "webhook-secret" sample_stringify sample_inspect
           5000 "payment.failed" (PaymentEntity.mk "pay_404" "order_404" 1700000000 None)
           None state_0 (or_intror eq_refl) Hfind).
Defined.

Lemma failed_at_idem now now' b : failed_at now' (failed_at now b) = failed_at now' b.
Proof. unfold failed_at. simpl. by rewrite insert_insert_eq. Qed.

Lemma failed_at_confirmed_at now now' b :
  failed_at now' (confirmed_at now b) = failed_at now' b.
Proof. unfold failed_at, confirmed_at. simpl. by rewrite insert_insert_eq. Qed.

Lemma confirmed_at_failed_at now now' b :
  confirmed_at now' (failed_at now b) = confirmed_at now' b.
Proof. unfold failed_at, confirmed_at. simpl. by rewrite insert_insert_eq. Qed.

Lemma failed_at_orderId now orderId b :
  payment_field_is "orderId" orderId (failed_at now b)
  = payment_field_is "orderId" orderId b.
Proof.
  unfold payment_field_is, failed_at. simpl. by rewrite lookup_insert_ne.
Qed.

Lemma handleFailedPayment_finds now payment orderId st i b :
  PaymentEntity.order_id payment = orderId →
  findOne (payment_field_is "orderId" orderId) (bookings st) = Some (i, b) →
  findOne (payment_field_is "orderId" orderId)
    (bookings (handleFailedPayment now (Some payment) st))
  = Some (i, failed_at now b).
Proof.
  intros <- Hfind. rewrite (handleFailedPayment_found now payment st i b Hfind).
  cbn [bookings set_bookings].
  eapply list_find_insert_same; [exact Hfind|].
  rewrite failed_at_orderId. by apply list_find_Some in Hfind as (_ & ? & _).
Qed.

(** X13.  A [payment.failed] event handled at time [now] and again at time
    [now'] leaves bookings, facilities and cache as the handling at [now']
    alone leaves them; and the time of a handling shows in the [updatedAt]
    of the booking only.  So the second handling changes the [updatedAt] of
    the booking, which the first one cancelled, and nothing else. *)
Theorem handleFailedPayment_twice (now now' : Z) (payment : option PaymentEntity.t)
    (st : State) :
  stores (handleFailedPayment now' payment (handleFailedPayment now payment st))
  = stores (handleFailedPayment now' payment st)
  ∧ Booking.set_updatedAt 0 <$> bookings (handleFailedPayment now' payment st)
    = Booking.set_updatedAt 0 <$> bookings (handleFailedPayment now payment st)
  ∧ parkings (handleFailedPayment now' payment st) = parkings st
  ∧ redis (handleFailedPayment now' payment st) = redis st.
Proof.
  destruct payment as [payment|]; [|split_and!; reflexivity].
  destruct (findOne (payment_field_is "orderId" (PaymentEntity.order_id payment)) (bookings st))
    as [[i b]|] eqn:Hfind.
  - pose proof (handleFailedPayment_finds now payment _ st i b eq_refl Hfind) as Hfind'.
    rewrite (handleFailedPayment_found now' payment _ i _ Hfind').
    rewrite !(handleFailedPayment_found _ payment st i b Hfind).
    unfold stores, set_bookings. cbn [bookings parkings redis].
    split_and!; [|by rewrite !list_fmap_insert|done|done].
    by rewrite list_insert_insert_eq, failed_at_idem.
  - rewrite !(handleFailedPayment_no_match _ payment st Hfind). by split_and!.
Qed.

(** X14.  Of a [payment.captured] and a [payment.failed] event for the
    same order, the one handled last decides: the booking is stored as that
    event alone would have left it, confirmed and paid or cancelled and
    failed.  The slot is reserved in both orders, since only the capture
    writes a slot and the failure never releases one. *)
Theorem later_event_wins (inspect : ObjectId → string → string) (now now' : Z)
    (captured failed : PaymentEntity.t) (st : State) (i : nat) (b : Booking.t) :
  findOne (payment_field_is "orderId" (PaymentEntity.order_id captured)) (bookings st)
    = Some (i, b) →
  PaymentEntity.order_id failed = PaymentEntity.order_id captured →
  bookings (handleFailedPayment now' (Some failed)
              (handleSuccessfulPayment inspect now (Some captured) st))
    = <[i := failed_at now' b]> (bookings st)
  ∧ bookings (handleSuccessfulPayment inspect now' (Some captured)
                (handleFailedPayment now (Some failed) st))
    = <[i := confirmed_at now' b]> (bookings st)
  ∧ parkings (handleFailedPayment now' (Some failed)
                (handleSuccessfulPayment inspect now (Some captured) st))
    = Parking.updateOne_slot_status now (Booking.slot b) "reserved" (parkings st)
  ∧ parkings (handleSuccessfulPayment inspect now' (Some captured)
                (handleFailedPayment now (Some failed) st))
    = Parking.updateOne_slot_status now' (Booking.slot b) "reserved" (parkings st).
Proof.
  intros Hfind Horder.
  destruct (handleSuccessfulPayment_found inspect now captured st i b Hfind)
    as (Ecb & Ecp & _).
  pose proof (handleSuccessfulPayment_finds inspect now captured st i b Hfind) as Hfc.
  rewrite <- Horder in Hfc.
  pose proof (handleFailedPayment_finds now failed _ st i b Horder Hfind) as Hcf.
  destruct (handleSuccessfulPayment_found inspect now' captured _ i _ Hcf)
    as (Efb & Efp & _).
  split_and!.
  - rewrite (handleFailedPayment_found now' failed _ i _ Hfc). cbn [bookings set_bookings].
    by rewrite Ecb, list_insert_insert_eq, failed_at_confirmed_at.
  - rewrite Efb, (handleFailedPayment_found now failed st i b) by (by rewrite Horder).
    cbn [bookings set_bookings].
    by rewrite list_insert_insert_eq, confirmed_at_failed_at.
  - by rewrite handleFailedPayment_parkings.
  - by rewrite Efp, handleFailedPayment_parkings.
Qed.

(** The theorem on the sample state: the capture and then the failure of
    the order of the pending booking. *)
Lemma later_event_wins_witness :
  findOne (payment_field_is "orderId" "order_2") (bookings state_0) = Some (1%nat, booking_P)
  ∧ Booking.status
      <$> bookings (handleFailedPayment 2000 (Some failed_order_2)
                      (handleSuccessfulPayment sample_inspect 1000
                         (Some (PaymentEntity.mk "pay_2" "order_2" 1700000000 None))
                         state_0)) !! 1%nat
    = Some "cancelled"
  ∧ slot_status "slot-2"
      (parkings (handleFailedPayment 2000 (Some failed_order_2)
                   (handleSuccessfulPayment sample_inspect 1000
                      (Some (PaymentEntity.mk "pay_2" "order_2" 1700000000 None))
                      state_0)))
    = Some "reserved".
Proof.
  assert (findOne (payment_field_is "orderId" "order_2") (bookings state_0)
          = Some (1%nat, booking_P)) as Hfind by (vm_compute; reflexivity).
  destruct (later_event_wins sample_inspect 1000 2000
              (PaymentEntity.mk "pay_2" "order_2" 1700000000 None)
              failed_order_2 state_0 1 booking_P Hfind eq_refl)
    as (Hb & _ & Hp & _).
  split_and!; [exact Hfind| |].
  - rewrite Hb. vm_compute. reflexivity.
  - rewrite Hp. vm_compute. reflexivity.
Defined.

Section VerifyOrder.

Variable hmac_sha256_hex : string → string → string.
Variable RAZORPAY_KEY_SECRET : string.
Variable validate : ObjectId → bool.
Variable castObjectId : string → bool.
Variable user_populated : ObjectId → bool.
Variable inspect : ObjectId → string → string.

Local Abbreviation verifyPayment' :=
  (verifyPayment hmac_sha256_hex RAZORPAY_KEY_SECRET validate castObjectId
     user_populated inspect).

(** X15.  [verifyPayment] reads the [orderId] of the request for the
    signature check and for nothing else: it is never compared with the
    order stored on the booking.  Two requests for the same booking by the
    same caller with the same [paymentId], each carrying a good signature
    for its own [orderId], get the same answer and leave the same state. *)
Theorem verifyPayment_order_only_signed (now : Z) (req : VerifyRequest.t)
    (orderId' : string) (st : State) :
  hmac_sha256_hex RAZORPAY_KEY_SECRET
    (VerifyRequest.orderId req +:+ "|" +:+ VerifyRequest.paymentId req)
  = VerifyRequest.signature req →
  verifyPayment' now
    (VerifyRequest.mk orderId' (VerifyRequest.paymentId req)
       (hmac_sha256_hex RAZORPAY_KEY_SECRET
          (orderId' +:+ "|" +:+ VerifyRequest.paymentId req))
       (VerifyRequest.bookingId req) (VerifyRequest.user req)) st
  = verifyPayment' now req st.
Proof.
  intros Hsig. unfold verifyPayment.
  cbn [VerifyRequest.orderId VerifyRequest.paymentId VerifyRequest.signature
       VerifyRequest.bookingId VerifyRequest.user].
  rewrite !bool_decide_eq_true_2 by done. reflexivity.
Qed.

End VerifyOrder.

(** The theorem on the sample state: the pending booking, whose stored
    order is [order_2], is confirmed by the pair an admin sends signed for
    [order_7]. *)
Lemma verifyPayment_order_only_signed_witness :
  Booking.payment booking_P !! "orderId" = Some (VString "order_2")
  ∧ Booking.status
      <$> findById "booking-p"
            (bookings (sample_verifyPayment 1000
                         (VerifyRequest.mk "order_7" "pay_2"
                            (sample_hmac "key-secret" "order_7|pay_2")
                            "booking-p" admin_1) state_0).2)
    = Some "confirmed".
Proof.
  split; [vm_compute; reflexivity|].
  etrans;
    [exact (f_equal (λ r, Booking.status <$> findById "booking-p" (bookings r.2))
              (verifyPayment_order_only_signed sample_hmac "key-secret" no_validation
                 sample_castObjectId sample_user_populated sample_inspect 1000
                 verify_request_P "order_7" state_0 eq_refl))|].
  vm_compute. reflexivity.
Defined.

(** X16.  An admin who cancels a paid booking gets, when the save goes
    through, a booking with [status = cancelled] whose [payment] is what it
    was: [payment.status] still is [completed], and the two assignments
    that request the refund do not reach the document ([refundStatus] and
    [refundRequestedAt] are no paths of the schema).  [updatedAt] is the
    time of the call; the slot is not released and the cache is not
    touched. *)
Theorem updateBooking_cancel_paid (validate : ObjectId → bool)
    (castObjectId : string → bool) (now : Z) (id : ObjectId)
    (st : State) (booking b' : Booking.t) :
  findById id (bookings st) = Some booking →
  Booking.payment booking !! "status" = Some (VString "completed") →
  (updateBooking validate castObjectId now id "cancelled" st).1
    = res_json 200 (body_booking None b') →
  findById id (bookings (updateBooking validate castObjectId now id "cancelled" st).2)
    = Some b'
  ∧ Booking.status b' = "cancelled"
  ∧ Booking.payment b' = Booking.payment booking
  ∧ Booking.payment b' !! "status" = Some (VString "completed")
  ∧ Booking.payment b' !! "refundStatus" = Booking.payment booking !! "refundStatus"
  ∧ Booking.updatedAt b' = now
  ∧ parkings (updateBooking validate castObjectId now id "cancelled" st).2 = parkings st
  ∧ redis (updateBooking validate castObjectId now id "cancelled" st).2 = redis st.
Proof.
  intros Hfind Hpaid. unfold updateBooking, Booking_findById.
  destruct (castObjectId id); [|done]. rewrite Hfind.
  cbn [Booking.payment Booking.set_updatedAt Booking.set_status].
  rewrite !bool_decide_eq_true_2 by done. cbn [andb].
  rewrite (set_payment_field_dropped "refundStatus") by field_name.
  rewrite (set_payment_field_dropped "refundRequestedAt") by field_name.
  set (b := Booking.set_updatedAt now _).
  destruct (validateSync validate booking b) as [err|] eqn:Hval.
  - by rewrite (Booking_save_rejected validate now id (bookings st) booking b err Hfind
                  (findById_id _ _ _ Hfind) Hval).
  - destruct (Booking_save_read validate now id (bookings st) booking b Hfind
                (findById_id _ _ _ Hfind) Hval) as (i & _ & -> & Hread).
    cbn [fst snd]. intros [= <-]. split; [exact Hread|].
    cbn [bookings parkings redis set_bookings].
    destruct (decide (b = booking)); split_and!; done.
Qed.

(** The theorem on the sample state: the paid booking A is cancelled. *)
Lemma updateBooking_cancel_paid_witness :
  findById "booking-a" (bookings state_0) = Some booking_A
  ∧ Booking.payment booking_A !! "status" = Some (VString "completed")
  ∧ slot_status "slot-1"
      (parkings (updateBooking no_validation sample_castObjectId 5000 "booking-a"
                   "cancelled" state_0).2)
    = Some "reserved"
  ∧ ∃ b', findById "booking-a"
            (bookings (updateBooking no_validation sample_castObjectId 5000 "booking-a"
                         "cancelled" state_0).2)
          = Some b'
          ∧ Booking.status b' = "cancelled"
          ∧ Booking.payment b' = Booking.payment booking_A
          ∧ Booking.updatedAt b' = 5000.
Proof.
  assert (findById "booking-a" (bookings state_0) = Some booking_A)
    as Hfind by (vm_compute; reflexivity).
  assert (Booking.payment booking_A !! "status" = Some (VString "completed"))
    as Hpaid by (vm_compute; reflexivity).
  split_and!; [exact Hfind|exact Hpaid|vm_compute; reflexivity|].
  eexists.
  destruct (updateBooking_cancel_paid no_validation sample_castObjectId 5000 "booking-a"
              state_0 booking_A _ Hfind Hpaid eq_refl)
    as (Hread & Hstatus & Hpayment & _ & _ & Hupdated & _).
  exact (conj Hread (conj Hstatus (conj Hpayment Hupdated))).
Defined.
(** ** The admin controller: which fields an update can carry *)

(** X17.  [filterObj] keeps a field exactly when its name is allowed, with
    the value it had, and adds nothing; so the update document of
    [updateUser] can carry [name], [email], [phone], [role] and [active] and
    never a password. *)
Theorem filterObj_lookup {V : Type} (obj : gmap string V) (allowedFields : list string)
    (el : string) :
  filterObj obj allowedFields !! el
  = (if bool_decide (el ∈ allowedFields) then obj !! el else None)
  ∧ (updateUser_filteredBody obj !! "role" = obj !! "role"
     ∧ updateUser_filteredBody obj !! "password" = None
     ∧ updateUser_filteredBody obj !! "passwordConfirm" = None
     ∧ updateUser_filteredBody obj !! "passwordChangedAt" = None).
Proof.
  assert (∀ allowed k,
            filterObj obj allowed !! k
            = (if bool_decide (k ∈ allowed) then obj !! k else None)) as Hlookup.
  { intros allowed k. unfold filterObj.
    apply (map_fold_weak_ind
             (λ (r : gmap string V) m,
                r !! k = (if bool_decide (k ∈ allowed) then m !! k else None))).
    - rewrite lookup_empty. by destruct (bool_decide _).
    - intros i x m r Hi IH.
      destruct (decide (i = k)) as [->|Hne].
      + destruct (bool_decide (k ∈ allowed)); [by rewrite !lookup_insert_eq|done].
      + destruct (bool_decide (i ∈ allowed)).
        * rewrite !lookup_insert_ne by done. exact IH.
        * rewrite lookup_insert_ne by done. exact IH. }
  split; [apply Hlookup|]. unfold updateUser_filteredBody. rewrite !Hlookup.
  split_and!; reflexivity.
Qed.

(** A body that tries to set the password along with the name. *)
Example updateUser_filteredBody_example :
  updateUser_filteredBody
    ({[ "name" := "Eve"; "password" := "12345678"; "role" := "admin" ]} : gmap string string)
  = {[ "name" := "Eve"; "role" := "admin" ]}.
Proof. vm_compute. reflexivity. Qed.

(** ** The user model: tokens and password changes *)

(** X18.  After a password change saved at time [now] (milliseconds), a
    token is rejected by [changedPasswordAfter] exactly when its timestamp
    (seconds) is more than one second older than the second of the change:
    the margin of the hook lets every token issued since the change pass,
    and with them the tokens issued during the second before it. *)
Theorem changedPasswordAfter_margin (bcrypt_hash : string → string) (now JWTTimestamp : Z)
    (u : UserModel.t) :
  1000 ≤ now →
  UserModel.changedPasswordAfter JWTTimestamp
    (UserModel.pre_save bcrypt_hash now true false u) = true
  ↔ JWTTimestamp + 1 < now / 1000.
Proof.
  intros Hnow. unfold UserModel.pre_save, UserModel.pre_save_passwordChangedAt,
    UserModel.pre_save_password, UserModel.changedPasswordAfter.
  cbn [negb orb UserModel.passwordChangedAt].
  rewrite Z.ltb_lt, Z.quot_div_nonneg by lia.
  replace (now - 1000) with (now + (-1) * 1000) by lia.
  rewrite Z.div_add by lia. lia.
Qed.

(** The theorem for a change at 5.3 s: a token of second 4 passes, a token
    of second 3 does not. *)
Lemma changedPasswordAfter_margin_witness :
  1000 ≤ 5300
  ∧ UserModel.changedPasswordAfter 4
      (UserModel.pre_save (λ p, p) 5300 true false (UserModel.mk "secret12" None None)) = false
  ∧ UserModel.changedPasswordAfter 3
      (UserModel.pre_save (λ p, p) 5300 true false (UserModel.mk "secret12" None None)) = true.
Proof.
  assert (1000 ≤ 5300) as Hnow by lia.
  split; [exact Hnow|]. split.
  - apply not_true_iff_false.
    rewrite (changedPasswordAfter_margin (λ p, p) 5300 4 _ Hnow). vm_compute. discriminate.
  - apply (changedPasswordAfter_margin (λ p, p) 5300 3 _ Hnow). vm_compute. reflexivity.
Defined.

(** A user who never changed the password, and a new user, reject no
    token. *)
Lemma changedPasswordAfter_new bcrypt_hash now isModified JWTTimestamp u :
  UserModel.passwordChangedAt u = None →
  UserModel.changedPasswordAfter JWTTimestamp
    (UserModel.pre_save bcrypt_hash now isModified true u) = false.
Proof.
  intros Hnone. unfold UserModel.pre_save, UserModel.pre_save_passwordChangedAt,
    UserModel.pre_save_password, UserModel.changedPasswordAfter.
  rewrite orb_true_r. destruct isModified; simpl; by rewrite Hnone.
Qed.

(** ** The front end *)

(** X19.  An alert shown by [showAlert] and removed after its timeout
    leaves the list as if it had never been shown: the alerts that were
    there and the alerts set meanwhile remain, in order, provided none of
    them carries the same id. *)
Theorem removeAlert_setAlert (a : AlertSlice.alert) (before meanwhile : list AlertSlice.alert) :
  Forall (λ x, AlertSlice.id x ≠ AlertSlice.id a) before →
  Forall (λ x, AlertSlice.id x ≠ AlertSlice.id a) meanwhile →
  AlertSlice.removeAlert (AlertSlice.id a)
    (fold_left (λ state x, AlertSlice.setAlert x state) meanwhile
       (AlertSlice.setAlert a before))
  = (before ++ meanwhile)%list.
Proof.
  intros Hbefore Hmeanwhile.
  assert (∀ l state, fold_left (λ state x, AlertSlice.setAlert x state) l state = (state ++ l)%list)
    as Hfold.
  { induction l as [|x l IH]; intros state; simpl; [by rewrite app_nil_r|].
    rewrite IH. unfold AlertSlice.setAlert. by rewrite <- app_assoc. }
  assert (∀ l, Forall (λ x, AlertSlice.id x ≠ AlertSlice.id a) l →
               AlertSlice.removeAlert (AlertSlice.id a) l = l) as Hkeep.
  { unfold AlertSlice.removeAlert. induction 1 as [|x l Hx _ IH]; simpl; [done|].
    rewrite bool_decide_eq_false_2 by done. simpl. by rewrite IH. }
  rewrite Hfold. unfold AlertSlice.setAlert, AlertSlice.removeAlert in *.
  rewrite !List.filter_app, (Hkeep before), (Hkeep meanwhile) by done.
  simpl. rewrite bool_decide_eq_true_2 by done. simpl. by rewrite app_nil_r.
Qed.

(** The theorem on two alerts. *)
Lemma removeAlert_setAlert_witness :
  AlertSlice.removeAlert "a1"
    (AlertSlice.setAlert (AlertSlice.mk "Saved" "success" "a2")
       (AlertSlice.setAlert (AlertSlice.mk "Payment failed" "error" "a1")
          AlertSlice.initialState))
  = [AlertSlice.mk "Saved" "success" "a2"].
Proof.
  apply (removeAlert_setAlert (AlertSlice.mk "Payment failed" "error" "a1") []
           [AlertSlice.mk "Saved" "success" "a2"]).
  - constructor.
  - repeat constructor. vm_compute. discriminate.
Defined.

(** X20.  As long as every fulfilled login and registration carries a
    token, the token of the auth slice and the [token] item of
    [localStorage] agree after every action, starting from the page load. *)
Theorem auth_token_in_sync {U : Type} (localStorage_token : option string)
    (actions : list (AuthSlice.action U)) :
  Forall AuthSlice.carries_token actions →
  AuthSlice.token (AuthSlice.run localStorage_token actions).1
  = (AuthSlice.run localStorage_token actions).2.
Proof.
  unfold AuthSlice.run.
  assert (∀ s : AuthSlice.state U * option string,
            AuthSlice.token s.1 = s.2 →
            Forall AuthSlice.carries_token actions →
            AuthSlice.token (fold_left (λ s a, AuthSlice.reducer a s) actions s).1
            = (fold_left (λ s a, AuthSlice.reducer a s) actions s).2) as Hrun.
  { induction actions as [|a actions IH]; intros [st ls] Hs Hall; [done|].
    apply Forall_cons in Hall as [Ha Hall]. simpl. apply IH; [|done].
    simpl in Hs. destruct a as [| | | |[t|]| |[t|]|]; simpl; try done. }
  intros Hall. by apply Hrun.
Qed.

(** The theorem on a login followed by a logout; and what a response
    without token does: the item holds the string [undefined], which the
    next page load takes for a token. *)
Lemma auth_token_in_sync_witness :
  AuthSlice.run (U := string) None [AuthSlice.login_fulfilled (Some "jwt"); AuthSlice.logout]
  = (AuthSlice.mk None (Some false) false None, None)
  ∧ AuthSlice.token
      (AuthSlice.run (U := string) None
         [AuthSlice.login_fulfilled (Some "jwt"); AuthSlice.logout]).1
    = (AuthSlice.run (U := string) None
         [AuthSlice.login_fulfilled (Some "jwt"); AuthSlice.logout]).2.
Proof.
  split; [reflexivity|].
  apply (auth_token_in_sync (U := string) None
           [AuthSlice.login_fulfilled (Some "jwt"); AuthSlice.logout]).
  repeat constructor.
Defined.

Example auth_token_undefined :
  AuthSlice.run (U := string) None [AuthSlice.login_fulfilled None]
  = (AuthSlice.mk None (Some true) false None, Some "undefined").
Proof. reflexivity. Qed.

(** ** The parking controller *)

Lemma elem_of_List_filter {A : Type} (f : A → bool) (l : list A) (x : A) :
  x ∈ List.filter f l ↔ x ∈ l ∧ f x = true.
Proof. rewrite !list_elem_of_In. apply filter_In. Qed.

Lemma Parking_ids_lookup coll i j p q :
  NoDup (Parking._id <$> coll) → coll !! i = Some p → coll !! j = Some q →
  Parking._id p = Parking._id q → i = j.
Proof.
  intros Hnodup Hi Hj Hid.
  apply (NoDup_lookup _ i j (Parking._id p) Hnodup).
  - by rewrite list_lookup_fmap, Hi.
  - by rewrite list_lookup_fmap, Hj, Hid.
Qed.

(** Saving an inactive facility over its stored document: the recount
    finds nothing, the document of the [pre('save')] hook stays. *)
Lemma save_inactive slugify now p coll i p0 :
  NoDup (Parking._id <$> coll) → coll !! i = Some p0 → Parking._id p0 = Parking._id p →
  Parking.isActive p = false →
  (Parking.save slugify now p coll).2
  = <[i := Parking.touch now (Parking.pre_save slugify p) coll]> coll
  ∧ list_find (λ q, Parking.isActive q ∧ Parking._id q = Parking._id p)
      (<[i := Parking.touch now (Parking.pre_save slugify p) coll]> coll) = None.
Proof.
  intros Hnodup Hi Hid Hactive.
  set (p' := Parking.touch now (Parking.pre_save slugify p) coll).
  assert (Parking._id p' = Parking._id p ∧ Parking.isActive p' = false) as [Hid' Hact'].
  { unfold p'.
    by destruct (touch_cases now (Parking.pre_save slugify p) coll) as [-> | ->]. }
  assert (list_find (λ q, Parking._id q = Parking._id p') coll = Some (i, p0)) as Hfind.
  { apply list_find_Some. split_and!; [done|congruence|].
    intros j y Hj Hlt Hy.
    assert (j = i); [|lia].
    apply (Parking_ids_lookup coll j i y p0 Hnodup Hj Hi). congruence. }
  assert (list_find (λ q, Parking.isActive q ∧ Parking._id q = Parking._id p)
            (<[i := p']> coll) = None) as Hnone.
  { apply list_find_None, Forall_forall. intros q Hq [Hqa Hqid].
    apply list_elem_of_lookup in Hq as [j Hj].
    destruct (decide (j = i)) as [->|Hne].
    - rewrite list_lookup_insert_eq in Hj by (by eapply lookup_lt_Some).
      injection Hj as <-. by rewrite Hact' in Hqa.
    - rewrite list_lookup_insert_ne in Hj by done.
      apply Hne. apply (Parking_ids_lookup coll j i q p0 Hnodup Hj Hi). congruence. }
  split; [|exact Hnone].
  unfold Parking.save, Parking.save_written, Parking.post_save, Parking.calcAvailableSlots,
    Parking.write. fold p'. rewrite Hfind. cbn [snd].
  rewrite Hid'.
  destruct (Parking.aggregate_availableSlots _ _) as [|n rest]; [done|].
  unfold Parking.findByIdAndUpdate. by rewrite Hnone.
Qed.

(** The two counts of a list of slots agree when none is reserved. *)
Lemma availableOrReserved_countAvailable l :
  length (availableOrReserved l) = Parking.countAvailable l
  ↔ Forall (λ x, Slot.status x ≠ "reserved") l.
Proof.
  unfold availableOrReserved, Parking.countAvailable.
  induction l as [|x l IH]; [by split; [constructor|]|].
  rewrite Forall_cons. cbn [List.filter].
  pose proof (countAvailable_le l) as Hle.
  unfold Parking.countAvailable, Parking.countAvailableOrReserved in Hle.
  destruct (decide (Slot.status x = "available")) as [Ha|Hna].
  - rewrite (bool_decide_eq_true_2 _ Ha). cbn [orb length]. rewrite <- IH.
    split; [intros [= ?]; split; [by rewrite Ha|done] | intros [_ ->]; done].
  - rewrite (bool_decide_eq_false_2 _ Hna). cbn [orb].
    destruct (decide (Slot.status x = "reserved")) as [Hr|Hnr].
    + rewrite (bool_decide_eq_true_2 _ Hr). cbn [length]. split; [lia|by intros [? _]].
    + rewrite (bool_decide_eq_false_2 _ Hnr). rewrite <- IH. tauto.
Qed.

(** X21.  [deleteParking] by the owner or an admin deletes softly: the
    document stays in the collection, inactive and with its slots, but no
    query finds it any more, so [getParkingSlots] answers 404 for it and a
    second [deleteParking] answers 404 as well. *)
Theorem deleteParking_soft (slugify : string → string) (owner : Parking.t → ObjectId)
    (now now' : Z) (id : ObjectId) (user : User.t) (st : State) (p : Parking.t) :
  NoDup (Parking._id <$> parkings st) →
  Parking_findById id (parkings st) = Some p →
  User.role user = "admin" ∨ owner p = User.id user →
  Parking_findById id (parkings (deleteParking slugify owner now id user st).2) = None
  ∧ (∃ i q, list_find (λ q, Parking._id q = id)
              (parkings (deleteParking slugify owner now id user st).2) = Some (i, q)
            ∧ Parking.isActive q = false
            ∧ Parking.slots q = Parking.slots p)
  ∧ getParkingSlots id (deleteParking slugify owner now id user st).2
    = inl (AppError "No parking found with that ID" 404)
  ∧ (deleteParking slugify owner now' id user
       (deleteParking slugify owner now id user st).2).1
    = res_next (AppError "No parking found with that ID" 404).
Proof.
  intros Hnodup Hfind Hallowed.
  assert (∃ i, parkings st !! i = Some p ∧ Parking._id p = id) as (i & Hi & Hid).
  { unfold Parking_findById in Hfind.
    destruct (list_find _ (parkings st)) as [[i q]|] eqn:Hq; [|done].
    injection Hfind as ->. apply list_find_Some in Hq as (? & [_ ?] & _). eauto. }
  set (p' := Parking_set_isActive false p).
  destruct (save_inactive slugify now p' (parkings st) i p Hnodup Hi eq_refl eq_refl)
    as [Hsave Hnone].
  set (q := Parking.touch now (Parking.pre_save slugify p') (parkings st)) in *.
  assert (Parking._id q = id ∧ Parking.isActive q = false
          ∧ Parking.slots q = Parking.slots p) as (Hqid & Hqa & Hqs).
  { unfold q.
    by destruct (touch_cases now (Parking.pre_save slugify p') (parkings st))
      as [-> | ->]. }
  change (Parking._id p') with (Parking._id p) in Hnone. rewrite Hid in Hnone.
  assert (parkings (deleteParking slugify owner now id user st).2
          = <[i := q]> (parkings st)) as Hparkings.
  { unfold deleteParking. rewrite Hfind.
    assert (negb (bool_decide (User.role user = "admin"))
            && negb (bool_decide (owner p = User.id user)) = false) as ->.
    { destruct Hallowed as [H|H]; rewrite (bool_decide_eq_true_2 _ H); [done|].
      by rewrite andb_false_r. }
    fold p'. rewrite Hsave. unfold redis_del. cbn [redis set_parkings].
    by destruct (redis st). }
  assert (Parking_findById id (parkings (deleteParking slugify owner now id user st).2)
          = None)
    as Hgone by (unfold Parking_findById; by rewrite Hparkings, Hnone).
  split_and!.
  - exact Hgone.
  - exists i, q. rewrite Hparkings. split; [|done].
    apply list_find_Some. split_and!.
    + apply list_lookup_insert_eq. by eapply lookup_lt_Some.
    + exact Hqid.
    + intros j y Hj Hlt Hy. rewrite list_lookup_insert_ne in Hj by lia.
      assert (j = i); [|lia].
      apply (Parking_ids_lookup (parkings st) j i y p Hnodup Hj Hi). congruence.
  - unfold getParkingSlots. by rewrite Hgone.
  - unfold deleteParking at 1. by rewrite Hgone.
Qed.

(** X22.  For a facility that is open, [getParkingAvailability] lists a
    slot exactly when the slot is available or reserved and
    [Booking.isSlotAvailable] answers [true] for it on the requested window:
    the two availability checks of the code agree, as long as the stored
    bookings end after they start and name the facility their slot belongs
    to. *)
Theorem getParkingAvailability_isSlotAvailable (closed : Parking.t → Z → Z → bool)
    (id : ObjectId) (requestedDate duration : Z) (st : State) (parking : Parking.t) :
  Forall (λ b, Booking.startTime b < Booking.endTime b) (bookings st) →
  (∀ b, b ∈ bookings st → Booking.slot b ∈ Slot._id <$> Parking.slots parking →
        Booking.parking b = id) →
  Parking_findById id (parkings st) = Some parking →
  closed parking requestedDate duration = false →
  ∃ slots,
    getParkingAvailability closed id requestedDate duration st
    = inr (availability_open (length slots) slots (length (Parking.slots parking)))
    ∧ ∀ x, x ∈ slots ↔
           x ∈ Parking.slots parking
           ∧ (Slot.status x = "available" ∨ Slot.status x = "reserved")
           ∧ Booking.isSlotAvailable (bookings st) (Slot._id x) requestedDate
               (requestedDate + duration * 60000) None = true.
Proof.
  intros Hwf Hcons Hfind Hopen. unfold getParkingAvailability. rewrite Hfind, Hopen.
  eexists. split; [reflexivity|]. intros x.
  rewrite elem_of_List_filter. unfold availableOrReserved. rewrite elem_of_List_filter.
  rewrite orb_true_iff, !bool_decide_eq_true, negb_true_iff, bool_decide_eq_false.
  rewrite isSlotAvailable_no_match.
  rewrite Forall_forall in Hwf.
  split.
  - intros [[Hx Hstatus] Hfree]. split_and!; [done|done|].
    intros b Hb. apply not_true_iff_false.
    intros (Hslot & Hactive & Hov & _)%isSlotAvailable_query_true.
    apply Hfree. apply list_elem_of_fmap. exists b. split; [done|].
    unfold Booking.find. apply elem_of_List_filter. split; [done|].
    rewrite !andb_true_iff. split_and!.
    + apply bool_decide_eq_true, Hcons; [done|].
      rewrite Hslot. apply list_elem_of_fmap. eauto.
    + apply bool_decide_eq_true. rewrite !elem_of_cons.
      destruct Hactive as [-> | ->]; auto.
    + apply Z.ltb_lt. unfold overlaps in Hov. lia.
    + apply Z.gtb_lt. specialize (Hwf b Hb). unfold overlaps in Hov. simpl in Hwf. lia.
  - intros (Hx & Hstatus & Hfree). split; [done|].
    intros (b & Hslot & Hb)%list_elem_of_fmap.
    unfold Booking.find in Hb. apply elem_of_List_filter in Hb as [Hb Hq].
    rewrite !andb_true_iff in Hq. destruct Hq as [[_ Hstat] [Hlt Hgt]].
    apply bool_decide_eq_true in Hstat. apply Z.ltb_lt in Hlt. apply Z.gtb_lt in Hgt.
    specialize (Hfree b Hb). apply not_true_iff_false in Hfree. apply Hfree.
    apply isSlotAvailable_query_true. split_and!; [done| |left; unfold overlaps; lia|done].
    rewrite !elem_of_cons, elem_of_nil in Hstat. unfold active. tauto.
Qed.

(** X23.  After an active facility has been saved, [getParkingSlots]
    reports the number of its available or reserved slots, while the stored
    counter [availableSlots] holds the number of its available slots: the
    two numbers agree exactly when no slot of the facility is reserved. *)
Theorem getParkingSlots_counter (slugify : string → string) (now : Z) (p : Parking.t)
    (st : State) :
  Parking.isActive p = true →
  ∃ q slots,
    Parking_findById (Parking._id p)
      (Parking.save slugify now p (parkings st)).2 = Some q
    ∧ getParkingSlots (Parking._id p)
        (set_parkings (Parking.save slugify now p (parkings st)).2 st)
      = inr (length slots, slots)
    ∧ length slots = Parking.countAvailableOrReserved (Parking.slots p)
    ∧ Parking.availableSlots q = Parking.countAvailable (Parking.slots p)
    ∧ (length slots = Parking.availableSlots q
       ↔ Forall (λ x, Slot.status x ≠ "reserved") (Parking.slots p)).
Proof.
  intros Hactive.
  destruct (save_stores_available_only slugify now p (parkings st) Hactive) as [i Hi].
  set (q := Parking.set_updatedAt now _) in Hi.
  assert (Parking.isActive q = true ∧ Parking.slots q = Parking.slots p
          ∧ Parking.availableSlots q = Parking.countAvailable (Parking.slots p))
    as (Hqa & Hqs & Hqn).
  { unfold q. cbn [Parking.isActive Parking.slots Parking.availableSlots
                   Parking.set_updatedAt Parking.set_availableSlots].
    by destruct (touch_cases now (Parking.pre_save slugify p) (parkings st))
      as [-> | ->]. }
  apply (active_first _ _ _ _ Hqa) in Hi.
  assert (Parking_findById (Parking._id p) (Parking.save slugify now p (parkings st)).2
          = Some q)
    as Hfind by (unfold Parking_findById; by rewrite Hi).
  exists q, (availableOrReserved (Parking.slots p)). split_and!.
  - exact Hfind.
  - unfold getParkingSlots. cbn [parkings set_parkings]. by rewrite Hfind, Hqs.
  - reflexivity.
  - exact Hqn.
  - rewrite Hqn. apply availableOrReserved_countAvailable.
Qed.

(** The theorem on the sample state: an admin deletes the facility. *)
Lemma deleteParking_soft_witness :
  NoDup (Parking._id <$> parkings state_0)
  ∧ Parking_findById "parking-1" (parkings state_0) = Some parking_1
  ∧ (deleteParking (λ name, name) (λ _, "user-9") 3000 "parking-1" admin_1 state_0).1
    = res_json 204 (body_status "success" None)
  ∧ getParkingSlots "parking-1"
      (deleteParking (λ name, name) (λ _, "user-9") 3000 "parking-1" admin_1 state_0).2
    = inl (AppError "No parking found with that ID" 404).
Proof.
  assert (NoDup (Parking._id <$> parkings state_0)) as Hnodup
    by (apply NoDup_singleton).
  assert (Parking_findById "parking-1" (parkings state_0) = Some parking_1) as Hfind
    by (vm_compute; reflexivity).
  destruct (deleteParking_soft (λ name, name) (λ _, "user-9") 3000 4000 "parking-1"
              admin_1 state_0 parking_1 Hnodup Hfind (or_introl eq_refl))
    as (_ & _ & Hslots & _).
  split_and!; [exact Hnodup|exact Hfind|vm_compute; reflexivity|exact Hslots].
Defined.

(** The theorem on the sample state, for one hour from 10:30: slot 1 is
    taken by booking A, slot 2 is listed. *)
Lemma getParkingAvailability_isSlotAvailable_witness :
  Parking_findById "parking-1" (parkings state_0) = Some parking_1
  ∧ getParkingAvailability (λ _ _ _, false) "parking-1" (10 * hour + hour / 2) 60 state_0
    = inr (availability_open 1 [Slot.mk "slot-2" "A2" 2 "available" 50] 2)
  ∧ ∃ slots,
      getParkingAvailability (λ _ _ _, false) "parking-1" (10 * hour + hour / 2) 60 state_0
      = inr (availability_open (length slots) slots (length (Parking.slots parking_1)))
      ∧ ∀ x, x ∈ slots ↔
             x ∈ Parking.slots parking_1
             ∧ (Slot.status x = "available" ∨ Slot.status x = "reserved")
             ∧ Booking.isSlotAvailable (bookings state_0) (Slot._id x)
                 (10 * hour + hour / 2) (10 * hour + hour / 2 + 60 * 60000) None = true.
Proof.
  assert (Parking_findById "parking-1" (parkings state_0) = Some parking_1) as Hfind
    by (vm_compute; reflexivity).
  assert (Forall (λ b, Booking.startTime b < Booking.endTime b) (bookings state_0)) as Hwf
    by (repeat constructor).
  assert (∀ b, b ∈ bookings state_0 → Booking.slot b ∈ Slot._id <$> Parking.slots parking_1 →
               Booking.parking b = "parking-1") as Hcons.
  { intros b Hb _. cbn [bookings state_0] in Hb.
    apply elem_of_cons in Hb as [->|Hb]; [reflexivity|].
    apply elem_of_cons in Hb as [->|Hb]; [reflexivity|].
    by apply elem_of_nil in Hb. }
  split_and!; [exact Hfind|vm_compute; reflexivity|].
  exact (getParkingAvailability_isSlotAvailable (λ _ _ _, false) "parking-1"
           (10 * hour + hour / 2) 60 state_0 parking_1 Hwf Hcons Hfind eq_refl).
Defined.

(** The theorem on the sample facility, which has a reserved slot: the
    endpoint reports 2, the stored counter is 1. *)
Lemma getParkingSlots_counter_witness :
  Parking.isActive parking_1 = true
  ∧ ∃ q slots,
      Parking_findById "parking-1"
        (Parking.save (λ name, name) 3000 parking_1 (parkings state_0)).2 = Some q
      ∧ getParkingSlots "parking-1"
          (set_parkings (Parking.save (λ name, name) 3000 parking_1 (parkings state_0)).2
             state_0)
        = inr (length slots, slots)
      ∧ length slots = 2%nat
      ∧ Parking.availableSlots q = 1%nat.
Proof.
  split; [reflexivity|].
  destruct (getParkingSlots_counter (λ name, name) 3000 parking_1 state_0 eq_refl)
    as (q & slots & Hfind & Hslots & Hn & Hq & _).
  exists q, slots. split_and!; [exact Hfind|exact Hslots|exact Hn|exact Hq].
Defined.

(** ** The webhook: failures inside a handler *)

Section WebhookFailures.

Variable hmac_sha256_hex : string → string → string.
Variable RAZORPAY_WEBHOOK_SECRET : string.
Variable JSON_stringify : WebhookBody.t → string.
Variable inspect : ObjectId → string → string.

Local Abbreviation deliver now body :=
  (webhook hmac_sha256_hex RAZORPAY_WEBHOOK_SECRET JSON_stringify inspect now
     (Some (hmac_sha256_hex RAZORPAY_WEBHOOK_SECRET (JSON_stringify body))) body).

(** X24.  Every signed [refund.processed] event is acknowledged with 200
    and status success, although the handler has failed: the state after
    the request is the state before it with one more line in the log, the
    validation error of the rejected update. *)
Theorem webhook_refund_acknowledged (now : Z) (refund : RefundEntity.t)
    (payment : option (option PaymentEntity.t)) (st : State) :
  deliver now (WebhookBody.mk "refund.processed"
                 (Some (WebhookBody.mk_payload payment (Some (Some refund))))) st
  = (res_json 200 (body_status "success" None),
     logger (log_error "Error handling refund: " (ValidationError "status")) st).
Proof.
  unfold webhook. rewrite bool_decide_eq_true_2 by done.
  cbn [negb WebhookBody.event WebhookBody.payload].
  rewrite !bool_decide_eq_false_2 by done. rewrite bool_decide_eq_true_2 by done.
  cbn [mbind option_bind WebhookBody.refund].
  unfold handleRefund, findOneAndUpdate. by rewrite (refund_update_rejected refund).
Qed.

(** X25.  A signed [payment.captured] event that arrives while the cache
    client is not initialised is acknowledged with 200 as well: the booking
    that carries the order is stored confirmed, with [payment.status]
    completed, and the slot is reserved; the cache stays missing, and the
    error of [getRedisClient] only shows as a line in the log (the same
    failure makes [verifyPayment] answer with an error). *)
Theorem webhook_captured_cache_down (now : Z) (payment : PaymentEntity.t)
    (refund : option (option RefundEntity.t)) (st : State) (i : nat) (b : Booking.t) :
  findOne (payment_field_is "orderId" (PaymentEntity.order_id payment)) (bookings st)
    = Some (i, b) →
  redis st = None →
  let r := deliver now (WebhookBody.mk "payment.captured"
                          (Some (WebhookBody.mk_payload (Some (Some payment)) refund))) st in
  r.1 = res_json 200 (body_status "success" None)
  ∧ (∃ b', bookings r.2 = <[i := b']> (bookings st)
           ∧ booking_identity b' = booking_identity b
           ∧ Booking.status b' = "confirmed"
           ∧ Booking.payment b' !! "status" = Some (VString "completed"))
  ∧ parkings r.2
    = Parking.updateOne_slot_status now (Booking.slot b) "reserved" (parkings st)
  ∧ redis r.2 = None
  ∧ log r.2
    = (log st ++ [log_error "Error handling successful payment: " RedisNotInitialized])%list.
Proof.
  intros Hfind Hredis. cbv zeta. unfold webhook. rewrite bool_decide_eq_true_2 by done.
  cbn [negb WebhookBody.event WebhookBody.payload].
  rewrite bool_decide_eq_true_2 by done. cbn [mbind option_bind WebhookBody.payment].
  cbn [fst snd]. split; [done|].
  destruct (handleSuccessfulPayment_found inspect now payment st i b Hfind)
    as (Hb & Hp & Hr).
  rewrite Hb, Hp, Hr, Hredis. split_and!; [|done|done|].
  - exists (confirmed_at now b). split_and!; [done|done|done|].
    unfold confirmed_at. cbn [Booking.payment]. by rewrite lookup_insert_eq.
  - unfold handleSuccessfulPayment, findOneAndUpdate.
    rewrite captured_update_valid. cbv iota. rewrite Hfind.
    unfold redis_del. cbn [redis set_parkings set_bookings]. by rewrite Hredis.
Qed.

End WebhookFailures.

(** The theorem on the sample state with the cache not connected: the
    capture of the order of the pending booking. *)
Lemma webhook_captured_cache_down_witness :
  findOne (payment_field_is "orderId" "order_2") (bookings (set_redis None state_0))
  = Some (1%nat, booking_P)
  ∧ redis (set_redis None state_0) = None
  ∧ (webhook sample_hmac "webhook-secret" sample_stringify sample_inspect 1500
       (Some (sample_hmac "webhook-secret" "payment.captured")) captured_order_2
       (set_redis None state_0)).1
    = res_json 200 (body_status "success" None)
  ∧ log (webhook sample_hmac "webhook-secret" sample_stringify sample_inspect 1500
           (Some (sample_hmac "webhook-secret" "payment.captured")) captured_order_2
           (set_redis None state_0)).2
    = [log_error "Error handling successful payment: " RedisNotInitialized].
Proof.
  assert (findOne (payment_field_is "orderId" "order_2") (bookings (set_redis None state_0))
          = Some (1%nat, booking_P)) as Hfind by (vm_compute; reflexivity).
  assert (redis (set_redis None state_0) = None) as Hredis by reflexivity.
  destruct (webhook_captured_cache_down sample_hmac "webhook-secret" sample_stringify
              sample_inspect 1500
              (PaymentEntity.mk "pay_2" "order_2" 1700000000 None) None
              (set_redis None state_0) 1 booking_P Hfind Hredis)
    as (Hres & _ & _ & _ & Hlog).
  split_and!; [exact Hfind|exact Hredis|exact Hres|exact Hlog].
Defined.

(** ** The cache client *)

(** X27.  [getRedisClient] throws only as long as no [connectRedis] has got
    past [createClient]: after such a call it hands out a client for good,
    also when the connection was refused (and [connectRedis] returned
    [null]) or has been closed since.  Right after that call, and as long
    as only calls that fail in [createClient] follow, the client it hands
    out is open exactly when the call connected. *)
Theorem getRedisClient_after_connect (before after : list Redis.Call) (a : Redis.Attempt) :
  a ≠ Redis.createClient_throws →
  ∃ c, Redis.getRedisClient (Redis.run (before ++ Redis.call_connectRedis a :: after)) = inr c
       ∧ (Forall (λ x, x = Redis.call_connectRedis Redis.createClient_throws) after →
          Redis.isOpen c = bool_decide (a = Redis.connect_resolves)).
Proof.
  intros Ha. unfold Redis.run. rewrite fold_left_app. cbn [fold_left].
  set (v := Redis.call (Redis.call_connectRedis a) _).
  assert (v = Some (Redis.mk_client (bool_decide (a = Redis.connect_resolves)))) as ->
    by (unfold v; by destruct a).
  generalize (bool_decide (a = Redis.connect_resolves)). intros o.
  revert o. induction after as [|x after IH]; intros o.
  - exists (Redis.mk_client o). done.
  - cbn [fold_left]. destruct x as [[| |]|]; cbn [Redis.call Redis.connectRedis
      Redis.closeRedis snd].
    + destruct (IH o) as (c & Hc & Hopen). exists c. split; [done|].
      intros Hall. apply Hopen. by apply Forall_cons in Hall as [_ ?].
    + destruct (IH false) as (c & Hc & _). exists c. split; [done|].
      intros Hall. by apply Forall_cons in Hall as [? _].
    + destruct (IH true) as (c & Hc & _). exists c. split; [done|].
      intros Hall. by apply Forall_cons in Hall as [? _].
    + destruct (IH false) as (c & Hc & _). exists c. split; [done|].
      intros Hall. by apply Forall_cons in Hall as [? _].
Qed.

(** The theorem on a refused connection: [connectRedis] returns [null],
    and [getRedisClient] returns a client that is not open. *)
Lemma getRedisClient_after_connect_witness :
  (Redis.connectRedis Redis.connect_rejects None).1 = None
  ∧ ∃ c, Redis.getRedisClient (Redis.run [Redis.call_connectRedis Redis.connect_rejects])
         = inr c
         ∧ Redis.isOpen c = false.
Proof.
  split; [reflexivity|].
  assert (Redis.connect_rejects ≠ Redis.createClient_throws) as Ha by discriminate.
  destruct (getRedisClient_after_connect [] [] Redis.connect_rejects Ha) as (c & Hc & Hopen).
  exists c. split; [exact Hc|]. by apply Hopen.
Defined.

(** Before any [connectRedis], and after calls that never got past
    [createClient], it throws. *)
Lemma getRedisClient_before_connect calls :
  Forall (λ x, x = Redis.call_closeRedis
               ∨ x = Redis.call_connectRedis Redis.createClient_throws) calls →
  Redis.getRedisClient (Redis.run calls) = inl RedisNotInitialized.
Proof.
  unfold Redis.run. intros Hall.
  assert (fold_left (λ v c, Redis.call c v) calls None = None) as ->; [|done].
  induction Hall as [|x calls [-> | ->] _ IH]; simpl; done.
Qed.
